(** * Johnny assembler: a shallow embedding of [assembler.js]

    The development follows the three stages of the source file:
    [lexer] (text to tokens), [parser] (tokens to expressions) and
    [assembler] (expressions to a memory image, with a relocation pass
    that evaluates the deferred operands through the host's [eval]).

    Conventions of the embedding.
    - A run ends in [Ok v] (normal return), [Throw ex] (an exception
      reaches the caller) or [Unmodelled] (the run leaves the part of
      JavaScript that is described here).  Nothing is ever claimed
      about an [Unmodelled] run.
    - JavaScript numbers are mathematical integers ([Z]).  Every place
      where a double could lose precision (magnitude of 2^53 or more)
      yields [Unmodelled] instead of a value.
    - Source text is a [string] of 8-bit characters; a character above
      127 that reaches [peek] yields [Unmodelled], because
      [toUpperCase] is only described here for 7-bit characters.
    - A thrown exception is a value of [js_error], which keeps the
      kind of the error and the data of its message; [console.log] is
      dropped.
    - Loops over an index into an array are recursions over the part
      of the array from the index on. *)

From Stdlib Require Import ZArith Ascii String List Lia Bool DecimalString DecimalPos.
From stdpp Require Import base numbers list strings gmap.

Local Open Scope string_scope.
Local Open Scope list_scope.
Local Open Scope Z_scope.

(** ** Results of a run *)

Inductive js_error : Type :=
| NoSuchDirective (directive : string) (line : Z)
| UnexpectedSymbol (char : ascii) (line : Z)
| ExpectedToken (types : list Z) (got : Z)
| InvalidArgCount (expected : option nat) (got : nat)
| NotANumber
| EmittingOutsideOfMemory
| JsTypeError
| JsSyntaxError
| JsReferenceError (name : string)
| ErrorWhileParsingLine (line : Z) (ex : js_error)
| ErrorWhileAssemblingLine (line : Z) (ex : js_error).

Inductive outcome (A : Type) : Type :=
| Ok (a : A)
| Throw (ex : js_error)
| Unmodelled.

Arguments Ok {A} a.
Arguments Throw {A} ex.
Arguments Unmodelled {A}.

Definition bind {A B : Type} (m : outcome A) (k : A -> outcome B) : outcome B :=
  match m with
  | Ok a => k a
  | Throw ex => Throw ex
  | Unmodelled => Unmodelled
  end.

Notation "'let*' x ':=' m 'in' k" := (bind m (fun x => k))
  (at level 10, x name, m at level 100, k at level 200).

(** The largest magnitude below which integer arithmetic on doubles is exact. *)
Definition MAX_SAFE : Z := 2 ^ 53.

Definition exact (z : Z) : outcome Z :=
  if (Z.abs z <? MAX_SAFE) then Ok z else Unmodelled.

(** ** Tokens and the fixed tables *)

Inductive token : Type :=
| T_IDENT (name : string)
| T_NUMBER (value : Z)
| T_ARITH_SYMBOL (char : ascii)
| T_LABEL_MAKER
| T_INSTRUCTION (index : Z)
| T_DIRECTIVE (index : Z)
| T_LINENUM (line : Z)
| T_COMMA.

(** [token[0]] *)
Definition token_type (t : token) : Z :=
  match t with
  | T_IDENT _ => 0
  | T_NUMBER _ => 1
  | T_ARITH_SYMBOL _ => 2
  | T_LABEL_MAKER => 3
  | T_INSTRUCTION _ => 4
  | T_DIRECTIVE _ => 5
  | T_LINENUM _ => 6
  | T_COMMA => 7
  end.

Definition INSTRUCTIONS : list string :=
  ["~"; "TAKE"; "ADD"; "SUB"; "SAVE"; "JMP"; "TST"; "INC"; "DEC"; "NULL"; "HLT"].

Definition INSTRUCTION_ARG_LENGTHS : list nat :=
  [0; 1; 1; 1; 1; 1; 1; 1; 1; 1; 0]%nat.

Definition D_ORG : Z := 0.
Definition D_TIMES : Z := 1.
Definition D_DV : Z := 2.

Definition COMPILER_DIRECTIVES : list string := ["ORG"; "TIMES"; "DV"].

Definition DIRECTIVE_ARG_LENGTHS : list nat := [1; 1; 1]%nat.

Definition NUMBERS : string := "1234567890".
Definition SYMBOLS : string := "+-*()".

Definition newline : ascii := ascii_of_nat 10.
Definition nl : string := String newline "".

(** [s.includes(c)] for a one-character [c]. *)
Definition includes (s : string) (c : ascii) : bool :=
  existsb (Ascii.eqb c) (list_ascii_of_string s).

(** [array.indexOf(x)]: [None] stands for -1. *)
Fixpoint indexOf (l : list string) (x : string) : option Z :=
  match l with
  | [] => None
  | y :: l' => if String.eqb y x then Some 0
               else match indexOf l' x with
                    | Some i => Some (i + 1)
                    | None => None
                    end
  end.

Definition isLetter (z : ascii) : bool :=
  let charCode := nat_of_ascii z in
  (65 <=? charCode)%nat && (charCode <=? 90)%nat.

Definition isLetterOrNumber (e : ascii) : bool :=
  isLetter e || includes NUMBERS e.

(** ** Lexer *)

Definition is_ascii7 (c : ascii) : bool := (nat_of_ascii c <? 128)%nat.

(** [ch.toUpperCase()] on a 7-bit character. *)
Definition toUpperCase (ch : ascii) : ascii :=
  let n := nat_of_ascii ch in
  if (97 <=? n)%nat && (n <=? 122)%nat then ascii_of_nat (n - 32) else ch.

(** [text.toUpperCase()] on a text of 7-bit characters. *)
Definition text_toUpperCase (text : string) : outcome string :=
  let chars := list_ascii_of_string text in
  if forallb is_ascii7 chars then Ok (string_of_list_ascii (map toUpperCase chars))
  else Unmodelled.

(** [collectWhile] reads the raw characters at the cursor (no
    [toUpperCase]) while [condition] holds.  It has two results in the
    source, the returned string and the advanced cursor; here the
    cursor is the text still to be read. *)
Fixpoint collectWhile_output (condition : ascii -> bool) (input : list ascii)
  : list ascii :=
  match input with
  | [] => []
  | nextCh :: rest =>
      if condition nextCh then nextCh :: collectWhile_output condition rest
      else []
  end.

Fixpoint collectWhile_cursor (condition : ascii -> bool) (input : list ascii)
  {struct input} : list ascii :=
  match input with
  | [] => input
  | nextCh :: rest =>
      if condition nextCh then collectWhile_cursor condition rest
      else input
  end.

Definition digit_value (c : ascii) : Z := Z.of_nat (nat_of_ascii c) - 48.

(** [parseInt] on a non-empty run of decimal digits. *)
Definition parseInt (digits : list ascii) : Z :=
  fold_left (fun acc c => 10 * acc + digit_value c) digits 0.

(** The [while(cursor < inputData.length)] loop.  [input] is the text
    from the cursor on.  A [collectWhile] that reaches the end of the
    text would test the empty string; the text always ends with the
    appended newline, which every condition rejects, so that case is
    left [Unmodelled]. *)
Fixpoint lex_loop (input : list ascii) (lineNumber : Z) (outputTokens : list token)
  {struct input} : outcome (list token) :=
  match input with
  | [] => Ok outputTokens
  | ch :: rest =>
      if negb (is_ascii7 ch) then Unmodelled else
      let char := toUpperCase ch in
      if Ascii.eqb char " " then lex_loop rest lineNumber outputTokens
      else if Ascii.eqb char newline then
        lex_loop rest (lineNumber + 1) (outputTokens ++ [T_LINENUM (lineNumber + 1)])
      else if includes NUMBERS char then
        let digits := collectWhile_output (includes NUMBERS) rest in
        let cursor := collectWhile_cursor (includes NUMBERS) rest in
        match cursor with
        | [] => Unmodelled
        | _ :: _ =>
            match exact (parseInt (char :: digits)) with
            | Ok n => lex_loop cursor lineNumber (outputTokens ++ [T_NUMBER n])
            | Throw ex => Throw ex
            | Unmodelled => Unmodelled
            end
        end
      else if includes SYMBOLS char then
        lex_loop rest lineNumber (outputTokens ++ [T_ARITH_SYMBOL char])
      else if isLetter char then
        let sequence :=
          string_of_list_ascii (char :: collectWhile_output isLetterOrNumber rest) in
        let cursor := collectWhile_cursor isLetterOrNumber rest in
        match cursor with
        | [] => Unmodelled
        | _ :: _ =>
            match indexOf INSTRUCTIONS sequence with
            | None => lex_loop cursor lineNumber (outputTokens ++ [T_IDENT sequence])
            | Some instructionIndex =>
                lex_loop cursor lineNumber
                         (outputTokens ++ [T_INSTRUCTION instructionIndex])
            end
        end
      else if Ascii.eqb char ":" then
        lex_loop rest lineNumber (outputTokens ++ [T_LABEL_MAKER])
      else if Ascii.eqb char "#" then
        let directive := string_of_list_ascii (collectWhile_output isLetter rest) in
        let cursor := collectWhile_cursor isLetter rest in
        match cursor with
        | [] => Unmodelled
        | _ :: _ =>
            match indexOf COMPILER_DIRECTIVES directive with
            | None => Throw (NoSuchDirective directive lineNumber)
            | Some index =>
                lex_loop cursor lineNumber (outputTokens ++ [T_DIRECTIVE index])
            end
        end
      else if Ascii.eqb char "," then
        lex_loop rest lineNumber (outputTokens ++ [T_COMMA])
      else if Ascii.eqb char ";" then
        let cursor := collectWhile_cursor (fun e => negb (Ascii.eqb e newline)) rest in
        match cursor with
        | [] => Unmodelled
        | _ :: _ => lex_loop cursor lineNumber outputTokens
        end
      else Throw (UnexpectedSymbol char lineNumber)
  end.

Definition lexer (inputData : string) : outcome (list token) :=
  lex_loop (list_ascii_of_string inputData ++ [newline]) 1 [T_LINENUM 1].

(** ** Parser *)

Inductive expression : Type :=
| E_LABEL (name : string)
| E_INSTRUCTION (index : Z) (args : list (list token))
| E_DIRECTIVE (index : Z) (args : list (list token))
| E_LINENUM (line : Z).

(** [table[i]] for a number [i]; [None] stands for [undefined]. *)
Definition table_get {A : Type} (table : list A) (i : Z) : option A :=
  if i <? 0 then None else table !! Z.to_nat i.

(** [collectCommaSeparated]: the groups gathered when the line marker
    is reached (with the trailing non-empty buffer pushed), and the
    cursor left on that line marker. *)
Fixpoint collectCommaSeparated_output (tokenStream buffer : list token)
  (output : list (list token)) {struct tokenStream} : list (list token) :=
  match tokenStream with
  | [] => output
  | T_LINENUM _ :: _ =>
      match buffer with
      | [] => output
      | _ :: _ => output ++ [buffer]
      end
  | T_COMMA :: rest => collectCommaSeparated_output rest [] (output ++ [buffer])
  | tok :: rest => collectCommaSeparated_output rest (buffer ++ [tok]) output
  end.

Fixpoint collectCommaSeparated_cursor (tokenStream : list token) {struct tokenStream}
  : list token :=
  match tokenStream with
  | [] => tokenStream
  | T_LINENUM _ :: _ => tokenStream
  | _ :: rest => collectCommaSeparated_cursor rest
  end.

(** [count !== output.length] *)
Definition count_differs (count : option nat) (output : list (list token)) : bool :=
  match count with
  | Some c => negb (c =? length output)%nat
  | None => true
  end.

(** The [while(cursor < tokenStream.length)] loop inside the [try];
    every exception leaves through the [catch], which prefixes the
    line number current at that moment.  [expectAnyOf] is the match
    on the head of the stream: a type outside the expected ones is
    [ExpectedToken].  Reading [tokenStream[cursor]] past the end, in
    [expectAnyOf] or in [peekTypeOfNext], gives [undefined], whose
    [[0]] is a [TypeError]. *)
Fixpoint parse_loop (tokenStream : list token) (lineNumber : Z)
  (outputExpressions : list expression) {struct tokenStream}
  : outcome (list expression) :=
  match tokenStream with
  | [] => Ok outputExpressions
  | tok :: rest =>
      match tok with
      | T_LINENUM contents =>
          parse_loop rest contents (outputExpressions ++ [E_LINENUM contents])
      | T_IDENT contents =>
          match rest with
          | [] => Throw (ErrorWhileParsingLine lineNumber JsTypeError)
          | T_LABEL_MAKER :: rest' =>
              parse_loop rest' lineNumber (outputExpressions ++ [E_LABEL contents])
          | other :: _ =>
              Throw (ErrorWhileParsingLine lineNumber
                       (ExpectedToken [3] (token_type other)))
          end
      | T_DIRECTIVE contents =>
          let cursor := collectCommaSeparated_cursor rest in
          match cursor with
          | [] => Throw (ErrorWhileParsingLine lineNumber JsTypeError)
          | _ :: _ =>
              let output := collectCommaSeparated_output rest [] [] in
              let count := table_get DIRECTIVE_ARG_LENGTHS contents in
              if count_differs count output then
                Throw (ErrorWhileParsingLine lineNumber
                         (InvalidArgCount count (length output)))
              else
                parse_loop cursor lineNumber
                           (outputExpressions ++ [E_DIRECTIVE contents output])
          end
      | T_INSTRUCTION contents =>
          let cursor := collectCommaSeparated_cursor rest in
          match cursor with
          | [] => Throw (ErrorWhileParsingLine lineNumber JsTypeError)
          | _ :: _ =>
              let output := collectCommaSeparated_output rest [] [] in
              let count := table_get INSTRUCTION_ARG_LENGTHS contents in
              if count_differs count output then
                Throw (ErrorWhileParsingLine lineNumber
                         (InvalidArgCount count (length output)))
              else
                parse_loop cursor lineNumber
                           (outputExpressions ++ [E_INSTRUCTION contents output])
          end
      | other =>
          Throw (ErrorWhileParsingLine lineNumber
                   (ExpectedToken [5; 4; 0; 6] (token_type other)))
      end
  end.

Definition parser (tokenStream : list token) : outcome (list expression) :=
  parse_loop tokenStream (-1) [].

(** ** The host's [eval] on the text of a deferred operand

    The relocation pass joins the contents of an operand's tokens into
    one string and hands it to [eval] inside [with(labels)].  The
    fragment of JavaScript described here: decimal literals,
    identifiers made of capital letters and digits, unary and binary
    [+] and [-], binary [*], and parentheses.  Whatever lies outside
    (the [++], [--] and [**] punctuators, call syntax, literals with a
    leading zero or followed by a letter, any other character,
    arithmetic on a value that is not a number) is [Unmodelled]. *)


Inductive js_token : Type :=
| JS_NUM (n : Z)
| JS_ID (name : string)
| JS_PLUS
| JS_MINUS
| JS_STAR
| JS_LPAREN
| JS_RPAREN.

Inductive js_expr : Type :=
| JS_Num (n : Z)
| JS_Ident (name : string)
| JS_UPlus (e : js_expr)
| JS_UMinus (e : js_expr)
| JS_Add (a b : js_expr)
| JS_Sub (a b : js_expr)
| JS_Mul (a b : js_expr).

Inductive js_value : Type :=
| JNum (n : Z)
| JStr (s : string)
| JArr (items : list string)
| JUndefined.

(** The next character ends the current literal or identifier. *)
Definition at_boundary (cursor : list ascii) : bool :=
  match cursor with
  | [] => true
  | c :: _ => includes SYMBOLS c
  end.

Definition leading_zero (digits : list ascii) : bool :=
  match digits with
  | c :: _ :: _ => Ascii.eqb c "0"
  | _ => false
  end.

(** The next character of the text is [c]. *)
Definition next_is (c : ascii) (text : list ascii) : bool :=
  match text with
  | [] => false
  | d :: _ => Ascii.eqb c d
  end.

Fixpoint js_tokenize (s : list ascii) {struct s} : outcome (list js_token) :=
  match s with
  | [] => Ok []
  | c :: rest =>
      if includes NUMBERS c then
        let digits := c :: collectWhile_output (includes NUMBERS) rest in
        let cursor := collectWhile_cursor (includes NUMBERS) rest in
        if leading_zero digits || negb (at_boundary cursor) then Unmodelled
        else
          let* n := exact (parseInt digits) in
          let* ts := js_tokenize cursor in
          Ok (JS_NUM n :: ts)
      else if isLetter c then
        let name := string_of_list_ascii (c :: collectWhile_output isLetterOrNumber rest) in
        let cursor := collectWhile_cursor isLetterOrNumber rest in
        if negb (at_boundary cursor) then Unmodelled
        else
          let* ts := js_tokenize cursor in
          Ok (JS_ID name :: ts)
      else if Ascii.eqb c "+" then
        if next_is "+" rest then Unmodelled
        else let* ts := js_tokenize rest in Ok (JS_PLUS :: ts)
      else if Ascii.eqb c "-" then
        if next_is "-" rest then Unmodelled
        else let* ts := js_tokenize rest in Ok (JS_MINUS :: ts)
      else if Ascii.eqb c "*" then
        if next_is "*" rest then Unmodelled
        else let* ts := js_tokenize rest in Ok (JS_STAR :: ts)
      else if Ascii.eqb c "(" then
        let* ts := js_tokenize rest in Ok (JS_LPAREN :: ts)
      else if Ascii.eqb c ")" then
        let* ts := js_tokenize rest in Ok (JS_RPAREN :: ts)
      else Unmodelled
  end.

(** A primary expression directly followed by [(] is a call. *)
Definition no_call (e : js_expr) (ts : list js_token)
  : outcome (js_expr * list js_token) :=
  match ts with
  | JS_LPAREN :: _ => Unmodelled
  | _ => Ok (e, ts)
  end.

(** Recursive descent over the grammar
    Additive ::= Multiplicative (("+" | "-") Multiplicative)*,
    Multiplicative ::= Unary ("*" Unary)*,
    Unary ::= ("+" | "-") Unary | Primary,
    Primary ::= number | identifier | "(" Additive ")".
    [fuel] bounds the depth of the descent; a descent that would go
    deeper is [Unmodelled]. *)
Fixpoint js_additive (fuel : nat) (ts : list js_token) {struct fuel}
  : outcome (js_expr * list js_token) :=
  match fuel with
  | O => Unmodelled
  | S fuel' =>
      let* r := js_multiplicative fuel' ts in
      js_additive_rest fuel' (fst r) (snd r)
  end
with js_additive_rest (fuel : nat) (lhs : js_expr) (ts : list js_token) {struct fuel}
  : outcome (js_expr * list js_token) :=
  match fuel with
  | O => Unmodelled
  | S fuel' =>
      match ts with
      | JS_PLUS :: ts' =>
          let* r := js_multiplicative fuel' ts' in
          js_additive_rest fuel' (JS_Add lhs (fst r)) (snd r)
      | JS_MINUS :: ts' =>
          let* r := js_multiplicative fuel' ts' in
          js_additive_rest fuel' (JS_Sub lhs (fst r)) (snd r)
      | _ => Ok (lhs, ts)
      end
  end
with js_multiplicative (fuel : nat) (ts : list js_token) {struct fuel}
  : outcome (js_expr * list js_token) :=
  match fuel with
  | O => Unmodelled
  | S fuel' =>
      let* r := js_unary fuel' ts in
      js_multiplicative_rest fuel' (fst r) (snd r)
  end
with js_multiplicative_rest (fuel : nat) (lhs : js_expr) (ts : list js_token)
  {struct fuel} : outcome (js_expr * list js_token) :=
  match fuel with
  | O => Unmodelled
  | S fuel' =>
      match ts with
      | JS_STAR :: ts' =>
          let* r := js_unary fuel' ts' in
          js_multiplicative_rest fuel' (JS_Mul lhs (fst r)) (snd r)
      | _ => Ok (lhs, ts)
      end
  end
with js_unary (fuel : nat) (ts : list js_token) {struct fuel}
  : outcome (js_expr * list js_token) :=
  match fuel with
  | O => Unmodelled
  | S fuel' =>
      match ts with
      | JS_PLUS :: ts' =>
          let* r := js_unary fuel' ts' in Ok (JS_UPlus (fst r), snd r)
      | JS_MINUS :: ts' =>
          let* r := js_unary fuel' ts' in Ok (JS_UMinus (fst r), snd r)
      | JS_NUM n :: ts' => no_call (JS_Num n) ts'
      | JS_ID name :: ts' => no_call (JS_Ident name) ts'
      | JS_LPAREN :: ts' =>
          let* r := js_additive fuel' ts' in
          match snd r with
          | JS_RPAREN :: ts'' => no_call (fst r) ts''
          | _ => Throw JsSyntaxError
          end
      | _ => Throw JsSyntaxError
      end
  end.

(** The whole text must be one expression; the empty text is the empty
    program, whose value is [undefined]. *)
Definition js_parse (ts : list js_token) : outcome (option js_expr) :=
  match ts with
  | [] => Ok None
  | _ :: _ =>
      let* r := js_additive (5 * S (length ts)) ts in
      match snd r with
      | [] => Ok (Some (fst r))
      | _ :: _ => Throw JsSyntaxError
      end
  end.

(** [n.toString()] for a number token. *)
Definition number_toString (n : Z) : outcome string :=
  let* m := exact n in Ok (NilZero.string_of_int (Z.to_int m)).

(** [e[1].toString()]; the label marker and the comma carry [null]. *)
Definition contents_toString (e : token) : outcome string :=
  match e with
  | T_IDENT name => Ok name
  | T_NUMBER value => number_toString value
  | T_ARITH_SYMBOL char => Ok (String char "")
  | T_LABEL_MAKER => Throw JsTypeError
  | T_INSTRUCTION index => number_toString index
  | T_DIRECTIVE index => number_toString index
  | T_LINENUM line => number_toString line
  | T_COMMA => Throw JsTypeError
  end.

(** [value.map(e => e[1].toString()).join('')] *)
Fixpoint join_contents (value : list token) : outcome string :=
  match value with
  | [] => Ok ""
  | e :: rest =>
      let* s := contents_toString e in
      let* r := join_contents rest in
      Ok (s +:+ r)
  end.

(** The bindings of the source file itself that an identifier made of
    capitals and digits can name: the top-level constants without an
    underscore. *)
Definition file_scope (name : string) : option js_value :=
  if String.eqb name "INSTRUCTIONS" then Some (JArr INSTRUCTIONS)
  else if String.eqb name "NUMBERS" then Some (JStr NUMBERS)
  else if String.eqb name "SYMBOLS" then Some (JStr SYMBOLS)
  else None.

Definition wrap32 (z : Z) : Z := (z + 2 ^ 31) mod 2 ^ 32 - 2 ^ 31.

(** [a | b] on two numbers: both operands go through ToInt32. *)
Definition js_or (a b : Z) : Z := Z.lor (wrap32 a) (wrap32 b).

(** A character that no numeric string contains. *)
Definition never_numeric (c : ascii) : bool :=
  negb (isLetter (toUpperCase c) || includes NUMBERS c || includes " +-._" c
        || (nat_of_ascii c <? 33)%nat || (127 <? nat_of_ascii c)%nat).

(** ToNumber on a string, where it is decided by the characters alone:
    a run of digits is its value, a string with a character foreign to
    numeric strings is NaN ([None]). *)
Definition string_toNumber (s : string) : outcome (option Z) :=
  let cs := list_ascii_of_string s in
  match cs with
  | [] => Ok (Some 0)
  | _ :: _ =>
      if forallb (includes NUMBERS) cs then
        let* n := exact (parseInt cs) in Ok (Some n)
      else if existsb never_numeric cs then Ok None
      else Unmodelled
  end.

(** ToInt32 of the right operand of [|=]; NaN becomes 0.  An array is
    first turned into the comma-separated list of its items. *)
Definition toInt32 (v : js_value) : outcome Z :=
  match v with
  | JNum n => Ok (wrap32 n)
  | JStr s =>
      let* n := string_toNumber s in
      Ok (match n with Some z => wrap32 z | None => 0 end)
  | JArr items =>
      let* n := string_toNumber (String.concat "," items) in
      Ok (match n with Some z => wrap32 z | None => 0 end)
  | JUndefined => Ok 0
  end.

Section Host.

(** Names bound on the host's global object.  The host is outside the
    repository; a name it binds resolves to a value unknown here. *)
Variable host_binds : string -> bool.

(** Identifier resolution inside [with(labels) { eval(...) }]: the
    label object first (what it inherits from [Object.prototype] has
    small letters or underscores in its name), then the enclosing
    function (whose names all contain small letters), then the top
    level of the file, then the host's global object. *)
Definition resolve (labels : gmap string Z) (name : string) : outcome js_value :=
  match labels !! name with
  | Some address => Ok (JNum address)
  | None =>
      match file_scope name with
      | Some v => Ok v
      | None => if host_binds name then Unmodelled
                else Throw (JsReferenceError name)
      end
  end.

Definition arith (op : Z -> Z -> Z) (a b : js_value) : outcome js_value :=
  match a, b with
  | JNum x, JNum y => let* r := exact (op x y) in Ok (JNum r)
  | _, _ => Unmodelled
  end.

Fixpoint js_evaluate (labels : gmap string Z) (e : js_expr) : outcome js_value :=
  match e with
  | JS_Num n => Ok (JNum n)
  | JS_Ident name => resolve labels name
  | JS_UPlus a =>
      let* v := js_evaluate labels a in arith Z.add (JNum 0) v
  | JS_UMinus a =>
      let* v := js_evaluate labels a in arith Z.sub (JNum 0) v
  | JS_Add a b =>
      let* va := js_evaluate labels a in
      let* vb := js_evaluate labels b in
      arith Z.add va vb
  | JS_Sub a b =>
      let* va := js_evaluate labels a in
      let* vb := js_evaluate labels b in
      arith Z.sub va vb
  | JS_Mul a b =>
      let* va := js_evaluate labels a in
      let* vb := js_evaluate labels b in
      arith Z.mul va vb
  end.

(** [eval(text)] under [with(labels)]: a syntax error is raised before
    anything is evaluated. *)
Definition js_eval (labels : gmap string Z) (text : string) : outcome js_value :=
  let* ts := js_tokenize (list_ascii_of_string text) in
  let* program := js_parse ts in
  match program with
  | None => Ok JUndefined
  | Some e => js_evaluate labels e
  end.

(** ** Code generator *)

Record state : Type := mkState {
  memory : list Z;
  valuesToRecalculate : list (Z * option (list token));
  labels : gmap string Z;
  org : Z;
  lineNumber : Z
}.

Definition initial_state : state :=
  {| memory := replicate 1000 0;
     valuesToRecalculate := [];
     labels := ∅;
     org := 0;
     lineNumber := -1 |}.

(** The [catch] around the first pass prefixes the value [lineNumber]
    has when the exception is raised; no statement runs in between, so
    the prefix is applied at the place of the [throw]. *)
Definition throwAt {A : Type} (st : state) (ex : js_error) : outcome A :=
  Throw (ErrorWhileAssemblingLine (lineNumber st) ex).

(** [emit]: the test is [org > memory.length]; a write at
    [memory.length] itself lengthens the array by one cell.  A
    negative [org] would create a property that is no array index. *)
Definition emit (number : Z) (st : state) : outcome state :=
  if Z.of_nat (length (memory st)) <? org st then throwAt st EmittingOutsideOfMemory
  else if org st <? 0 then Unmodelled
  else
    let memory' :=
      if org st =? Z.of_nat (length (memory st)) then memory st ++ [number]
      else <[Z.to_nat (org st) := number]> (memory st) in
    Ok {| memory := memory';
          valuesToRecalculate := valuesToRecalculate st;
          labels := labels st;
          org := org st + 1;
          lineNumber := lineNumber st |}.

(** [tokenStreamAsNumber]; an absent argument is [undefined], whose
    [length] is a [TypeError]. *)
Definition tokenStreamAsNumber (st : state) (ts : option (list token)) : outcome Z :=
  match ts with
  | None => throwAt st JsTypeError
  | Some [T_NUMBER value] => Ok value
  | Some _ => throwAt st NotANumber
  end.

(** [assembleInstruction]: the base word and the first argument. *)
Definition assembleInstruction (index : Z) (args : list (list token))
  : Z * option (list token) :=
  (1000 * index, args !! 0%nat).

Definition push_recalculate (address : Z) (value : option (list token)) (st : state)
  : state :=
  {| memory := memory st;
     valuesToRecalculate := valuesToRecalculate st ++ [(address, value)];
     labels := labels st;
     org := org st;
     lineNumber := lineNumber st |}.

(** Run [body] [count] times, as the [for] loop of the repeat directive. *)
Fixpoint repeat_times (count : nat) (body : state -> outcome state) (st : state)
  : outcome state :=
  match count with
  | O => Ok st
  | S count' => let* st' := body st in repeat_times count' body st'
  end.

(** [emitExpression(index)]; the argument is [expressions] from
    [index] on, so that [expressions[index + 1]] is the head of the
    tail, and an empty list stands for an index past the end, where
    destructuring [undefined] is a [TypeError].  The result is the
    state; which index is returned is told by [skips_next]. *)
Fixpoint emitExpression (expressions : list expression) (st : state)
  {struct expressions} : outcome state :=
  match expressions with
  | [] => throwAt st JsTypeError
  | E_LINENUM contents :: _ =>
      Ok {| memory := memory st;
            valuesToRecalculate := valuesToRecalculate st;
            labels := labels st;
            org := org st;
            lineNumber := contents |}
  | E_DIRECTIVE directiveType directiveArgs :: following =>
      if directiveType =? D_ORG then
        let* n := tokenStreamAsNumber st (directiveArgs !! 0%nat) in
        Ok {| memory := memory st;
              valuesToRecalculate := valuesToRecalculate st;
              labels := labels st;
              org := n;
              lineNumber := lineNumber st |}
      else if directiveType =? D_TIMES then
        let* n := tokenStreamAsNumber st (directiveArgs !! 0%nat) in
        repeat_times (Z.to_nat n) (emitExpression following) st
      else if directiveType =? D_DV then
        emit 0 (push_recalculate (org st) (directiveArgs !! 0%nat) st)
      else Ok st
  | E_INSTRUCTION index args :: _ =>
      let (base, recalc) := assembleInstruction index args in
      let* base' := exact base in
      match recalc with
      | Some _ => emit base' (push_recalculate (org st) recalc st)
      | None => emit base' st
      end
  | E_LABEL contents :: _ =>
      Ok {| memory := memory st;
            valuesToRecalculate := valuesToRecalculate st;
            labels := <[contents := org st]> (labels st);
            org := org st;
            lineNumber := lineNumber st |}
  end.

(** [true] when [emitExpression] returns [index + 2]. *)
Definition skips_next (e : expression) : bool :=
  match e with
  | E_DIRECTIVE directiveType _ => directiveType =? D_TIMES
  | _ => false
  end.

(** [for(let i = 0; i < expressions.length; i = emitExpression(i)) {}] *)
Fixpoint first_pass (expressions : list expression) (st : state)
  {struct expressions} : outcome state :=
  match expressions with
  | [] => Ok st
  | e :: following =>
      let* st' := emitExpression expressions st in
      if skips_next e then
        match following with
        | [] => Ok st'
        | _ :: following' => first_pass following' st'
        end
      else first_pass following st'
  end.

(** [memory[address] |= evaluated] *)
Definition or_assign (memory : list Z) (address : Z) (evaluated : js_value)
  : outcome (list Z) :=
  if address <? 0 then Unmodelled
  else
    match memory !! Z.to_nat address with
    | None => Unmodelled
    | Some old =>
        let* n := toInt32 evaluated in
        Ok (<[Z.to_nat address := js_or old n]> memory)
    end.

(** The identifiers that the statements inside [with(labels)] refer
    to.  A label of one of these names would capture the reference;
    the lexer, which only produces names in capitals, never yields
    one. *)
Definition with_block_names : list string := ["evaluated"; "eval"; "value"].

Definition shadows_with_block (labels : gmap string Z) : bool :=
  existsb (fun name => match labels !! name with
                       | Some _ => true
                       | None => false
                       end) with_block_names.

(** The relocation loop; it stands after the [try] block, so nothing
    wraps what it throws. *)
Fixpoint relocate (labels : gmap string Z)
  (entries : list (Z * option (list token))) (memory : list Z)
  {struct entries} : outcome (list Z) :=
  match entries with
  | [] => Ok memory
  | (address, value) :: rest =>
      if shadows_with_block labels then Unmodelled
      else
        let* text :=
          match value with
          | None => Throw JsTypeError
          | Some ts => join_contents ts
          end in
        let* evaluated := js_eval labels text in
        let* memory' := or_assign memory address evaluated in
        relocate labels rest memory'
  end.

Definition assembler (expressions : list expression) : outcome (list Z) :=
  let* st := first_pass expressions initial_state in
  relocate (labels st) (valuesToRecalculate st) (memory st).

(** [assembler(parser(lexer(text)))] *)
Definition assemble (text : string) : outcome (list Z) :=
  let* tokens := lexer text in
  let* expressions := parser tokens in
  assembler expressions.

(** [runAssembly], the entry point of the user interface, on the
    content [value] of the text field: the result is the image whose
    cells go to [writeToRam], or the exception shown by [alert]. *)
Definition runAssembly (value : string) : outcome (list Z) :=
  let* textContents := text_toUpperCase value in
  assemble textContents.

End Host.

(** * Properties *)

(** ** Vocabulary of the statements *)

Definition tab : ascii := ascii_of_nat 9.

(** A host whose global object binds no name made of capitals and digits. *)
Definition bare_host : string -> bool := fun _ => false.

(** The token sequence [runAssembly] works on: [value] is upper-cased
    and then lexed. *)
Definition runAssembly_tokens (value : string) : outcome (list token) :=
  let* textContents := text_toUpperCase value in
  lexer textContents.

(** A text made of spaces, newlines and comments: a comment runs from
    [;] to the end of its line and may hold any character. *)
Fixpoint blank_from (in_comment : bool) (s : list ascii) : bool :=
  match s with
  | [] => true
  | c :: rest =>
      if Ascii.eqb c newline then blank_from false rest
      else if in_comment then blank_from true rest
      else if Ascii.eqb c " " then blank_from false rest
      else if Ascii.eqb c ";" then blank_from true rest
      else false
  end.

Definition blank_text (text : string) : bool :=
  blank_from false (list_ascii_of_string text).

Definition is_line_token (t : token) : bool :=
  match t with T_LINENUM _ => true | _ => false end.

Definition is_line_expression (e : expression) : bool :=
  match e with E_LINENUM _ => true | _ => false end.

(** A word of the source text: a capital letter followed by capital
    letters and digits. *)
Definition capital_word (s : string) : bool :=
  match list_ascii_of_string s with
  | [] => false
  | c :: cs => isLetter c && forallb isLetterOrNumber cs
  end.

(** A name the lexer reads as one identifier: a word that is no
    mnemonic. *)
Definition label_name (name : string) : bool :=
  capital_word name &&
  match indexOf INSTRUCTIONS name with
  | None => true
  | Some _ => false
  end.

(** [n] lines holding the instruction [HLT]. *)
Fixpoint hlt_lines (n : nat) : string :=
  match n with
  | O => ""
  | S n' => "HLT" +:+ nl +:+ hlt_lines n'
  end.

(** [n] instruction lines, then a label declaration, then a
    one-operand instruction applied to the label: label and
    instruction sit at address [n]. *)
Definition label_program (name mnemonic : string) (n : nat) : string :=
  hlt_lines n +:+ name +:+ ":" +:+ nl +:+ mnemonic +:+ " " +:+ name.

(** [m] lines holding a jump to [name]. *)
Fixpoint jmp_lines (name : string) (m : nat) : string :=
  match m with
  | O => ""
  | S m' => "JMP " +:+ name +:+ nl +:+ jmp_lines name m'
  end.

(** [m] jumps to a label, then a declare-value directive naming it,
    then [n] instruction lines, and only then the declaration of the
    label: [m + 1] forward references. *)
Definition forward_program (name : string) (m n : nat) : string :=
  jmp_lines name m +:+ "#DV " +:+ name +:+ nl +:+ hlt_lines n +:+ name +:+ ":".

(** The tokens and expressions of [hlt_lines n] when the line before
    them is [line]. *)
Fixpoint hlt_tokens (n : nat) (line : Z) : list token :=
  match n with
  | O => []
  | S n' => T_INSTRUCTION 10 :: T_LINENUM (line + 1) :: hlt_tokens n' (line + 1)
  end.

Fixpoint hlt_expressions (n : nat) (line : Z) : list expression :=
  match n with
  | O => []
  | S n' => E_INSTRUCTION 10 [] :: E_LINENUM (line + 1) :: hlt_expressions n' (line + 1)
  end.




(** The state the first pass reaches on a source text. *)
Definition first_pass_of (text : string) : outcome state :=
  let* tokens := lexer text in
  let* expressions := parser tokens in
  first_pass expressions initial_state.

(** Every directive of the sequence is directly followed by a line
    marker. *)
Fixpoint directive_then_line (expressions : list expression) : bool :=
  match expressions with
  | [] => true
  | E_DIRECTIVE _ _ :: following =>
      match following with
      | E_LINENUM _ :: _ => directive_then_line following
      | _ => false
      end
  | _ :: following => directive_then_line following
  end.

(** An exception raised by the host itself, as opposed to an [Error]
    built by the assembler with a line number in front. *)
Definition host_error (ex : js_error) : bool :=
  match ex with
  | JsTypeError | JsSyntaxError | JsReferenceError _ => true
  | _ => false
  end.


(** * Further properties of the three stages *)

(** ** Vocabulary *)

(** The number of newline characters of a text. *)
Fixpoint count_newlines (s : list ascii) : nat :=
  match s with
  | [] => O
  | c :: rest => if Ascii.eqb c newline then S (count_newlines rest)
                 else count_newlines rest
  end.

(** The numbers carried by the line markers of a token sequence, in order. *)
Fixpoint line_numbers (tokens : list token) : list Z :=
  match tokens with
  | [] => []
  | T_LINENUM line :: rest => line :: line_numbers rest
  | _ :: rest => line_numbers rest
  end.

(** What a token other than a line marker looks like when the lexer
    made it. *)
Definition lexed_token (t : token) : bool :=
  match t with
  | T_IDENT name => label_name name
  | T_NUMBER value => 0 <=? value
  | T_ARITH_SYMBOL char => includes SYMBOLS char
  | T_LABEL_MAKER => true
  | T_INSTRUCTION index => (1 <=? index) && (index <=? 10)
  | T_DIRECTIVE index => (0 <=? index) && (index <=? 2)
  | T_LINENUM _ => false
  | T_COMMA => true
  end.

Definition not_newline (c : ascii) : bool := negb (Ascii.eqb c newline).

(** [k] consecutive line numbers from [line] on. *)
Fixpoint lines_from (line : Z) (k : nat) : list Z :=
  match k with
  | O => []
  | S k' => line :: lines_from (line + 1) k'
  end.

(** A token as the lexer makes it: a line marker or a [lexed_token]. *)
Definition token_of_lexer (t : token) : bool := is_line_token t || lexed_token t.

(** The argument count the parser checked: as many groups as the
    table of the mnemonic or directive says. *)
Definition arity_ok (e : expression) : bool :=
  match e with
  | E_INSTRUCTION index args =>
      negb (count_differs (table_get INSTRUCTION_ARG_LENGTHS index) args)
  | E_DIRECTIVE index args =>
      negb (count_differs (table_get DIRECTIVE_ARG_LENGTHS index) args)
  | _ => true
  end.

(** Every deferred entry of the state names a cell of its image. *)
Definition entries_inside (st : state) : bool :=
  forallb (fun entry : Z * option (list token) =>
             (0 <=? fst entry) && (fst entry <? Z.of_nat (length (memory st))))
          (valuesToRecalculate st).

(** What one step of the first pass keeps: the image does not shrink,
    and deferred entries inside the image stay inside. *)
Definition pass_keeps (st st' : state) : Prop :=
  (length (memory st) <= length (memory st'))%nat /\
  (entries_inside st = true -> entries_inside st' = true).

(** A run of decimal digits of the source text, and the number
    [parseInt] reads from it. *)
Definition decimal_text (digits : string) : bool :=
  match list_ascii_of_string digits with
  | [] => false
  | cs => forallb (includes NUMBERS) cs
  end.

Definition number_of (digits : string) : Z := parseInt (list_ascii_of_string digits).

(** A label declared on the first line and again [n] instruction
    lines further down, followed by a declare-value of the label. *)
Definition redeclared_program (name : string) (n : nat) : string :=
  name +:+ ":" +:+ nl +:+ hlt_lines n +:+ name +:+ ":" +:+ nl +:+ "#DV " +:+ name.

(** The number of digits [toString] writes for [n], and the number
    written by the digits of [a] directly followed by those of [b]. *)
Definition decimal_length (n : Z) : nat :=
  String.length (NilZero.string_of_int (Z.to_int n)).

Definition glued (a b : Z) : Z := a * 10 ^ Z.of_nat (decimal_length b) + b.

(** What may follow a comment: the end of the text or a newline. *)
Definition ends_comment (after : string) : bool :=
  match after with
  | EmptyString => true
  | String c _ => Ascii.eqb c newline
  end.

(** The commas of a token sequence, and whether tokens stand behind
    the last comma (or, without comma, whether there are tokens at
    all). *)
Fixpoint count_commas (tokens : list token) : nat :=
  match tokens with
  | [] => O
  | T_COMMA :: rest => S (count_commas rest)
  | _ :: rest => count_commas rest
  end.

Definition open_group (tokens : list token) : bool :=
  match last tokens with
  | None => false
  | Some T_COMMA => false
  | Some _ => true
  end.
(** ** Worked runs *)

Example lexer_take_hlt :
  lexer ("TAKE 5" +:+ nl +:+ "HLT") =
  Ok [T_LINENUM 1; T_INSTRUCTION 1; T_NUMBER 5; T_LINENUM 2; T_INSTRUCTION 10;
      T_LINENUM 3].
Proof. vm_compute. reflexivity. Qed.

Example assemble_take_hlt (host_binds : string -> bool) :
  assemble host_binds ("TAKE 5" +:+ nl +:+ "HLT") =
  Ok (1005 :: 10000 :: replicate 998 0).
Proof. vm_compute. reflexivity. Qed.

Example unknown_directive (host_binds : string -> bool) :
  assemble host_binds "#FOO 1" = Throw (NoSuchDirective "FOO" 1).
Proof. vm_compute. reflexivity. Qed.

Example js_eval_arith (host_binds : string -> bool) :
  js_eval host_binds (<["A" := 7]> ∅) "2*(A+3)-1" = Ok (JNum 19).
Proof. vm_compute. reflexivity. Qed.

(** ** Characters and words *)

Lemma letter_facts (c : ascii) :
  isLetter c = true ->
  is_ascii7 c = true /\ toUpperCase c = c /\ Ascii.eqb c " " = false /\
  Ascii.eqb c newline = false /\ includes NUMBERS c = false /\
  includes SYMBOLS c = false /\ isLetterOrNumber c = true.
Proof.
  destruct c as [b0 b1 b2 b3 b4 b5 b6 b7].
  destruct b0, b1, b2, b3, b4, b5, b6, b7; vm_compute; intros H;
    try discriminate H; repeat split.
Qed.

Lemma collectWhile_output_app (p : ascii -> bool) (cs : list ascii) (d : ascii)
  (rest : list ascii) :
  forallb p cs = true -> p d = false ->
  collectWhile_output p (cs ++ d :: rest) = cs.
Proof.
  intros Hcs Hd. induction cs as [|c cs IH]; simpl.
  - rewrite Hd. reflexivity.
  - simpl in Hcs. apply andb_true_iff in Hcs as [Hc Hcs].
    rewrite Hc, IH by assumption. reflexivity.
Qed.

Lemma collectWhile_cursor_app (p : ascii -> bool) (cs : list ascii) (d : ascii)
  (rest : list ascii) :
  forallb p cs = true -> p d = false ->
  collectWhile_cursor p (cs ++ d :: rest) = d :: rest.
Proof.
  intros Hcs Hd. induction cs as [|c cs IH]; simpl.
  - rewrite Hd. reflexivity.
  - simpl in Hcs. apply andb_true_iff in Hcs as [Hc Hcs].
    rewrite Hc. apply IH. assumption.
Qed.

Lemma collectWhile_output_all (p : ascii -> bool) (cs : list ascii) :
  forallb p cs = true -> collectWhile_output p cs = cs.
Proof.
  induction cs as [|c cs IH]; simpl; intros H; [reflexivity|].
  apply andb_true_iff in H as [Hc Hcs]. rewrite Hc, IH by assumption. reflexivity.
Qed.

Lemma collectWhile_cursor_all (p : ascii -> bool) (cs : list ascii) :
  forallb p cs = true -> collectWhile_cursor p cs = [].
Proof.
  induction cs as [|c cs IH]; simpl; intros H; [reflexivity|].
  apply andb_true_iff in H as [Hc Hcs]. rewrite Hc. apply IH. assumption.
Qed.

Lemma collectWhile_cursor_length (p : ascii -> bool) (s : list ascii) :
  (length (collectWhile_cursor p s) <= length s)%nat.
Proof.
  induction s as [|c s IH]; cbn [collectWhile_cursor]; [lia|].
  destruct (p c); cbn [length]; lia.
Qed.

Lemma list_ascii_of_string_app (a b : string) :
  list_ascii_of_string (a +:+ b) = list_ascii_of_string a ++ list_ascii_of_string b.
Proof.
  induction a as [|c a IH]; [reflexivity|].
  change (c :: list_ascii_of_string (a +:+ b) =
          c :: list_ascii_of_string a ++ list_ascii_of_string b).
  rewrite IH. reflexivity.
Qed.

Lemma append_empty_r (s : string) : s +:+ "" = s.
Proof.
  induction s as [|c s IH]; [reflexivity|].
  change (String c (s +:+ "") = String c s). rewrite IH. reflexivity.
Qed.

Lemma capital_word_inv (s : string) :
  capital_word s = true ->
  exists c cs, list_ascii_of_string s = c :: cs /\ isLetter c = true /\
               forallb isLetterOrNumber cs = true /\
               string_of_list_ascii (c :: cs) = s.
Proof.
  unfold capital_word. intros H.
  destruct (list_ascii_of_string s) as [|c cs] eqn:Hl; [discriminate|].
  apply andb_true_iff in H as [Hc Hcs].
  exists c, cs. repeat split; try assumption.
  rewrite <- Hl. apply string_of_list_ascii_of_string.
Qed.

Lemma label_name_inv (name : string) :
  label_name name = true ->
  capital_word name = true /\ indexOf INSTRUCTIONS name = None.
Proof.
  unfold label_name. intros H. apply andb_true_iff in H as [Hw Hidx].
  split; [assumption|].
  destruct (indexOf INSTRUCTIONS name); [discriminate | reflexivity].
Qed.

(** A word of capital letters and digits becomes a mnemonic or an
    identifier token, as [INSTRUCTIONS.indexOf] decides. *)
Lemma lex_loop_word (c : ascii) (cs : list ascii) (d : ascii)
  (rest : list ascii) (line : Z) (out : list token) :
  isLetter c = true -> forallb isLetterOrNumber cs = true ->
  isLetterOrNumber d = false ->
  lex_loop (c :: cs ++ d :: rest) line out =
  lex_loop (d :: rest) line
    (out ++ [match indexOf INSTRUCTIONS (string_of_list_ascii (c :: cs)) with
             | None => T_IDENT (string_of_list_ascii (c :: cs))
             | Some instructionIndex => T_INSTRUCTION instructionIndex
             end]).
Proof.
  intros Hc Hcs Hd.
  destruct (letter_facts c Hc) as (H7 & Hup & Hsp & Hnl & Hnum & Hsym & _).
  cbn [lex_loop].
  rewrite H7, Hup, Hsp, Hnl, Hnum, Hsym, Hc. cbn [negb].
  rewrite collectWhile_output_app, collectWhile_cursor_app by assumption.
  destruct (indexOf INSTRUCTIONS _); reflexivity.
Qed.

Lemma lex_loop_capital_word (s : string) (d : ascii) (rest : list ascii)
  (line : Z) (out : list token) :
  capital_word s = true -> isLetterOrNumber d = false ->
  lex_loop (list_ascii_of_string s ++ d :: rest) line out =
  lex_loop (d :: rest) line
    (out ++ [match indexOf INSTRUCTIONS s with
             | None => T_IDENT s
             | Some instructionIndex => T_INSTRUCTION instructionIndex
             end]).
Proof.
  intros Hw Hd. destruct (capital_word_inv s Hw) as (c & cs & Hl & Hc & Hcs & Hs).
  rewrite Hl. change ((c :: cs) ++ d :: rest) with (c :: cs ++ d :: rest).
  rewrite lex_loop_word by assumption. rewrite Hs. reflexivity.
Qed.

(** ** Arithmetic of the model *)

Lemma bind_throw {A B : Type} (m : outcome A) (k : A -> outcome B) (ex : js_error) :
  bind m k = Throw ex ->
  m = Throw ex \/ exists a, m = Ok a /\ k a = Throw ex.
Proof.
  destruct m; cbn [bind]; intros H;
    [right; eauto | left; injection H as ->; reflexivity | discriminate].
Qed.

Lemma exact_small (z : Z) : Z.abs z < MAX_SAFE -> exact z = Ok z.
Proof. intros H. unfold exact. destruct (Z.ltb_spec (Z.abs z) MAX_SAFE); [reflexivity|lia]. Qed.

Lemma exact_no_throw (z : Z) (ex : js_error) : exact z <> Throw ex.
Proof. unfold exact. destruct (Z.abs z <? MAX_SAFE); discriminate. Qed.

Lemma wrap32_small (z : Z) : - 2 ^ 31 <= z < 2 ^ 31 -> wrap32 z = z.
Proof. intros H. unfold wrap32. rewrite Z.mod_small by lia. lia. Qed.

Lemma js_or_small (a b : Z) :
  - 2 ^ 31 <= a < 2 ^ 31 -> - 2 ^ 31 <= b < 2 ^ 31 -> js_or a b = Z.lor a b.
Proof. intros Ha Hb. unfold js_or. rewrite !wrap32_small by assumption. reflexivity. Qed.

(** ** Writing a word *)

(** [emit] below the end of the array overwrites one cell. *)
Lemma emit_inside (number : Z) (st : state) :
  0 <= org st < Z.of_nat (length (memory st)) ->
  emit number st =
  Ok {| memory := <[Z.to_nat (org st) := number]> (memory st);
        valuesToRecalculate := valuesToRecalculate st;
        labels := labels st;
        org := org st + 1;
        lineNumber := lineNumber st |}.
Proof.
  intros H. unfold emit.
  destruct (Z.ltb_spec (Z.of_nat (length (memory st))) (org st)); [lia|].
  destruct (Z.ltb_spec (org st) 0); [lia|].
  destruct (Z.eqb_spec (org st) (Z.of_nat (length (memory st)))); [lia|].
  reflexivity.
Qed.

(** [emit] at the end of the array appends a cell. *)
Lemma emit_at_length (number : Z) (st : state) :
  org st = Z.of_nat (length (memory st)) ->
  emit number st =
  Ok {| memory := memory st ++ [number];
        valuesToRecalculate := valuesToRecalculate st;
        labels := labels st;
        org := org st + 1;
        lineNumber := lineNumber st |}.
Proof.
  intros H. unfold emit.
  destruct (Z.ltb_spec (Z.of_nat (length (memory st))) (org st)); [lia|].
  destruct (Z.ltb_spec (org st) 0); [lia|].
  destruct (Z.eqb_spec (org st) (Z.of_nat (length (memory st)))); [|lia].
  reflexivity.
Qed.

(** One more run of an instruction expression: its word is written at
    the origin, which moves on by one. *)
Lemma emitExpression_instruction (index : Z) (args : list (list token))
  (following : list expression) (st : state) :
  Z.abs (1000 * index) < MAX_SAFE ->
  0 <= org st <= Z.of_nat (length (memory st)) ->
  exists st',
    emitExpression (E_INSTRUCTION index args :: following) st = Ok st' /\
    org st' = org st + 1 /\
    0 <= org st' <= Z.of_nat (length (memory st')) /\
    memory st' !! Z.to_nat (org st) = Some (1000 * index) /\
    (forall j : nat, Z.of_nat j < org st -> memory st' !! j = memory st !! j) /\
    labels st' = labels st.
Proof.
  intros Hk Ho. cbn [emitExpression assembleInstruction].
  rewrite exact_small by assumption. cbn [bind].
  assert (Hgen : forall s : state,
             memory s = memory st -> org s = org st -> labels s = labels st ->
             exists st',
               emit (1000 * index) s = Ok st' /\
               org st' = org st + 1 /\
               0 <= org st' <= Z.of_nat (length (memory st')) /\
               memory st' !! Z.to_nat (org st) = Some (1000 * index) /\
               (forall j : nat, Z.of_nat j < org st ->
                                memory st' !! j = memory st !! j) /\
               labels st' = labels st).
  { intros s Hm Hor Hl.
    destruct (Z.eq_dec (org st) (Z.of_nat (length (memory st)))) as [He|Hne].
    - rewrite emit_at_length by congruence. eexists. split; [reflexivity|].
      cbn [org memory labels]. rewrite Hm, Hor, Hl, length_app. cbn [length].
      repeat split; try lia.
      + rewrite He, Nat2Z.id. apply list_lookup_middle; reflexivity.
      + intros j Hj. apply lookup_app_l. lia.
    - rewrite emit_inside by (rewrite Hm, Hor; lia). eexists. split; [reflexivity|].
      cbn [org memory labels]. rewrite Hm, Hor, Hl, length_insert.
      repeat split; try lia.
      + apply list_lookup_insert_eq. lia.
      + intros j Hj. apply list_lookup_insert_ne. lia. }
  destruct (args !! 0%nat); apply Hgen; reflexivity.
Qed.

(** ** Lines of instructions without operand *)

Lemma lex_loop_hlt_lines (n : nat) :
  forall (rest : list ascii) (line : Z) (out : list token),
  lex_loop (list_ascii_of_string (hlt_lines n) ++ rest) line out =
  lex_loop rest (line + Z.of_nat n) (out ++ hlt_tokens n line).
Proof.
  induction n as [|n IH]; intros rest line out.
  - cbn [hlt_lines hlt_tokens list_ascii_of_string app].
    rewrite Z.add_0_r, app_nil_r. reflexivity.
  - cbn [hlt_lines hlt_tokens].
    rewrite !list_ascii_of_string_app, <- !app_assoc.
    change (list_ascii_of_string nl ++ ?l) with (newline :: l).
    rewrite lex_loop_capital_word by reflexivity.
    change (indexOf INSTRUCTIONS "HLT") with (Some 10).
    change (lex_loop (newline :: ?l) ?ln ?o)
      with (lex_loop l (ln + 1) (o ++ [T_LINENUM (ln + 1)])).
    rewrite IH, <- !app_assoc. f_equal. lia.
Qed.

Lemma parse_loop_hlt_tokens (n : nat) :
  forall (rest : list token) (line : Z) (out : list expression),
  parse_loop (hlt_tokens n line ++ rest) line out =
  parse_loop rest (line + Z.of_nat n) (out ++ hlt_expressions n line).
Proof.
  induction n as [|n IH]; intros rest line out.
  - cbn [hlt_tokens hlt_expressions app]. rewrite Z.add_0_r, app_nil_r. reflexivity.
  - cbn [hlt_tokens hlt_expressions].
    change (parse_loop ((T_INSTRUCTION 10 :: T_LINENUM (line + 1) :: ?l) ++ rest)
              line out)
      with (parse_loop (l ++ rest) (line + 1)
              ((out ++ [E_INSTRUCTION 10 []]) ++ [E_LINENUM (line + 1)])).
    rewrite IH, <- !app_assoc. f_equal. lia.
Qed.

(** Instructions without operand, emitted from an origin that is not
    beyond the end of the image: each one is written, none is
    rejected, the image grows when the origin reaches its end, and the
    cells below the first origin, the relocation list and the labels
    stay as they are. *)
Lemma first_pass_hlt_expressions (n : nat) :
  forall (rest : list expression) (line : Z) (st : state),
  0 <= org st <= Z.of_nat (length (memory st)) ->
  exists st',
    first_pass (hlt_expressions n line ++ rest) st = first_pass rest st' /\
    org st' = org st + Z.of_nat n /\
    0 <= org st' <= Z.of_nat (length (memory st')) /\
    Z.of_nat (length (memory st')) =
      Z.max (Z.of_nat (length (memory st))) (org st + Z.of_nat n) /\
    (forall j : nat, Z.of_nat j < org st -> memory st' !! j = memory st !! j) /\
    valuesToRecalculate st' = valuesToRecalculate st /\
    labels st' = labels st.
Proof.
  induction n as [|n IH]; intros rest line st Ho.
  - exists st. cbn [hlt_expressions app]. repeat split; lia.
  - cbn [hlt_expressions app first_pass emitExpression skips_next bind
           assembleInstruction lookup list_lookup].
    change (exact (1000 * 10)) with (Ok (A := Z) 10000). cbn [bind].
    destruct (Z.eq_dec (org st) (Z.of_nat (length (memory st)))) as [He|Hne].
    + rewrite emit_at_length by exact He. cbn [bind].
      match goal with
      | |- context [first_pass (hlt_expressions n _ ++ rest) ?s] =>
          destruct (IH rest (line + 1) s)
            as (st' & Hf & Horg & Hin & Hlen & Hm & Hv & Hl)
      end.
      { cbn [org memory]. rewrite length_app. cbn [length]. lia. }
      exists st'. cbn [org memory valuesToRecalculate labels] in *.
      rewrite length_app in Hlen. cbn [length] in Hlen.
      repeat split; try assumption; try lia.
      intros j Hj. rewrite Hm by lia. apply lookup_app_l. lia.
    + rewrite emit_inside by lia. cbn [bind].
      match goal with
      | |- context [first_pass (hlt_expressions n _ ++ rest) ?s] =>
          destruct (IH rest (line + 1) s)
            as (st' & Hf & Horg & Hin & Hlen & Hm & Hv & Hl)
      end.
      { cbn [org memory]. rewrite length_insert. lia. }
      exists st'. cbn [org memory valuesToRecalculate labels] in *.
      rewrite length_insert in Hlen.
      repeat split; try assumption; try lia.
      intros j Hj. rewrite Hm by lia. apply list_lookup_insert_ne. lia.
Qed.

(** ** The repeat directive *)

(** C1, at the source text [#TIMES 3] followed on the next line by
    [HLT]: the run succeeds and the image holds one HLT word (10000) at
    address 0 and zero everywhere else, not three copies.  The parser
    puts the marker of line 2 between the directive and the
    instruction, and the directive repeats that marker. *)
Theorem times_source_writes_one_word (host_binds : string -> bool) :
  parser [T_LINENUM 1; T_DIRECTIVE 1; T_NUMBER 3; T_LINENUM 2; T_INSTRUCTION 10;
          T_LINENUM 3] =
    Ok [E_LINENUM 1; E_DIRECTIVE D_TIMES [[T_NUMBER 3]]; E_LINENUM 2;
        E_INSTRUCTION 10 []; E_LINENUM 3] /\
  assemble host_binds ("#TIMES 3" +:+ nl +:+ "HLT") = Ok (10000 :: replicate 999 0).
Proof. split; vm_compute; reflexivity. Qed.

Lemma collectCommaSeparated_cursor_shape (tokenStream : list token) :
  (collectCommaSeparated_cursor tokenStream = [] \/
   exists line rest, collectCommaSeparated_cursor tokenStream = T_LINENUM line :: rest) /\
  (length (collectCommaSeparated_cursor tokenStream) <= length tokenStream)%nat.
Proof.
  induction tokenStream as [|t ts [IH1 IH2]]; cbn [collectCommaSeparated_cursor].
  - split; [left; reflexivity | lia].
  - destruct t; cbn [length]; try (split; [exact IH1 | lia]).
    split; [right; eauto | lia].
Qed.

Lemma parse_loop_directive_then_line (fuel : nat) :
  forall (tokenStream : list token) (line : Z) (out exprs : list expression),
  (length tokenStream <= fuel)%nat ->
  parse_loop tokenStream line out = Ok exprs ->
  exists tail, exprs = out ++ tail /\ directive_then_line tail = true.
Proof.
  induction fuel as [|fuel IH]; intros ts line out exprs Hlen Hp.
  - destruct ts; [|cbn [length] in Hlen; lia].
    injection Hp as <-. exists []. rewrite app_nil_r. split; reflexivity.
  - destruct ts as [|t ts].
    { injection Hp as <-. exists []. rewrite app_nil_r. split; reflexivity. }
    cbn [length] in Hlen. cbn [parse_loop] in Hp.
    destruct t; try discriminate Hp.
    + destruct ts as [|[] ts']; try discriminate Hp.
      cbn [length] in Hlen.
      destruct (IH ts' line _ exprs ltac:(lia) Hp) as (tail & -> & Hd).
      exists (E_LABEL name :: tail). rewrite <- app_assoc. split; [reflexivity|exact Hd].
    + destruct (collectCommaSeparated_cursor_shape ts) as [[Hc|(l & rest & Hc)] Hle];
        rewrite Hc in Hp; [discriminate Hp|].
      destruct (count_differs _ _); [discriminate Hp|].
      set (args := collectCommaSeparated_output ts [] []) in *.
      cbn [parse_loop] in Hp. rewrite Hc in Hle. cbn [length] in Hle.
      destruct (IH rest l _ exprs ltac:(lia) Hp) as (tail & -> & Hd).
      exists (E_INSTRUCTION index args :: E_LINENUM l :: tail).
      rewrite <- !app_assoc. split; [reflexivity|exact Hd].
    + destruct (collectCommaSeparated_cursor_shape ts) as [[Hc|(l & rest & Hc)] Hle];
        rewrite Hc in Hp; [discriminate Hp|].
      destruct (count_differs _ _); [discriminate Hp|].
      set (args := collectCommaSeparated_output ts [] []) in *.
      cbn [parse_loop] in Hp. rewrite Hc in Hle. cbn [length] in Hle.
      destruct (IH rest l _ exprs ltac:(lia) Hp) as (tail & -> & Hd).
      exists (E_DIRECTIVE index args :: E_LINENUM l :: tail).
      rewrite <- !app_assoc. split; [reflexivity|exact Hd].
    + destruct (IH ts line0 _ exprs ltac:(lia) Hp) as (tail & -> & Hd).
      exists (E_LINENUM line0 :: tail). rewrite <- app_assoc.
      split; [reflexivity|exact Hd].
Qed.

(** X5: In every expression sequence the parser returns, each directive is
    directly followed by a line marker: [collectCommaSeparated] stops
    on the marker and leaves it to the main loop.  The expression a
    repeat directive repeats is therefore never an instruction. *)
Lemma parser_directive_then_line (tokenStream : list token)
  (expressions : list expression) :
  parser tokenStream = Ok expressions -> directive_then_line expressions = true.
Proof.
  intros Hp.
  destruct (parse_loop_directive_then_line (length tokenStream) tokenStream (-1) []
              expressions (le_n _) Hp) as (tail & -> & Hd).
  exact Hd.
Qed.

Lemma parser_directive_then_line_witness :
  directive_then_line [E_LINENUM 1; E_DIRECTIVE 1 [[T_NUMBER 3]]; E_LINENUM 2;
                       E_INSTRUCTION 10 []; E_LINENUM 3] = true.
Proof.
  apply (parser_directive_then_line
           [T_LINENUM 1; T_DIRECTIVE 1; T_NUMBER 3; T_LINENUM 2; T_INSTRUCTION 10;
            T_LINENUM 3]).
  reflexivity.
Defined.

Lemma repeat_times_instruction (index : Z) (args : list (list token))
  (following : list expression) (count : nat) :
  Z.abs (1000 * index) < MAX_SAFE ->
  forall st : state,
  0 <= org st <= Z.of_nat (length (memory st)) ->
  exists st',
    repeat_times count (emitExpression (E_INSTRUCTION index args :: following)) st
      = Ok st' /\
    org st' = org st + Z.of_nat count /\
    0 <= org st' <= Z.of_nat (length (memory st')) /\
    (forall i : nat, org st <= Z.of_nat i < org st + Z.of_nat count ->
                     memory st' !! i = Some (1000 * index)) /\
    (forall j : nat, Z.of_nat j < org st -> memory st' !! j = memory st !! j).
Proof.
  intros Hk. induction count as [|count IH]; intros st Ho.
  - exists st. cbn [repeat_times]. repeat split; lia.
  - cbn [repeat_times].
    destruct (emitExpression_instruction index args following st Hk Ho)
      as (st1 & He & Horg1 & Hin1 & Hcell & Hlow1 & _).
    rewrite He. cbn [bind].
    destruct (IH st1 Hin1) as (st' & Hr & Horg & Hin & Hcells & Hlow).
    exists st'. repeat split; try assumption; try lia.
    + intros i Hi. destruct (Z.eq_dec (Z.of_nat i) (org st)) as [Heq|Hneq].
      * rewrite Hlow by lia. rewrite <- Hcell. f_equal. lia.
      * apply Hcells. lia.
    + intros j Hj. rewrite Hlow by lia. apply Hlow1. exact Hj.
Qed.

(** X12: When the expression that follows a repeat directive with a literal
    count is an instruction, [emitExpression] writes that many
    consecutive copies of the instruction's base word and moves the
    origin on by the count. *)
Lemma times_repeats_following_instruction (count : nat) (index : Z)
  (args : list (list token)) (following : list expression) (st : state) :
  Z.abs (1000 * index) < MAX_SAFE ->
  0 <= org st <= Z.of_nat (length (memory st)) ->
  exists st',
    emitExpression (E_DIRECTIVE D_TIMES [[T_NUMBER (Z.of_nat count)]]
                      :: E_INSTRUCTION index args :: following) st = Ok st' /\
    org st' = org st + Z.of_nat count /\
    (forall i : nat, org st <= Z.of_nat i < org st + Z.of_nat count ->
                     memory st' !! i = Some (1000 * index)) /\
    (forall j : nat, Z.of_nat j < org st -> memory st' !! j = memory st !! j).
Proof.
  intros Hk Ho.
  destruct (repeat_times_instruction index args following count Hk st Ho)
    as (st' & Hr & Horg & _ & Hcells & Hlow).
  exists st'. split; [|repeat split; assumption].
  cbn [emitExpression lookup list_lookup tokenStreamAsNumber bind].
  change (D_TIMES =? D_ORG) with false. change (D_TIMES =? D_TIMES) with true.
  cbn iota. rewrite Nat2Z.id. exact Hr.
Qed.

Lemma times_repeats_following_instruction_witness :
  exists st',
    emitExpression [E_DIRECTIVE D_TIMES [[T_NUMBER (Z.of_nat 3)]];
                    E_INSTRUCTION 10 []] initial_state = Ok st' /\
    org st' = org initial_state + Z.of_nat 3 /\
    (forall i : nat, org initial_state <= Z.of_nat i < org initial_state + Z.of_nat 3 ->
                     memory st' !! i = Some (1000 * 10)) /\
    (forall j : nat, Z.of_nat j < org initial_state ->
                     memory st' !! j = memory initial_state !! j).
Proof.
  apply (times_repeats_following_instruction 3 10 [] [] initial_state).
  - reflexivity.
  - cbn [initial_state org memory]. rewrite length_replicate. lia.
Defined.

(** ** Capacity *)

(** C2, at the source text [#ORG 1000] followed by [HLT]: no capacity
    error is raised; the HLT word is written at index 1000, one past
    the last of the 1000 cells. *)
Theorem write_at_index_1000_accepted (host_binds : string -> bool) :
  assemble host_binds ("#ORG 1000" +:+ nl +:+ "HLT") =
  Ok (replicate 1000 0 ++ [10000]).
Proof. vm_compute. reflexivity. Qed.

(** C4, at the same source text: the run succeeds and returns an image
    of 1001 cells. *)
Theorem image_length_1001 (host_binds : string -> bool) :
  exists image, assemble host_binds ("#ORG 1000" +:+ nl +:+ "HLT") = Ok image /\
                length image = 1001%nat.
Proof.
  exists (replicate 1000 0 ++ [10000]). split.
  - vm_compute. reflexivity.
  - rewrite length_app, length_replicate. reflexivity.
Qed.

Example emit_guard_fires (host_binds : string -> bool) :
  assemble host_binds ("#ORG 1001" +:+ nl +:+ "HLT") =
  Throw (ErrorWhileAssemblingLine 2 EmittingOutsideOfMemory).
Proof. vm_compute. reflexivity. Qed.

(** X16: A program of [n] instruction lines assembles for every [n]: the
    guard of [emit] never rejects a write that follows another write,
    and beyond 1000 lines the image grows with the program. *)
Lemma sequential_writes_never_rejected (host_binds : string -> bool) (n : nat) :
  exists image,
    assemble host_binds (hlt_lines n) = Ok image /\
    Z.of_nat (length image) = Z.max 1000 (Z.of_nat n).
Proof.
  destruct (first_pass_hlt_expressions n [E_LINENUM (1 + Z.of_nat n + 1)] 1
              {| memory := replicate 1000 0; valuesToRecalculate := [];
                 labels := ∅; org := 0; lineNumber := 1 |})
    as (st' & Hf & _ & _ & Hlen & _ & Hv & _).
  { cbn [org memory]. rewrite length_replicate. lia. }
  cbn [valuesToRecalculate memory org] in Hv, Hlen.
  exists (memory st'). split; [|rewrite Hlen, length_replicate; lia].
  unfold assemble, lexer.
  rewrite lex_loop_hlt_lines.
  change (lex_loop [newline] ?ln ?o) with (Ok (o ++ [T_LINENUM (ln + 1)])).
  cbn [bind]. unfold parser.
  rewrite <- app_assoc.
  change (parse_loop ([T_LINENUM 1] ++ ?l) (-1) [])
    with (parse_loop l 1 ([] ++ [E_LINENUM 1])).
  rewrite parse_loop_hlt_tokens. cbn [parse_loop bind app]. unfold assembler.
  cbn [first_pass app emitExpression skips_next bind initial_state memory
         valuesToRecalculate labels org].
  rewrite Hf.
  cbn [first_pass emitExpression skips_next bind valuesToRecalculate memory labels].
  rewrite Hv. reflexivity.
Qed.

(** ** Letter case *)

(** C3, at the text [hlt]: the lexer yields three one-letter
    identifiers, while on the upper-cased text [HLT] it yields the
    mnemonic token.  [peek] upper-cases the one character it returns,
    [collectWhile] tests and collects the raw characters, so a small
    letter ends every run it starts. *)
Theorem lexer_lowercase_differs :
  text_toUpperCase "hlt" = Ok "HLT" /\
  lexer "hlt" = Ok [T_LINENUM 1; T_IDENT "H"; T_IDENT "L"; T_IDENT "T"; T_LINENUM 2] /\
  lexer "HLT" = Ok [T_LINENUM 1; T_INSTRUCTION 10; T_LINENUM 2] /\
  lexer "hlt" <> lexer "HLT".
Proof. repeat split; try (vm_compute; reflexivity). discriminate. Qed.

(** The same slip on a directive name and on an identifier: [#org] is
    read as a directive with the empty name, and [Loop] as the
    identifier [L] followed by three more. *)
Example lexer_lowercase_directive :
  lexer "#org 5" = Throw (NoSuchDirective "" 1) /\
  lexer "#ORG 5" = Ok [T_LINENUM 1; T_DIRECTIVE D_ORG; T_NUMBER 5; T_LINENUM 2] /\
  lexer "Loop:" = Ok [T_LINENUM 1; T_IDENT "L"; T_IDENT "O"; T_IDENT "O"; T_IDENT "P";
                      T_LABEL_MAKER; T_LINENUM 2].
Proof. repeat split; vm_compute; reflexivity. Qed.

Lemma toUpperCase_twice (c : ascii) :
  is_ascii7 c = true ->
  is_ascii7 (toUpperCase c) = true /\ toUpperCase (toUpperCase c) = toUpperCase c.
Proof.
  destruct c as [b0 b1 b2 b3 b4 b5 b6 b7].
  destruct b0, b1, b2, b3, b4, b5, b6, b7; vm_compute; intros H;
    try discriminate H; split; reflexivity.
Qed.

(** Upper-casing an upper-cased text changes nothing. *)
Lemma text_toUpperCase_twice (text upper : string) :
  text_toUpperCase text = Ok upper -> text_toUpperCase upper = Ok upper.
Proof.
  unfold text_toUpperCase. intros H.
  destruct (forallb is_ascii7 (list_ascii_of_string text)) eqn:H7; [|discriminate H].
  injection H as <-. rewrite list_ascii_of_string_of_list_ascii.
  assert (Hall : forallb is_ascii7 (map toUpperCase (list_ascii_of_string text)) = true /\
                 map toUpperCase (map toUpperCase (list_ascii_of_string text)) =
                 map toUpperCase (list_ascii_of_string text)).
  { induction (list_ascii_of_string text) as [|c cs IH]; [split; reflexivity|].
    cbn [forallb map] in *. apply andb_true_iff in H7 as [Hc Hcs].
    destruct (toUpperCase_twice c Hc) as [Hu Hi]. destruct (IH Hcs) as [IH1 IH2].
    rewrite Hu, IH1, Hi, IH2. split; reflexivity. }
  destruct Hall as [-> ->]. reflexivity.
Qed.

(** The entry point [runAssembly] upper-cases the whole text before
    it calls the lexer, so the text of the user interface reaches the
    lexer without small letters, and a text and its upper-cased form
    give the same run. *)
Lemma runAssembly_case_insensitive (host_binds : string -> bool)
  (text upper : string) :
  text_toUpperCase text = Ok upper ->
  runAssembly_tokens upper = runAssembly_tokens text /\
  runAssembly host_binds upper = runAssembly host_binds text.
Proof.
  intros H. unfold runAssembly_tokens, runAssembly.
  rewrite (text_toUpperCase_twice text upper H), H. split; reflexivity.
Qed.

Lemma runAssembly_case_insensitive_witness :
  runAssembly_tokens "HLT" = runAssembly_tokens "hlt" /\
  runAssembly bare_host "HLT" = runAssembly bare_host "hlt".
Proof. apply (runAssembly_case_insensitive bare_host "hlt" "HLT"). reflexivity. Defined.

Example runAssembly_lowercase (host_binds : string -> bool) :
  runAssembly host_binds ("take 5" +:+ nl +:+ "hlt") =
  Ok (1005 :: 10000 :: replicate 998 0).
Proof. vm_compute. reflexivity. Qed.

(** ** Labels as operands *)

Section Operands.

Variable host_binds : string -> bool.

(** [eval] of the text of a declared label is its recorded address. *)
Lemma js_eval_label (labels : gmap string Z) (name : string) (address : Z) :
  label_name name = true -> labels !! name = Some address ->
  js_eval host_binds labels name = Ok (JNum address).
Proof.
  intros Hn Hl. destruct (label_name_inv name Hn) as [Hw _].
  destruct (capital_word_inv name Hw) as (c & cs & Hs & Hc & Hcs & Hname).
  destruct (letter_facts c Hc) as (_ & _ & _ & _ & Hnum & _).
  unfold js_eval. rewrite Hs. cbn [js_tokenize].
  rewrite Hnum, Hc, collectWhile_output_all, collectWhile_cursor_all by assumption.
  rewrite Hname. cbn. unfold resolve. rewrite Hl. reflexivity.
Qed.

(** A table that holds one label in capitals captures no reference of
    the [with] block. *)
Lemma single_label_shadows_nothing (name : string) (address : Z) :
  capital_word name = true ->
  shadows_with_block (<[name := address]> ∅) = false.
Proof.
  intros Hw. unfold shadows_with_block, with_block_names. cbn [existsb].
  rewrite !lookup_insert_ne, !lookup_empty; [reflexivity | | | ];
    intros ->; discriminate Hw.
Qed.

(** The relocation of one operand that is a declared label. *)
Lemma relocate_label (labels : gmap string Z) (name : string) (address : Z)
  (cell : nat) (old : Z) (memory : list Z) :
  label_name name = true -> labels !! name = Some address ->
  shadows_with_block labels = false ->
  memory !! cell = Some old ->
  relocate host_binds labels [(Z.of_nat cell, Some [T_IDENT name])] memory =
  Ok (<[cell := js_or old (wrap32 address)]> memory).
Proof.
  intros Hn Hl Hs Hm. cbn [relocate join_contents contents_toString bind].
  rewrite Hs.
  rewrite append_empty_r, (js_eval_label labels name address Hn Hl). cbn [bind].
  unfold or_assign. destruct (Z.of_nat cell <? 0) eqn:Hneg; [apply Z.ltb_lt in Hneg; lia|].
  rewrite Nat2Z.id, Hm. reflexivity.
Qed.

End Operands.

(** The first pass over a label declaration followed by an
    instruction whose operand is that label, from any state whose
    origin lies inside the image. *)
Lemma first_pass_label_then_instruction (st : state) (name : string) (index : Z)
  (l1 l2 l3 : Z) :
  Z.abs (1000 * index) < MAX_SAFE ->
  0 <= org st < Z.of_nat (length (memory st)) ->
  first_pass [E_LINENUM l1; E_LABEL name; E_LINENUM l2;
              E_INSTRUCTION index [[T_IDENT name]]; E_LINENUM l3] st =
  Ok {| memory := <[Z.to_nat (org st) := 1000 * index]> (memory st);
        valuesToRecalculate :=
          valuesToRecalculate st ++ [(org st, Some [T_IDENT name])];
        labels := <[name := org st]> (labels st);
        org := org st + 1;
        lineNumber := l3 |}.
Proof.
  intros Hk Ho.
  cbn [first_pass emitExpression skips_next bind assembleInstruction lookup
         list_lookup].
  rewrite exact_small by assumption. cbn [bind].
  rewrite emit_inside by exact Ho. reflexivity.
Qed.

(** Instruction lines without operand that stay inside the image: the
    cells they fill hold the HLT word, every other cell is kept. *)
Lemma first_pass_hlt_cells (n : nat) :
  forall (rest : list expression) (line : Z) (st : state) (first : nat),
  org st = Z.of_nat first -> (first + n <= length (memory st))%nat ->
  exists st',
    first_pass (hlt_expressions n line ++ rest) st = first_pass rest st' /\
    org st' = Z.of_nat (first + n) /\
    length (memory st') = length (memory st) /\
    (forall j : nat, (first <= j < first + n)%nat -> memory st' !! j = Some 10000) /\
    (forall j : nat, ~ (first <= j < first + n)%nat ->
                     memory st' !! j = memory st !! j) /\
    valuesToRecalculate st' = valuesToRecalculate st /\
    labels st' = labels st.
Proof.
  induction n as [|n IH]; intros rest line st first Horg Hlen.
  - exists st. cbn [hlt_expressions app]. rewrite Nat.add_0_r.
    repeat split; try assumption; try reflexivity. intros j Hj. lia.
  - cbn [hlt_expressions app first_pass emitExpression skips_next bind
           assembleInstruction lookup list_lookup].
    change (exact (1000 * 10)) with (Ok (A := Z) 10000). cbn [bind].
    rewrite emit_inside by lia. cbn [bind]. rewrite Horg, Nat2Z.id.
    match goal with
    | |- context [first_pass (hlt_expressions n _ ++ rest) ?s] =>
        destruct (IH rest (line + 1) s (S first))
          as (st' & Hf & Horg' & Hlen' & Hin & Hout & Hv & Hl)
    end.
    { cbn [org]. lia. }
    { cbn [memory]. rewrite length_insert. lia. }
    cbn [org memory valuesToRecalculate labels] in Hlen', Hin, Hout, Hv, Hl.
    rewrite length_insert in Hlen'.
    exists st'. repeat split; try assumption.
    + rewrite Horg'. f_equal. lia.
    + intros j Hj. destruct (Nat.eq_dec j first) as [->|Hne].
      * rewrite Hout by lia. apply list_lookup_insert_eq. lia.
      * apply Hin. lia.
    + intros j Hj. rewrite Hout by lia. apply list_lookup_insert_ne. lia.
Qed.

Lemma lexer_label_program (name mnemonic : string) (index : Z) (n : nat) :
  label_name name = true -> capital_word mnemonic = true ->
  indexOf INSTRUCTIONS mnemonic = Some index ->
  lexer (label_program name mnemonic n) =
  Ok ([T_LINENUM 1] ++ hlt_tokens n 1 ++
      [T_IDENT name; T_LABEL_MAKER; T_LINENUM (1 + Z.of_nat n + 1);
       T_INSTRUCTION index; T_IDENT name; T_LINENUM (1 + Z.of_nat n + 1 + 1)]).
Proof.
  intros Hn Hw Hi. destruct (label_name_inv name Hn) as [Hnw Hni].
  unfold lexer, label_program.
  rewrite !list_ascii_of_string_app, <- !app_assoc.
  change (list_ascii_of_string ":" ++ ?l) with (":"%char :: l).
  change (list_ascii_of_string nl ++ ?l) with (newline :: l).
  change (list_ascii_of_string " " ++ ?l) with (" "%char :: l).
  rewrite lex_loop_hlt_lines.
  rewrite lex_loop_capital_word, Hni by (assumption || reflexivity).
  change (lex_loop (":"%char :: newline :: ?l) ?line ?out)
    with (lex_loop l (line + 1) ((out ++ [T_LABEL_MAKER]) ++ [T_LINENUM (line + 1)])).
  rewrite lex_loop_capital_word, Hi by (assumption || reflexivity).
  change (lex_loop (" "%char :: ?l) ?line ?out) with (lex_loop l line out).
  rewrite lex_loop_capital_word, Hni by (assumption || reflexivity).
  change (lex_loop [newline] ?ln ?o) with (Ok (o ++ [T_LINENUM (ln + 1)])).
  rewrite <- !app_assoc. reflexivity.
Qed.

Lemma parser_label_program (name : string) (index : Z) (n : nat) (l2 l3 : Z) :
  table_get INSTRUCTION_ARG_LENGTHS index = Some 1%nat ->
  parser ([T_LINENUM 1] ++ hlt_tokens n 1 ++
          [T_IDENT name; T_LABEL_MAKER; T_LINENUM l2;
           T_INSTRUCTION index; T_IDENT name; T_LINENUM l3]) =
  Ok ([E_LINENUM 1] ++ hlt_expressions n 1 ++
      [E_LABEL name; E_LINENUM l2; E_INSTRUCTION index [[T_IDENT name]]; E_LINENUM l3]).
Proof.
  intros H. unfold parser.
  change (parse_loop ([T_LINENUM 1] ++ ?l) (-1) [])
    with (parse_loop l 1 [E_LINENUM 1]).
  rewrite parse_loop_hlt_tokens.
  cbn [parse_loop collectCommaSeparated_cursor collectCommaSeparated_output app].
  rewrite H. cbn [count_differs length Nat.eqb negb]. rewrite <- !app_assoc. reflexivity.
Qed.

(** The first pass over that program: the label is recorded at
    address [n], the one deferred entry is the operand of the
    instruction at cell [n], which holds the base word; the cells
    below hold the HLT words and the cells above are still zero. *)
Lemma first_pass_label_program (name : string) (index : Z) (n : nat) (l2 l3 : Z) :
  Z.abs (1000 * index) < MAX_SAFE -> (n < 1000)%nat ->
  exists st,
    first_pass ([E_LINENUM 1] ++ hlt_expressions n 1 ++
                [E_LABEL name; E_LINENUM l2; E_INSTRUCTION index [[T_IDENT name]];
                 E_LINENUM l3]) initial_state = Ok st /\
    labels st = <[name := Z.of_nat n]> ∅ /\
    valuesToRecalculate st = [(Z.of_nat n, Some [T_IDENT name])] /\
    length (memory st) = 1000%nat /\
    memory st !! n = Some (1000 * index) /\
    (forall j : nat, (j < n)%nat -> memory st !! j = Some 10000) /\
    (forall j : nat, (n < j < 1000)%nat -> memory st !! j = Some 0).
Proof.
  intros Hk Hn.
  cbn [app first_pass emitExpression skips_next bind].
  match goal with
  | |- context [first_pass (hlt_expressions n 1 ++ ?rest) ?s] =>
      destruct (first_pass_hlt_cells n rest 1 s 0%nat)
        as (st' & Hf & Horg & Hlen & Hin & Hout & Hv & Hl)
  end.
  { reflexivity. }
  { cbn [memory initial_state]. rewrite length_replicate. lia. }
  cbn [memory valuesToRecalculate labels initial_state] in Hlen, Hin, Hout, Hv, Hl.
  rewrite length_replicate in Hlen. cbn [Nat.add] in Horg, Hin, Hout.
  rewrite Hf.
  cbn [first_pass emitExpression skips_next bind assembleInstruction lookup list_lookup].
  rewrite exact_small by assumption. cbn [bind].
  rewrite emit_inside by (cbn [push_recalculate org memory]; lia).
  cbn [bind]. eexists. split; [reflexivity|].
  cbn [labels valuesToRecalculate memory org push_recalculate app].
  rewrite Horg, Hv, Hl, Nat2Z.id, length_insert. repeat split; try assumption.
  - apply list_lookup_insert_eq. lia.
  - intros j Hj. rewrite list_lookup_insert_ne by lia. apply Hin. lia.
  - intros j Hj. rewrite list_lookup_insert_ne, Hout by lia.
    apply lookup_replicate. split; [reflexivity | lia].
Qed.

(** C5: for every label name, every one-operand mnemonic and every
    number [n] below 1000 of instruction lines in front, the program
    that declares the label and then applies the mnemonic to it
    assembles; the first pass records the label at address [n], the
    address of the instruction, and the cell at [n] of the finished
    image holds opcode * 1000 OR-ed with [n].  The cells below hold
    the HLT words, the cells above are zero.  With [n = 0] the program
    is the label and the instruction alone. *)
Theorem label_operand_word (host_binds : string -> bool) (name mnemonic : string)
  (opcode n : nat) :
  label_name name = true ->
  INSTRUCTIONS !! opcode = Some mnemonic ->
  INSTRUCTION_ARG_LENGTHS !! opcode = Some 1%nat ->
  (n < 1000)%nat ->
  exists st image,
    first_pass_of (label_program name mnemonic n) = Ok st /\
    labels st !! name = Some (Z.of_nat n) /\
    assemble host_binds (label_program name mnemonic n) = Ok image /\
    length image = 1000%nat /\
    image !! n = Some (Z.lor (Z.of_nat opcode * 1000) (Z.of_nat n)) /\
    (forall j : nat, (j < n)%nat -> image !! j = Some 10000) /\
    (forall j : nat, (n < j < 1000)%nat -> image !! j = Some 0).
Proof.
  intros Hn Hm Ha Hlt.
  assert (Hlex : lexer (label_program name mnemonic n) =
                 Ok ([T_LINENUM 1] ++ hlt_tokens n 1 ++
                     [T_IDENT name; T_LABEL_MAKER; T_LINENUM (1 + Z.of_nat n + 1);
                      T_INSTRUCTION (Z.of_nat opcode); T_IDENT name;
                      T_LINENUM (1 + Z.of_nat n + 1 + 1)]) /\
                 table_get INSTRUCTION_ARG_LENGTHS (Z.of_nat opcode) = Some 1%nat /\
                 (opcode <= 10)%nat).
  { destruct opcode as [|[|[|[|[|[|[|[|[|[|[|opcode]]]]]]]]]]]; try discriminate Ha;
      injection Hm as <-;
      (split; [apply lexer_label_program; [exact Hn | reflexivity ..]
              | split; [reflexivity | lia]]). }
  destruct Hlex as (Hlex & Htab & Hk).
  destruct (first_pass_label_program name (Z.of_nat opcode) n (1 + Z.of_nat n + 1)
              (1 + Z.of_nat n + 1 + 1)) as (st & Hf & Hlabels & Hv & Hlen & Hcell & Hlow & Hhigh);
    [unfold MAX_SAFE; lia | exact Hlt |].
  assert (Hl : labels st !! name = Some (Z.of_nat n))
    by (rewrite Hlabels; apply lookup_insert_eq).
  assert (Hs : shadows_with_block (labels st) = false)
    by (rewrite Hlabels; apply single_label_shadows_nothing, label_name_inv, Hn).
  exists st, (<[n := Z.lor (Z.of_nat opcode * 1000) (Z.of_nat n)]> (memory st)).
  unfold first_pass_of, assemble, assembler.
  rewrite Hlex. cbn [bind]. rewrite parser_label_program by exact Htab.
  cbn [bind]. rewrite Hf. cbn [bind].
  repeat split; try assumption.
  - rewrite Hv.
    rewrite (relocate_label host_binds _ name (Z.of_nat n) n _ _ Hn Hl Hs Hcell).
    rewrite js_or_small, wrap32_small by (rewrite ?wrap32_small; lia).
    rewrite (Z.mul_comm 1000). reflexivity.
  - rewrite length_insert. exact Hlen.
  - apply list_lookup_insert_eq. lia.
  - intros j Hj. rewrite list_lookup_insert_ne by lia. apply Hlow. exact Hj.
  - intros j Hj. rewrite list_lookup_insert_ne by lia. apply Hhigh. exact Hj.
Qed.

Lemma label_operand_word_witness :
  exists st image,
    first_pass_of (label_program "LOOP" "JMP" 12) = Ok st /\
    labels st !! "LOOP" = Some (Z.of_nat 12) /\
    assemble bare_host (label_program "LOOP" "JMP" 12) = Ok image /\
    length image = 1000%nat /\
    image !! 12%nat = Some (Z.lor (Z.of_nat 5 * 1000) (Z.of_nat 12)) /\
    (forall j : nat, (j < 12)%nat -> image !! j = Some 10000) /\
    (forall j : nat, (12 < j < 1000)%nat -> image !! j = Some 0).
Proof.
  apply (label_operand_word bare_host "LOOP" "JMP" 5 12); [reflexivity .. | lia].
Defined.

(** The relocation is what puts the address into the word: at address
    12 the finished cell of [JMP LOOP] holds 5004, while the first
    pass left the base word 5000 there; at address 0, with the label
    and the instruction alone, both are 5000. *)
Example label_operand_word_at_12 :
  Z.lor (Z.of_nat 5 * 1000) (Z.of_nat 12) = 5004 /\
  (exists st, first_pass_of (label_program "LOOP" "JMP" 12) = Ok st /\
              memory st !! 12%nat = Some 5000) /\
  (exists image, assemble bare_host (label_program "LOOP" "JMP" 12) = Ok image /\
                 image !! 12%nat = Some 5004) /\
  assemble bare_host (label_program "LOOP" "JMP" 0) = Ok (5000 :: replicate 999 0).
Proof.
  split; [reflexivity|]. split; [eexists; split; vm_compute; reflexivity|].
  split; [eexists; split; vm_compute; reflexivity|]. vm_compute. reflexivity.
Qed.

(** X19: The same program placed at address [a] by a set-origin directive,
    as the parser lays it out: the cell at [a] holds opcode * 1000
    OR-ed with [a]. *)
Lemma label_operand_word_at_origin (host_binds : string -> bool) (name : string)
  (index a : Z) :
  label_name name = true -> 0 <= index <= 10 -> 0 <= a < 1000 ->
  assembler host_binds
    [E_LINENUM 1; E_DIRECTIVE D_ORG [[T_NUMBER a]]; E_LINENUM 2; E_LABEL name;
     E_LINENUM 3; E_INSTRUCTION index [[T_IDENT name]]; E_LINENUM 4] =
  Ok (<[Z.to_nat a := Z.lor (index * 1000) a]> (replicate 1000 0)).
Proof.
  intros Hn Hk Ha. unfold assembler.
  change (first_pass (E_LINENUM 1 :: E_DIRECTIVE D_ORG [[T_NUMBER a]] :: ?l)
            initial_state)
    with (first_pass l {| memory := replicate 1000 0; valuesToRecalculate := [];
                          labels := ∅; org := a; lineNumber := 1 |}).
  rewrite first_pass_label_then_instruction;
    [| unfold MAX_SAFE; lia | cbn [org memory]; rewrite length_replicate; lia].
  cbn [bind labels valuesToRecalculate memory org app].
  pose proof (relocate_label host_binds (<[name := a]> ∅) name a (Z.to_nat a)
                (1000 * index) (<[Z.to_nat a := 1000 * index]> (replicate 1000 0))
                Hn (lookup_insert_eq _ _ _)
                (single_label_shadows_nothing name a (proj1 (label_name_inv name Hn))))
    as Hr.
  rewrite Z2Nat.id in Hr by lia. rewrite Hr.
  - rewrite list_insert_insert_eq, wrap32_small, js_or_small by lia.
    rewrite Z.mul_comm. reflexivity.
  - apply list_lookup_insert_eq. rewrite length_replicate. lia.
Qed.

Lemma label_operand_word_at_origin_witness :
  assembler bare_host
    [E_LINENUM 1; E_DIRECTIVE D_ORG [[T_NUMBER 12]]; E_LINENUM 2; E_LABEL "L";
     E_LINENUM 3; E_INSTRUCTION 5 [[T_IDENT "L"]]; E_LINENUM 4] =
  Ok (<[Z.to_nat 12 := Z.lor (5 * 1000) 12]> (replicate 1000 0)).
Proof. apply (label_operand_word_at_origin bare_host "L" 5 12); [reflexivity | lia | lia]. Defined.

Example label_operand_at_origin_12 (host_binds : string -> bool) :
  assemble host_binds ("#ORG 12" +:+ nl +:+ "L:" +:+ nl +:+ "JMP L") =
  Ok (<[12%nat := 5004]> (replicate 1000 0)).
Proof. vm_compute. reflexivity. Qed.

(** ** Forward references *)





Section ForwardReferences.

Variable host_binds : string -> bool.


End ForwardReferences.






(** Every deferred entry is resolved, not only the first: in
    [JMP L], [JMP L], [#DV L], three instruction lines, [L:] the label
    is declared at address 6, the two jump cells end as 5000 | 6 and
    the declare-value cell as 6; of a literal operand in front,
    [TAKE 5], [#DV L], [L:] keeps 1005 and stores 2. *)
Example forward_references_all_resolved :
  assemble bare_host (forward_program "L" 2 3) =
    Ok (5006 :: 5006 :: 6 :: 10000 :: 10000 :: 10000 :: replicate 994 0) /\
  assemble bare_host ("TAKE 5" +:+ nl +:+ "#DV L" +:+ nl +:+ "L:") =
    Ok (1005 :: 2 :: replicate 998 0).
Proof. split; vm_compute; reflexivity. Qed.

(** ** Relocation errors *)

(** C7, at the source text [TAKE 1+]: the syntax error of the deferred
    operand leaves [assembler] as the host raised it, without the
    line-number prefix that the first pass gives its own errors. *)
Theorem relocation_error_unwrapped (host_binds : string -> bool) :
  assemble host_binds "TAKE 1+" = Throw JsSyntaxError.
Proof. vm_compute. reflexivity. Qed.

Example unresolved_symbol_unwrapped :
  assemble bare_host "TAKE FOO" = Throw (JsReferenceError "FOO").
Proof. vm_compute. reflexivity. Qed.

Lemma js_tokenize_no_throw (fuel : nat) :
  forall (s : list ascii) (ex : js_error),
  (length s <= fuel)%nat -> js_tokenize s <> Throw ex.
Proof.
  induction fuel as [|fuel IH]; intros s ex Hlen H.
  - destruct s; [discriminate H | cbn [length] in Hlen; lia].
  - destruct s as [|c rest]; [discriminate H|].
    cbn [length] in Hlen. cbn [js_tokenize] in H.
    pose proof (collectWhile_cursor_length (includes NUMBERS) rest) as Hn.
    pose proof (collectWhile_cursor_length isLetterOrNumber rest) as Hl.
    repeat match type of H with
           | (if ?b then _ else _) = _ => destruct b; try discriminate H
           end;
      repeat (apply bind_throw in H as [H | (? & _ & H)]);
      try discriminate H;
      try (apply exact_no_throw in H; exact H);
      try (apply IH in H; [exact H | lia]).
Qed.

Lemma no_call_throw (e : js_expr) (ts : list js_token) (ex : js_error) :
  no_call e ts <> Throw ex.
Proof. destruct ts as [|[] ts]; discriminate. Qed.

Lemma js_descent_throw (fuel : nat) :
  forall (ex : js_error),
  (forall ts, js_additive fuel ts = Throw ex -> ex = JsSyntaxError) /\
  (forall lhs ts, js_additive_rest fuel lhs ts = Throw ex -> ex = JsSyntaxError) /\
  (forall ts, js_multiplicative fuel ts = Throw ex -> ex = JsSyntaxError) /\
  (forall lhs ts, js_multiplicative_rest fuel lhs ts = Throw ex -> ex = JsSyntaxError) /\
  (forall ts, js_unary fuel ts = Throw ex -> ex = JsSyntaxError).
Proof.
  induction fuel as [|fuel IH]; intros ex.
  - repeat split; intros; discriminate.
  - destruct (IH ex) as (Ha & Har & Hm & Hmr & Hu).
    repeat split.
    + intros ts H. cbn [js_additive] in H.
      apply bind_throw in H as [H | (r & _ & H)]; eauto.
    + intros lhs ts H. cbn [js_additive_rest] in H.
      destruct ts as [|[] ts]; try discriminate H;
        apply bind_throw in H as [H | (r & _ & H)]; eauto.
    + intros ts H. cbn [js_multiplicative] in H.
      apply bind_throw in H as [H | (r & _ & H)]; eauto.
    + intros lhs ts H. cbn [js_multiplicative_rest] in H.
      destruct ts as [|[] ts]; try discriminate H;
        apply bind_throw in H as [H | (r & _ & H)]; eauto.
    + intros ts H. cbn [js_unary] in H.
      destruct ts as [|[] ts]; try (injection H as <-; reflexivity);
        try (apply no_call_throw in H; contradiction);
        apply bind_throw in H as [H | (r & _ & H)]; eauto; try discriminate H.
      destruct (snd r) as [|[] ?]; try (injection H as <-; reflexivity);
        apply no_call_throw in H; contradiction.
Qed.

Lemma js_parse_throw (ts : list js_token) (ex : js_error) :
  js_parse ts = Throw ex -> ex = JsSyntaxError.
Proof.
  unfold js_parse. destruct ts as [|t ts]; [discriminate|]. intros H.
  apply bind_throw in H as [H | (r & _ & H)].
  - eapply (proj1 (js_descent_throw _ ex)). exact H.
  - destruct (snd r); [discriminate H | injection H as <-; reflexivity].
Qed.

Section RelocationErrors.

Variable host_binds : string -> bool.

Lemma arith_no_throw (op : Z -> Z -> Z) (a b : js_value) (ex : js_error) :
  arith op a b <> Throw ex.
Proof.
  destruct a, b; cbn [arith]; try discriminate.
  intros H. apply bind_throw in H as [H | (r & _ & H)];
    [apply exact_no_throw in H; exact H | discriminate H].
Qed.

Lemma js_evaluate_throw (labels : gmap string Z) (e : js_expr) (ex : js_error) :
  js_evaluate host_binds labels e = Throw ex -> host_error ex = true.
Proof.
  induction e; cbn [js_evaluate]; intros H;
    repeat (apply bind_throw in H as [H | (? & _ & H)]); eauto;
    try (apply arith_no_throw in H; contradiction); try discriminate H.
  unfold resolve in H. destruct (labels !! name); [discriminate H|].
  destruct (file_scope name); [discriminate H|].
  destruct (host_binds name); [discriminate H|].
  injection H as <-. reflexivity.
Qed.

Lemma js_eval_throw (labels : gmap string Z) (text : string) (ex : js_error) :
  js_eval host_binds labels text = Throw ex -> host_error ex = true.
Proof.
  unfold js_eval. intros H.
  apply bind_throw in H as [H | (ts & _ & H)].
  { eapply js_tokenize_no_throw in H; [contradiction | apply le_n]. }
  apply bind_throw in H as [H | (program & _ & H)].
  { apply js_parse_throw in H. subst ex. reflexivity. }
  destruct program; [|discriminate H].
  eapply js_evaluate_throw. exact H.
Qed.

Lemma join_contents_throw (value : list token) (ex : js_error) :
  join_contents value = Throw ex -> host_error ex = true.
Proof.
  induction value as [|e value IH]; cbn [join_contents]; intros H; [discriminate H|].
  apply bind_throw in H as [H | (s & _ & H)].
  - destruct e; cbn [contents_toString] in H;
      try (injection H as <-; reflexivity); try discriminate H;
      unfold number_toString in H;
      apply bind_throw in H as [H | (? & _ & H)];
      try discriminate H; apply exact_no_throw in H; contradiction.
  - apply bind_throw in H as [H | (r & _ & H)]; [eauto | discriminate H].
Qed.

Lemma string_toNumber_no_throw (s : string) (ex : js_error) :
  string_toNumber s <> Throw ex.
Proof.
  unfold string_toNumber. destruct (list_ascii_of_string s); [discriminate|].
  destruct (forallb _ _).
  - intros H. apply bind_throw in H as [H | (? & _ & H)];
      [apply exact_no_throw in H; exact H | discriminate H].
  - destruct (existsb _ _); discriminate.
Qed.

Lemma toInt32_no_throw (v : js_value) (ex : js_error) : toInt32 v <> Throw ex.
Proof.
  destruct v; cbn [toInt32]; try discriminate; intros H;
    apply bind_throw in H as [H | (? & _ & H)]; try discriminate H;
    apply string_toNumber_no_throw in H; exact H.
Qed.

Lemma or_assign_no_throw (memory : list Z) (address : Z) (v : js_value)
  (ex : js_error) :
  or_assign memory address v <> Throw ex.
Proof.
  unfold or_assign. destruct (address <? 0); [discriminate|].
  destruct (memory !! Z.to_nat address); [|discriminate].
  intros H. apply bind_throw in H as [H | (n & _ & H)]; [|discriminate H].
  apply toInt32_no_throw in H. exact H.
Qed.

(** An exception of the relocation pass is the one the host raised: it
    never carries the line-number prefix. *)
Lemma relocate_throw (labels : gmap string Z)
  (entries : list (Z * option (list token))) :
  forall (memory : list Z) (ex : js_error),
  relocate host_binds labels entries memory = Throw ex -> host_error ex = true.
Proof.
  induction entries as [|[address value] entries IH]; intros memory ex H;
    cbn [relocate] in H; [discriminate H|].
  destruct (shadows_with_block labels); [discriminate H|].
  apply bind_throw in H as [H | (text & _ & H)].
  { destruct value; [eapply join_contents_throw; exact H | injection H as <-; reflexivity]. }
  apply bind_throw in H as [H | (evaluated & _ & H)].
  { eapply js_eval_throw. exact H. }
  apply bind_throw in H as [H | (memory' & _ & H)].
  { apply or_assign_no_throw in H. contradiction. }
  eapply IH. exact H.
Qed.

(** X28: Once the first pass has returned, whatever [assembler] throws has
    no line number in front. *)
Lemma relocation_errors_never_wrapped (expressions : list expression) (st : state)
  (ex : js_error) :
  first_pass expressions initial_state = Ok st ->
  assembler host_binds expressions = Throw ex ->
  forall (line : Z) (inner : js_error), ex <> ErrorWhileAssemblingLine line inner.
Proof.
  intros Hf H line inner ->. unfold assembler in H. rewrite Hf in H. cbn [bind] in H.
  apply relocate_throw in H. discriminate H.
Qed.

(** A failing entry stops the loop: the entries after it are not
    looked at. *)
Lemma relocate_aborts (labels : gmap string Z) (address : Z) (value : list token)
  (text : string) (ex : js_error) (rest : list (Z * option (list token)))
  (memory : list Z) :
  shadows_with_block labels = false ->
  join_contents value = Ok text ->
  js_eval host_binds labels text = Throw ex ->
  relocate host_binds labels ((address, Some value) :: rest) memory = Throw ex.
Proof.
  intros Hs Hj He. cbn [relocate]. rewrite Hs, Hj. cbn [bind]. rewrite He. reflexivity.
Qed.

End RelocationErrors.

(** ** Packing *)

(** C8, at opcode 1 and operand 8: the OR of 1000 and 8 is 1000, not
    1008, and the source text [TAKE 8] assembles to the word 1000. *)
Theorem or_combination_loses_operand (host_binds : string -> bool) :
  js_or (1000 * 1) 8 = 1000 /\
  assemble host_binds "TAKE 8" = Ok (1000 :: replicate 999 0).
Proof. split; vm_compute; reflexivity. Qed.

(** X29: The OR of a base word and an operand is their sum exactly when the
    two share no set bit. *)
Lemma or_is_sum_when_disjoint (k v : Z) :
  0 <= k * 1000 < 2 ^ 31 -> 0 <= v < 2 ^ 31 ->
  Z.land (k * 1000) v = 0 ->
  js_or (k * 1000) v = k * 1000 + v.
Proof.
  intros Hk Hv Hd. rewrite js_or_small by lia.
  rewrite Z.add_nocarry_lxor by exact Hd. symmetry. apply Z.lxor_lor. exact Hd.
Qed.

Lemma or_is_sum_when_disjoint_witness : js_or (1 * 1000) 5 = 1 * 1000 + 5.
Proof. apply (or_is_sum_when_disjoint 1 5); [lia | lia | reflexivity]. Defined.

(** Of the 1000 operands below the multiplier, 16 are packed as a sum
    under opcode 1. *)
Example operands_packed_as_sum :
  length (filter (fun v => js_or (1 * 1000) v = 1 * 1000 + v)
                 (map Z.of_nat (seq 0 1000))) = 16%nat.
Proof. vm_compute. reflexivity. Qed.

(** ** Unresolved identifiers *)

(** C9, at the source text [TAKE SYMBOLS] with an empty label table:
    the identifier resolves to the constant [SYMBOLS] of the file, the
    run succeeds and returns an image. *)
Theorem file_constant_resolves (host_binds : string -> bool) :
  assemble host_binds "TAKE SYMBOLS" = Ok (1000 :: replicate 999 0).
Proof. vm_compute. reflexivity. Qed.

(** The constant [NUMBERS] is the string of the ten digits; as an
    operand it is converted to the number 1234567890 and OR-ed into
    the base word. *)
Example file_constant_numbers (host_binds : string -> bool) :
  assemble host_binds "TAKE NUMBERS" = Ok (Z.lor 1000 1234567890 :: replicate 999 0).
Proof. vm_compute. reflexivity. Qed.

(** X25: An identifier that is no label, no constant of the file and no
    global of the host is the one case in which the evaluation of an
    operand raises a [ReferenceError]. *)
Lemma unbound_identifier_throws (host_binds : string -> bool)
  (labels : gmap string Z) (name : string) :
  capital_word name = true -> labels !! name = None ->
  file_scope name = None -> host_binds name = false ->
  js_eval host_binds labels name = Throw (JsReferenceError name).
Proof.
  intros Hw Hl Hf Hh.
  destruct (capital_word_inv name Hw) as (c & cs & Hs & Hc & Hcs & Hname).
  destruct (letter_facts c Hc) as (_ & _ & _ & _ & Hnum & _).
  unfold js_eval. rewrite Hs. cbn [js_tokenize].
  rewrite Hnum, Hc, collectWhile_output_all, collectWhile_cursor_all by assumption.
  rewrite Hname. cbn. unfold resolve. rewrite Hl, Hf, Hh. reflexivity.
Qed.

Lemma unbound_identifier_throws_witness :
  js_eval bare_host ∅ "FOO" = Throw (JsReferenceError "FOO").
Proof. apply (unbound_identifier_throws bare_host ∅ "FOO"); reflexivity. Defined.

(** ** Blank programs *)

(** C10 as stated fails on a text made of one tab character: the lexer
    skips only the space character. *)
Lemma tab_text_rejected :
  assemble bare_host (String tab "") = Throw (UnexpectedSymbol tab 1).
Proof. vm_compute. reflexivity. Qed.

Lemma lex_loop_blank (s : list ascii) :
  forall (line : Z) (out : list token),
    (blank_from false s = true ->
     exists toks, lex_loop (s ++ [newline]) line out = Ok (out ++ toks) /\
                  forallb is_line_token toks = true) /\
    (blank_from true s = true ->
     exists toks,
       collectWhile_cursor (fun e => negb (Ascii.eqb e newline)) (s ++ [newline]) <> [] /\
       lex_loop (collectWhile_cursor (fun e => negb (Ascii.eqb e newline))
                                     (s ++ [newline])) line out = Ok (out ++ toks) /\
       forallb is_line_token toks = true).
Proof.
  induction s as [|c s IH]; intros line out.
  - split; intros _; exists [T_LINENUM (line + 1)]; repeat split; discriminate.
  - split; intros Hb.
    + simpl in Hb. destruct (Ascii.eqb c newline) eqn:Hnl.
      * apply Ascii.eqb_eq in Hnl. subst c.
        destruct (proj1 (IH (line + 1) (out ++ [T_LINENUM (line + 1)])) Hb)
          as (toks & Hlex & Hall).
        exists (T_LINENUM (line + 1) :: toks). split; [|exact Hall].
        change (lex_loop ((newline :: s) ++ [newline]) line out)
          with (lex_loop (s ++ [newline]) (line + 1) (out ++ [T_LINENUM (line + 1)])).
        rewrite Hlex, <- app_assoc. reflexivity.
      * destruct (Ascii.eqb c " ") eqn:Hsp.
        -- apply Ascii.eqb_eq in Hsp. subst c.
           destruct (proj1 (IH line out) Hb) as (toks & Hlex & Hall).
           exists toks. split; [|exact Hall]. exact Hlex.
        -- destruct (Ascii.eqb c ";") eqn:Hsc; [|discriminate Hb].
           apply Ascii.eqb_eq in Hsc. subst c.
           destruct (proj2 (IH line out) Hb) as (toks & Hne & Hlex & Hall).
           exists toks. split; [|exact Hall].
           change (lex_loop ((";"%char :: s) ++ [newline]) line out)
             with (match collectWhile_cursor (fun e => negb (Ascii.eqb e newline))
                           (s ++ [newline]) with
                   | [] => Unmodelled
                   | _ :: _ =>
                       lex_loop (collectWhile_cursor
                                   (fun e => negb (Ascii.eqb e newline))
                                   (s ++ [newline])) line out
                   end).
           destruct (collectWhile_cursor _ (s ++ [newline])) eqn:Hcur;
             [contradiction|exact Hlex].
    + simpl in Hb. change ((c :: s) ++ [newline]) with (c :: s ++ [newline]).
      cbn [collectWhile_cursor]. destruct (Ascii.eqb c newline) eqn:Hnl; cbn [negb].
      * apply Ascii.eqb_eq in Hnl. subst c.
        destruct (proj1 (IH (line + 1) (out ++ [T_LINENUM (line + 1)])) Hb)
          as (toks & Hlex & Hall).
        exists (T_LINENUM (line + 1) :: toks). split; [discriminate|].
        split; [|exact Hall].
        change (lex_loop (newline :: s ++ [newline]) line out)
          with (lex_loop (s ++ [newline]) (line + 1) (out ++ [T_LINENUM (line + 1)])).
        rewrite Hlex, <- app_assoc. reflexivity.
      * apply (proj2 (IH line out) Hb).
Qed.

Lemma parse_loop_line_tokens (toks : list token) :
  forallb is_line_token toks = true ->
  forall (line : Z) (out : list expression),
  exists exprs, parse_loop toks line out = Ok (out ++ exprs) /\
                forallb is_line_expression exprs = true.
Proof.
  induction toks as [|t toks IH]; intros Hall line out.
  - exists []. rewrite app_nil_r. split; reflexivity.
  - destruct t; try discriminate Hall. simpl in Hall.
    destruct (IH Hall line0 (out ++ [E_LINENUM line0])) as (exprs & Hp & He).
    exists (E_LINENUM line0 :: exprs). split; [|exact He].
    cbn [parse_loop]. rewrite Hp, <- app_assoc. reflexivity.
Qed.

(** A line marker changes nothing but the line tracker. *)
Lemma first_pass_line_expressions (exprs : list expression) :
  forallb is_line_expression exprs = true ->
  forall st : state,
  exists st', first_pass exprs st = Ok st' /\
              memory st' = memory st /\
              valuesToRecalculate st' = valuesToRecalculate st.
Proof.
  induction exprs as [|e exprs IH]; intros Hall st.
  - exists st. repeat split.
  - destruct e; try discriminate Hall. simpl in Hall.
    cbn [first_pass emitExpression bind skips_next].
    destruct (IH Hall {| memory := memory st;
                         valuesToRecalculate := valuesToRecalculate st;
                         labels := labels st; org := org st; lineNumber := line |})
      as (st' & Hp & Hm & Hv).
    exists st'. repeat split; assumption.
Qed.

(** C10, amended: every text made only of space characters, newlines
    and comments (the empty text among them) assembles to an image of
    1000 cells that are all zero. *)
Theorem blank_text_assembles_to_zeros (host_binds : string -> bool) (text : string) :
  blank_text text = true ->
  assemble host_binds text = Ok (replicate 1000 0).
Proof.
  intros Hb. unfold assemble, lexer.
  destruct (proj1 (lex_loop_blank (list_ascii_of_string text) 1 [T_LINENUM 1]) Hb)
    as (toks & Hlex & Hall).
  rewrite Hlex. cbn [bind]. unfold parser.
  destruct (parse_loop_line_tokens ([T_LINENUM 1] ++ toks) Hall (-1) [])
    as (exprs & Hp & He).
  rewrite Hp. cbn [bind app]. unfold assembler.
  destruct (first_pass_line_expressions exprs He initial_state) as (st & Hf & Hm & Hv).
  rewrite Hf. cbn [bind]. rewrite Hv, Hm. reflexivity.
Qed.

Lemma blank_text_assembles_to_zeros_witness :
  blank_text ("  ; a comment, then an empty line" +:+ nl +:+ nl +:+ " ") = true /\
  assemble bare_host ("  ; a comment, then an empty line" +:+ nl +:+ nl +:+ " ") =
    Ok (replicate 1000 0).
Proof.
  split; [reflexivity|].
  apply (blank_text_assembles_to_zeros bare_host
           ("  ; a comment, then an empty line" +:+ nl +:+ nl +:+ " ")).
  reflexivity.
Defined.

(** ** The lexer, one step at a time *)

Lemma collectWhile_split (p : ascii -> bool) (s : list ascii) :
  s = collectWhile_output p s ++ collectWhile_cursor p s /\
  forallb p (collectWhile_output p s) = true.
Proof.
  induction s as [|c s [IH1 IH2]]; cbn [collectWhile_output collectWhile_cursor].
  - split; reflexivity.
  - destruct (p c) eqn:Hc; [|split; reflexivity].
    cbn [app forallb]. rewrite Hc, IH2, <- IH1. split; reflexivity.
Qed.

Lemma forallb_not_newline (p : ascii -> bool) (l : list ascii) :
  p newline = false -> forallb p l = true -> forallb not_newline l = true.
Proof.
  intros Hp. induction l as [|c l IH]; cbn [forallb]; intros H; [reflexivity|].
  apply andb_true_iff in H as [Hc Hl]. rewrite (IH Hl), andb_true_r.
  unfold not_newline. destruct (Ascii.eqb_spec c newline) as [->|_]; [congruence|reflexivity].
Qed.

Lemma upper_newline (c : ascii) :
  Ascii.eqb (toUpperCase c) newline = Ascii.eqb c newline.
Proof.
  destruct c as [b0 b1 b2 b3 b4 b5 b6 b7].
  destruct b0, b1, b2, b3, b4, b5, b6, b7; vm_compute; reflexivity.
Qed.

Lemma digit_facts (c : ascii) :
  includes NUMBERS c = true ->
  is_ascii7 c = true /\ toUpperCase c = c /\ Ascii.eqb c " " = false /\
  Ascii.eqb c newline = false /\ 0 <= digit_value c <= 9.
Proof.
  destruct c as [b0 b1 b2 b3 b4 b5 b6 b7].
  destruct b0, b1, b2, b3, b4, b5, b6, b7; vm_compute; intros H;
    try discriminate H; repeat split; discriminate.
Qed.

Lemma parseInt_fold_nonneg (digits : list ascii) :
  forallb (includes NUMBERS) digits = true ->
  forall acc : Z, 0 <= acc ->
  0 <= fold_left (fun acc c => 10 * acc + digit_value c) digits acc.
Proof.
  induction digits as [|c digits IH]; cbn [forallb fold_left]; intros H acc Hacc;
    [exact Hacc|].
  apply andb_true_iff in H as [Hc Hd].
  destruct (digit_facts c Hc) as (_ & _ & _ & _ & Hv). apply IH; [exact Hd | lia].
Qed.

Lemma indexOf_INSTRUCTIONS_range (c : ascii) (cs : list ascii) (index : Z) :
  isLetter c = true ->
  indexOf INSTRUCTIONS (string_of_list_ascii (c :: cs)) = Some index ->
  1 <= index <= 10.
Proof.
  intros Hc H. unfold INSTRUCTIONS in H. cbn [indexOf] in H. revert H.
  destruct (String.eqb_spec "~" (string_of_list_ascii (c :: cs))) as [He|_].
  { simpl in He. inversion He; subst. discriminate Hc. }
  intros H.
  repeat match type of H with
         | context [String.eqb ?a ?b] => destruct (String.eqb a b)
         end;
    cbn in H; try discriminate H; injection H as <-; lia.
Qed.

Lemma indexOf_DIRECTIVES_range (s : string) (index : Z) :
  indexOf COMPILER_DIRECTIVES s = Some index -> 0 <= index <= 2.
Proof.
  unfold COMPILER_DIRECTIVES. cbn [indexOf]. intros H.
  repeat match type of H with
         | context [String.eqb ?a ?b] => destruct (String.eqb a b)
         end;
    cbn in H; try discriminate H; injection H as <-; lia.
Qed.

(** One turn of the lexer's loop that leads to a normal return: the
    loop goes on behind a run of skipped characters that holds no
    newline, with at most one more token; a newline adds the marker of
    the next line, any other character adds no marker. *)
Lemma lex_loop_step (ch : ascii) (rest : list ascii) (line : Z)
  (out toks : list token) :
  lex_loop (ch :: rest) line out = Ok toks ->
  exists (skipped cursor : list ascii) (emitted : list token) (line' : Z),
    rest = skipped ++ cursor /\
    forallb not_newline skipped = true /\
    (skipped <> [] -> cursor <> []) /\
    lex_loop cursor line' (out ++ emitted) = Ok toks /\
    ((ch = newline /\ skipped = [] /\ line' = line + 1 /\
      emitted = [T_LINENUM (line + 1)]) \/
     (ch <> newline /\ line' = line /\
      (emitted = [] \/ exists t, emitted = [t] /\ lexed_token t = true))).
Proof.
  intros H. cbn [lex_loop] in H.
  destruct (is_ascii7 ch) eqn:H7; cbn [negb] in H; [|discriminate H].
  destruct (Ascii.eqb (toUpperCase ch) " ") eqn:Hsp.
  { exists [], rest, [], line. rewrite app_nil_r. repeat split; try assumption;
      try (intros Hc; now elim Hc).
    right. repeat split; [|left; reflexivity].
    intros ->. discriminate Hsp. }
  destruct (Ascii.eqb (toUpperCase ch) newline) eqn:Hnl.
  { rewrite upper_newline in Hnl. apply Ascii.eqb_eq in Hnl. subst ch.
    exists [], rest, [T_LINENUM (line + 1)], (line + 1).
    repeat split; try assumption; try (intros Hc; now elim Hc).
    left. repeat split. }
  assert (Hne : ch <> newline).
  { intros ->. discriminate Hnl. }
  destruct (includes NUMBERS (toUpperCase ch)) eqn:Hnum.
  { destruct (collectWhile_split (includes NUMBERS) rest) as [Hsplit Hall].
    destruct (collectWhile_cursor (includes NUMBERS) rest) as [|c cursor] eqn:Hcur;
      [discriminate H|].
    destruct (exact _) as [n| |] eqn:Hex; try discriminate H.
    exists (collectWhile_output (includes NUMBERS) rest), (c :: cursor), [T_NUMBER n], line.
    repeat split; try assumption; try discriminate.
    - apply (forallb_not_newline (includes NUMBERS)); [reflexivity | exact Hall].
    - right. repeat split; try assumption. right. exists (T_NUMBER n).
      split; [reflexivity|]. cbn [lexed_token].
      unfold exact in Hex.
      destruct (Z.abs (parseInt (toUpperCase ch ::
                  collectWhile_output (includes NUMBERS) rest)) <? MAX_SAFE);
        [|discriminate Hex].
      injection Hex as <-.
      apply Z.leb_le. unfold parseInt. apply parseInt_fold_nonneg; [|lia].
      cbn [forallb]. rewrite Hnum, Hall. reflexivity. }
  destruct (includes SYMBOLS (toUpperCase ch)) eqn:Hsym.
  { exists [], rest, [T_ARITH_SYMBOL (toUpperCase ch)], line.
    repeat split; try assumption; try (intros Hc; now elim Hc).
    right. repeat split; try assumption. right. eexists. split; [reflexivity|exact Hsym]. }
  destruct (isLetter (toUpperCase ch)) eqn:Hlet.
  { destruct (collectWhile_split isLetterOrNumber rest) as [Hsplit Hall].
    destruct (collectWhile_cursor isLetterOrNumber rest) as [|c cursor] eqn:Hcur;
      [discriminate H|].
    destruct (indexOf INSTRUCTIONS _) as [index|] eqn:Hidx.
    - exists (collectWhile_output isLetterOrNumber rest), (c :: cursor),
        [T_INSTRUCTION index], line.
      repeat split; try assumption; try discriminate.
      + apply (forallb_not_newline isLetterOrNumber); [reflexivity | exact Hall].
      + right. repeat split; try assumption. right. eexists. split; [reflexivity|].
        cbn [lexed_token].
        destruct (indexOf_INSTRUCTIONS_range _ _ _ Hlet Hidx) as [Hlo Hhi].
        apply andb_true_iff. split; [apply Z.leb_le | apply Z.leb_le]; assumption.
    - exists (collectWhile_output isLetterOrNumber rest), (c :: cursor),
        [T_IDENT (string_of_list_ascii
                    (toUpperCase ch :: collectWhile_output isLetterOrNumber rest))], line.
      repeat split; try assumption; try discriminate.
      + apply (forallb_not_newline isLetterOrNumber); [reflexivity | exact Hall].
      + right. repeat split; try assumption. right. eexists. split; [reflexivity|].
        cbn [lexed_token]. unfold label_name, capital_word.
        rewrite list_ascii_of_string_of_list_ascii, Hlet, Hall, Hidx. reflexivity. }
  destruct (Ascii.eqb (toUpperCase ch) ":") eqn:Hcolon.
  { exists [], rest, [T_LABEL_MAKER], line.
    repeat split; try assumption; try (intros Hc; now elim Hc).
    right. repeat split; try assumption. right. eexists. split; reflexivity. }
  destruct (Ascii.eqb (toUpperCase ch) "#") eqn:Hhash.
  { destruct (collectWhile_split isLetter rest) as [Hsplit Hall].
    destruct (collectWhile_cursor isLetter rest) as [|c cursor] eqn:Hcur;
      [discriminate H|].
    destruct (indexOf COMPILER_DIRECTIVES _) as [index|] eqn:Hidx; [|discriminate H].
    exists (collectWhile_output isLetter rest), (c :: cursor), [T_DIRECTIVE index], line.
    repeat split; try assumption; try discriminate.
    - apply (forallb_not_newline isLetter); [reflexivity | exact Hall].
    - right. repeat split; try assumption. right. eexists. split; [reflexivity|].
      cbn [lexed_token].
      destruct (indexOf_DIRECTIVES_range _ _ Hidx) as [Hlo Hhi].
      apply andb_true_iff. split; apply Z.leb_le; assumption. }
  destruct (Ascii.eqb (toUpperCase ch) ",") eqn:Hcomma.
  { exists [], rest, [T_COMMA], line.
    repeat split; try assumption; try (intros Hc; now elim Hc).
    right. repeat split; try assumption. right. eexists. split; reflexivity. }
  destruct (Ascii.eqb (toUpperCase ch) ";") eqn:Hsemi; [|discriminate H].
  destruct (collectWhile_split (fun e => negb (Ascii.eqb e newline)) rest)
    as [Hsplit Hall].
  destruct (collectWhile_cursor (fun e => negb (Ascii.eqb e newline)) rest)
    as [|c cursor] eqn:Hcur; [discriminate H|].
  exists (collectWhile_output (fun e => negb (Ascii.eqb e newline)) rest),
    (c :: cursor), [], line.
  rewrite app_nil_r.
  repeat split; try assumption; try discriminate.
  right. repeat split; try assumption. left. reflexivity.
Qed.

(** ** What every token sequence of the lexer looks like *)

Lemma count_newlines_skipped (skipped cursor : list ascii) :
  forallb not_newline skipped = true ->
  count_newlines (skipped ++ cursor) = count_newlines cursor.
Proof.
  induction skipped as [|c skipped IH]; cbn [forallb app count_newlines]; intros H;
    [reflexivity|].
  apply andb_true_iff in H as [Hc Hs]. unfold not_newline in Hc.
  destruct (Ascii.eqb c newline); [discriminate Hc | apply IH; exact Hs].
Qed.

Lemma line_numbers_app (a b : list token) :
  line_numbers (a ++ b) = line_numbers a ++ line_numbers b.
Proof.
  induction a as [|t a IH]; [reflexivity|].
  destruct t; cbn [app line_numbers]; rewrite IH; reflexivity.
Qed.

Lemma lex_loop_invariant (n : nat) :
  forall (input : list ascii) (line : Z) (out toks : list token),
  (length input <= n)%nat ->
  lex_loop input line out = Ok toks ->
  exists new,
    toks = out ++ new /\
    forallb token_of_lexer new = true /\
    line_numbers new = lines_from (line + 1) (count_newlines input) /\
    (last input = Some newline ->
     exists init,
       new = init ++ [T_LINENUM (line + Z.of_nat (count_newlines input))]).
Proof.
  induction n as [|n IH]; intros input line out toks Hlen H.
  - destruct input; [|cbn [length] in Hlen; lia].
    injection H as <-. exists []. rewrite app_nil_r. repeat split. discriminate.
  - destruct input as [|ch rest].
    { injection H as <-. exists []. rewrite app_nil_r. repeat split. discriminate. }
    cbn [length] in Hlen.
    destruct (lex_loop_step ch rest line out toks H)
      as (skipped & cursor & emitted & line' & Hrest & Hskip & Hne & Hloop & Hcase).
    assert (Hclen : (length cursor <= n)%nat).
    { subst rest. rewrite length_app in Hlen. lia. }
    destruct (IH cursor line' (out ++ emitted) toks Hclen Hloop)
      as (new & -> & Hall & Hlines & Hlast).
    exists (emitted ++ new). rewrite <- app_assoc. split; [reflexivity|].
    assert (Hcount : count_newlines rest = count_newlines cursor).
    { subst rest. apply count_newlines_skipped. exact Hskip. }
    destruct Hcase as [(-> & -> & -> & ->) | (Hch & -> & Hem)].
    + cbn [app] in Hrest. subst cursor.
      cbn [count_newlines]. rewrite Ascii.eqb_refl.
      cbn [app forallb line_numbers lines_from token_of_lexer is_line_token orb].
      rewrite Hall, Hlines. repeat split.
      intros Hl. destruct rest as [|c rest'].
      * cbn [lex_loop] in Hloop. injection Hloop as Hloop.
        assert (new = []) as ->.
        { apply (app_inv_head (out ++ [T_LINENUM (line + 1)])).
          rewrite app_nil_r. symmetry. exact Hloop. }
        exists []. cbn [count_newlines app]. repeat f_equal; lia.
      * destruct Hlast as [init ->]; [exact Hl|].
        exists (T_LINENUM (line + 1) :: init). cbn [app]. do 4 f_equal. lia.
    + assert (Hnl : Ascii.eqb ch newline = false).
      { destruct (Ascii.eqb_spec ch newline); [contradiction|reflexivity]. }
      cbn [count_newlines]. rewrite Hnl, Hcount.
      assert (Hem' : forallb token_of_lexer emitted = true /\ line_numbers emitted = []).
      { destruct Hem as [-> | (t & -> & Ht)]; [split; reflexivity|].
        cbn [forallb]. unfold token_of_lexer. rewrite Ht, orb_true_r.
        split; [reflexivity|]. destruct t; try reflexivity. discriminate Ht. }
      destruct Hem' as [He1 He2].
      rewrite forallb_app, He1, Hall, line_numbers_app, He2, Hlines.
      repeat split.
      intros Hl.
      assert (Hlc : last cursor = Some newline).
      { change (ch :: rest) with ([ch] ++ rest) in Hl.
        assert (Hrne : rest <> []).
        { intros ->. cbn in Hl. injection Hl as ->. contradiction. }
        rewrite last_app in Hl.
        assert (Hcne : cursor <> []).
        { destruct skipped as [|s skipped]; [cbn [app] in Hrest; congruence|].
          apply Hne. discriminate. }
        subst rest. rewrite last_app in Hl.
        destruct (last cursor) as [x|] eqn:Hx; [exact Hl|].
        apply last_None in Hx. contradiction. }
      destruct (Hlast Hlc) as [init ->].
      exists (emitted ++ init). rewrite <- app_assoc. reflexivity.
Qed.

Lemma count_newlines_snoc (s : list ascii) :
  count_newlines (s ++ [newline]) = S (count_newlines s).
Proof.
  induction s as [|c s IH]; [reflexivity|].
  cbn [app count_newlines]. rewrite IH. destruct (Ascii.eqb c newline); reflexivity.
Qed.

(** X1: The line markers of the lexer's output carry the numbers 1, 2, ...
    without gap: one for the start, one for every newline of the text
    (a newline inside a comment included) and one for the newline the
    lexer appends. *)
Theorem lexer_line_markers (text : string) (toks : list token) :
  lexer text = Ok toks ->
  line_numbers toks =
  lines_from 1 (count_newlines (list_ascii_of_string text) + 2).
Proof.
  unfold lexer. intros H.
  destruct (lex_loop_invariant _ _ 1 [T_LINENUM 1] toks (le_n _) H)
    as (new & -> & _ & Hlines & _).
  rewrite line_numbers_app, Hlines, count_newlines_snoc, Nat.add_comm. reflexivity.
Qed.

Lemma lexer_line_markers_witness :
  line_numbers [T_LINENUM 1; T_INSTRUCTION 1; T_NUMBER 5; T_LINENUM 2;
                T_INSTRUCTION 10; T_LINENUM 3] =
  lines_from 1 (count_newlines (list_ascii_of_string ("TAKE 5" +:+ nl +:+ "HLT")) + 2).
Proof.
  apply (lexer_line_markers ("TAKE 5" +:+ nl +:+ "HLT")). reflexivity.
Defined.



(** ** What every expression sequence of the parser looks like *)

Lemma collectCommaSeparated_cursor_suffix (tokenStream : list token) :
  exists skipped,
    tokenStream = skipped ++ collectCommaSeparated_cursor tokenStream /\
    forallb (fun t => negb (is_line_token t)) skipped = true.
Proof.
  induction tokenStream as [|t ts (skipped & Hs & Hn)];
    cbn [collectCommaSeparated_cursor].
  - exists []. split; reflexivity.
  - destruct t;
      first [ exists []; split; reflexivity
            | match goal with
              | |- context [?t :: ts] => exists (t :: skipped)
              end;
              cbn [app forallb is_line_token negb andb];
              split; [f_equal; exact Hs | exact Hn] ].
Qed.

Lemma last_no_line_token (skipped : list token) (m : Z) :
  forallb (fun t => negb (is_line_token t)) skipped = true ->
  last skipped <> Some (T_LINENUM m).
Proof.
  intros Hall Hl. apply last_Some in Hl as [init ->].
  rewrite forallb_app in Hall. apply andb_true_iff in Hall as [_ Hall].
  discriminate Hall.
Qed.

Lemma collectCommaSeparated_cursor_last (tokenStream : list token) (m : Z) :
  last tokenStream = Some (T_LINENUM m) ->
  collectCommaSeparated_cursor tokenStream <> [] /\
  last (collectCommaSeparated_cursor tokenStream) = Some (T_LINENUM m).
Proof.
  intros Hl. destruct (collectCommaSeparated_cursor_suffix tokenStream)
    as (skipped & Hs & Hn).
  rewrite Hs, last_app in Hl.
  destruct (last (collectCommaSeparated_cursor tokenStream)) as [x|] eqn:Hx.
  - split; [intros E; rewrite E in Hx; discriminate Hx | exact Hl].
  - exfalso. exact (last_no_line_token skipped m Hn Hl).
Qed.

Lemma line_numbers_no_line_token (skipped : list token) :
  forallb (fun t => negb (is_line_token t)) skipped = true ->
  line_numbers skipped = [].
Proof.
  induction skipped as [|t skipped IH]; [reflexivity|].
  cbn [forallb]. intros H. apply andb_true_iff in H as [Ht Hs].
  destruct t; cbn [line_numbers]; try (apply IH; exact Hs). discriminate Ht.
Qed.

Lemma collectCommaSeparated_cursor_lines (tokenStream : list token) :
  line_numbers (collectCommaSeparated_cursor tokenStream) = line_numbers tokenStream.
Proof.
  destruct (collectCommaSeparated_cursor_suffix tokenStream) as (skipped & Hs & Hn).
  rewrite Hs at 2. rewrite line_numbers_app, (line_numbers_no_line_token _ Hn).
  reflexivity.
Qed.

Lemma last_tail {A : Type} (x y : A) (l : list A) :
  last (x :: l) = Some y -> l = [] \/ last l = Some y.
Proof.
  destruct l as [|z l]; [left; reflexivity|]. intros H. right. exact H.
Qed.

Lemma parse_loop_invariant (n : nat) :
  forall (ts : list token) (line : Z) (out : list expression),
  (length ts <= n)%nat ->
  (forall exprs, parse_loop ts line out = Ok exprs ->
     exists tail, exprs = out ++ tail /\ forallb arity_ok tail = true) /\
  (forall ex, parse_loop ts line out = Throw ex ->
     exists l inner,
       ex = ErrorWhileParsingLine l inner /\
       (l = line \/ In l (line_numbers ts)) /\
       ((ts = [] \/ exists m, last ts = Some (T_LINENUM m)) -> inner <> JsTypeError)).
Proof.
  induction n as [|n IH]; intros ts line out Hlen.
  { destruct ts; [|cbn [length] in Hlen; lia]. split.
    - intros exprs H. injection H as <-. exists []. rewrite app_nil_r. split; reflexivity.
    - intros ex H. discriminate H. }
  destruct ts as [|t ts].
  { split.
    - intros exprs H. injection H as <-. exists []. rewrite app_nil_r. split; reflexivity.
    - intros ex H. discriminate H. }
  cbn [length] in Hlen.
  assert (Hcur : forall (index : Z) (table : list nat)
                   (mk : Z -> list (list token) -> expression),
            (forall args, arity_ok (mk index args) =
                          negb (count_differs (table_get table index) args)) ->
            let step :=
              match collectCommaSeparated_cursor ts with
              | [] => Throw (ErrorWhileParsingLine line JsTypeError)
              | _ :: _ =>
                  if count_differs (table_get table index)
                       (collectCommaSeparated_output ts [] [])
                  then Throw (ErrorWhileParsingLine line
                                (InvalidArgCount (table_get table index)
                                   (length (collectCommaSeparated_output ts [] []))))
                  else parse_loop (collectCommaSeparated_cursor ts) line
                         (out ++ [mk index (collectCommaSeparated_output ts [] [])])
              end in
            (forall exprs, step = Ok exprs ->
               exists tail, exprs = out ++ tail /\ forallb arity_ok tail = true) /\
            (forall ex, step = Throw ex ->
               exists l inner,
                 ex = ErrorWhileParsingLine l inner /\
                 (l = line \/ In l (line_numbers ts)) /\
                 ((exists m, last ts = Some (T_LINENUM m)) -> inner <> JsTypeError))).
  { intros index table mk Hmk step. subst step.
    pose proof (collectCommaSeparated_cursor_shape ts) as [_ Hle].
    pose proof (collectCommaSeparated_cursor_lines ts) as Hlines.
    destruct (collectCommaSeparated_cursor ts) as [|c cursor] eqn:Hc.
    - split; [intros exprs H; discriminate H|].
      intros ex H. injection H as <-. exists line, JsTypeError.
      repeat split; [left; reflexivity|].
      intros [m Hm]. destruct (collectCommaSeparated_cursor_last ts m Hm) as [Hne _].
      rewrite Hc in Hne. contradiction.
    - destruct (count_differs _ _) eqn:Hcount.
      + split; [intros exprs H; discriminate H|].
        intros ex H. injection H as <-. eexists _, _.
        repeat split; [left; reflexivity | discriminate].
      + destruct (IH (c :: cursor) line
                    (out ++ [mk index (collectCommaSeparated_output ts [] [])])
                    ltac:(lia)) as [IHok IHerr].
        split.
        * intros exprs H. destruct (IHok exprs H) as (tail & -> & Ht).
          exists (mk index (collectCommaSeparated_output ts [] []) :: tail).
          rewrite <- app_assoc. split; [reflexivity|].
          cbn [forallb]. rewrite Hmk, Hcount, Ht. reflexivity.
        * intros ex H. destruct (IHerr ex H) as (l & inner & -> & Hl & Hty).
          exists l, inner. repeat split.
          -- rewrite <- Hlines. exact Hl.
          -- intros [m Hm]. apply Hty. right. exists m.
             destruct (collectCommaSeparated_cursor_last ts m Hm) as [_ Hlast].
             rewrite Hc in Hlast. exact Hlast. }
  assert (Hlast_ts : forall m, last (t :: ts) = Some (T_LINENUM m) ->
                               is_line_token t = false ->
                               exists m', last ts = Some (T_LINENUM m')).
  { intros m Hm Ht. destruct (last_tail _ _ _ Hm) as [-> | Hl]; [|eauto].
    cbn in Hm. injection Hm as ->. discriminate Ht. }
  destruct t; cbn [parse_loop].
  - (* identifier *)
    destruct ts as [|t' ts'].
    { split; [intros exprs H; discriminate H|].
      intros ex H. injection H as <-. exists line, JsTypeError.
      repeat split; [left; reflexivity|].
      intros [E | [m Hm]]; [discriminate E | discriminate Hm]. }
    cbn [length] in Hlen.
    destruct t'; try (split; [intros exprs H; discriminate H|];
                      intros ex H; injection H as <-; eexists _, _;
                      repeat split; [left; reflexivity | discriminate]).
    destruct (IH ts' line (out ++ [E_LABEL name]) ltac:(lia)) as [IHok IHerr].
    split.
    + intros exprs H. destruct (IHok exprs H) as (tail & -> & Ht).
      exists (E_LABEL name :: tail). rewrite <- app_assoc. split; [reflexivity|exact Ht].
    + intros ex H. destruct (IHerr ex H) as (l & inner & -> & Hl & Hty).
      exists l, inner. repeat split; [exact Hl|].
      intros [E | [m Hm]]; [discriminate E|]. apply Hty.
      destruct (last_tail _ _ _ Hm) as [E | Hm']; [discriminate E|].
      destruct (last_tail _ _ _ Hm') as [-> | Hm'']; [left; reflexivity | right; eauto].
  - split; [intros exprs H; discriminate H|].
    intros ex H; injection H as <-; eexists _, _;
      repeat split; [left; reflexivity | discriminate].
  - split; [intros exprs H; discriminate H|].
    intros ex H; injection H as <-; eexists _, _;
      repeat split; [left; reflexivity | discriminate].
  - split; [intros exprs H; discriminate H|].
    intros ex H; injection H as <-; eexists _, _;
      repeat split; [left; reflexivity | discriminate].
  - (* mnemonic *)
    destruct (Hcur index INSTRUCTION_ARG_LENGTHS E_INSTRUCTION ltac:(reflexivity))
      as [Hok Herr].
    split; [exact Hok|].
    intros ex H. destruct (Herr ex H) as (l & inner & -> & Hl & Hty).
    exists l, inner. repeat split; [exact Hl|].
    intros [E | [m Hm]]; [discriminate E|]. apply Hty. eapply Hlast_ts; eauto.
  - (* directive *)
    destruct (Hcur index DIRECTIVE_ARG_LENGTHS E_DIRECTIVE ltac:(reflexivity))
      as [Hok Herr].
    split; [exact Hok|].
    intros ex H. destruct (Herr ex H) as (l & inner & -> & Hl & Hty).
    exists l, inner. repeat split; [exact Hl|].
    intros [E | [m Hm]]; [discriminate E|]. apply Hty. eapply Hlast_ts; eauto.
  - (* line marker *)
    destruct (IH ts line0 (out ++ [E_LINENUM line0]) ltac:(lia)) as [IHok IHerr].
    split.
    + intros exprs H. destruct (IHok exprs H) as (tail & -> & Ht).
      exists (E_LINENUM line0 :: tail). rewrite <- app_assoc.
      split; [reflexivity|exact Ht].
    + intros ex H. destruct (IHerr ex H) as (l & inner & -> & Hl & Hty).
      exists l, inner. repeat split.
      * right. cbn [line_numbers]. destruct Hl as [-> | Hl]; [left; reflexivity|].
        right. exact Hl.
      * intros [E | [m Hm]]; [discriminate E|]. apply Hty.
        destruct (last_tail _ _ _ Hm) as [-> | Hm']; [left; reflexivity | right; eauto].
  - split; [intros exprs H; discriminate H|].
    intros ex H; injection H as <-; eexists _, _;
      repeat split; [left; reflexivity | discriminate].
Qed.

(** X6: Every instruction and directive the parser returns has exactly the
    number of arguments its table entry asks for; an index outside the
    table never gets through. *)
Theorem parser_checks_arity (tokenStream : list token) (expressions : list expression) :
  parser tokenStream = Ok expressions -> forallb arity_ok expressions = true.
Proof.
  intros H.
  destruct (proj1 (parse_loop_invariant _ tokenStream (-1) [] (le_n _)) _ H)
    as (tail & -> & Ht).
  exact Ht.
Qed.

Lemma parser_checks_arity_witness :
  forallb arity_ok [E_LINENUM 1; E_INSTRUCTION 1 [[T_NUMBER 5]]; E_LINENUM 2] = true.
Proof.
  apply (parser_checks_arity [T_LINENUM 1; T_INSTRUCTION 1; T_NUMBER 5; T_LINENUM 2]).
  reflexivity.
Defined.

Lemma In_lines_from (l : Z) (k : nat) :
  forall a : Z, In l (lines_from a k) -> a <= l < a + Z.of_nat k.
Proof.
  induction k as [|k IH]; intros a H; [destruct H|].
  cbn [lines_from] in H. destruct H as [<- | H]; [lia|].
  apply IH in H. lia.
Qed.

(** X8: When the parser rejects what the lexer made of a text, the error
    carries the number of a line of that text (never the initial -1),
    and it is never the [TypeError] of a read past the end of the
    token stream. *)
Theorem parse_error_on_lexed_text (text : string) (toks : list token) (ex : js_error) :
  lexer text = Ok toks -> parser toks = Throw ex ->
  exists line inner,
    ex = ErrorWhileParsingLine line inner /\ inner <> JsTypeError /\
    1 <= line <= Z.of_nat (count_newlines (list_ascii_of_string text)) + 2.
Proof.
  intros Hlex Hp.
  assert (Hshape : line_numbers toks =
                   lines_from 1 (count_newlines (list_ascii_of_string text) + 2) /\
                   exists body last_line, toks = T_LINENUM 1 :: body ++ [T_LINENUM last_line]).
  { unfold lexer in Hlex.
    destruct (lex_loop_invariant _ _ 1 [T_LINENUM 1] toks (le_n _) Hlex)
      as (new & -> & _ & Hl & Hlast).
    split.
    - rewrite line_numbers_app, Hl, count_newlines_snoc, Nat.add_comm. reflexivity.
    - destruct Hlast as [init ->]; [apply last_snoc|]. exists init. eexists. reflexivity. }
  destruct Hshape as (Hlines & body & last_line & ->).
  destruct (proj2 (parse_loop_invariant _ _ (-1) [] (le_n _)) _ Hp)
    as (l & inner & -> & _ & Hty).
  unfold parser in Hp. cbn [parse_loop] in Hp.
  destruct (proj2 (parse_loop_invariant _ _ 1 ([] ++ [E_LINENUM 1]) (le_n _)) _ Hp)
    as (l' & inner' & Heq & Hl & _).
  injection Heq as <- <-.
  exists l, inner. repeat split.
  - apply Hty. right. eexists. rewrite app_comm_cons. apply last_snoc.
  - cbn [line_numbers] in Hlines.
    assert (Hin : In l (lines_from 1
                          (count_newlines (list_ascii_of_string text) + 2))).
    { rewrite <- Hlines. destruct Hl as [-> | Hl]; [left; reflexivity | right; exact Hl]. }
    apply In_lines_from in Hin. lia.
  - cbn [line_numbers] in Hlines.
    assert (Hin : In l (lines_from 1
                          (count_newlines (list_ascii_of_string text) + 2))).
    { rewrite <- Hlines. destruct Hl as [-> | Hl]; [left; reflexivity | right; exact Hl]. }
    apply In_lines_from in Hin. lia.
Qed.

Lemma parse_error_on_lexed_text_witness :
  exists line inner,
    ErrorWhileParsingLine 2 (InvalidArgCount (Some 0%nat) 1) =
      ErrorWhileParsingLine line inner /\ inner <> JsTypeError /\
    1 <= line <=
      Z.of_nat (count_newlines (list_ascii_of_string ("TAKE 5" +:+ nl +:+ "HLT 1"))) + 2.
Proof.
  apply (parse_error_on_lexed_text ("TAKE 5" +:+ nl +:+ "HLT 1")
           [T_LINENUM 1; T_INSTRUCTION 1; T_NUMBER 5; T_LINENUM 2; T_INSTRUCTION 10;
            T_NUMBER 1; T_LINENUM 3]); reflexivity.
Defined.

(** ** What the first pass keeps *)

Lemma pass_keeps_refl (st : state) : pass_keeps st st.
Proof. split; [lia | tauto]. Qed.

Lemma pass_keeps_same (st st' : state) :
  memory st' = memory st -> valuesToRecalculate st' = valuesToRecalculate st ->
  pass_keeps st st'.
Proof.
  intros Hm Hv. unfold pass_keeps, entries_inside. rewrite Hm, Hv. split; [lia | tauto].
Qed.

Lemma pass_keeps_trans (a b c : state) :
  pass_keeps a b -> pass_keeps b c -> pass_keeps a c.
Proof. intros [H1 H2] [H3 H4]. split; [lia | tauto]. Qed.

Lemma entries_inside_grow (entries : list (Z * option (list token))) (n m : nat) :
  (n <= m)%nat ->
  forallb (fun entry : Z * option (list token) =>
             (0 <=? fst entry) && (fst entry <? Z.of_nat n)) entries = true ->
  forallb (fun entry : Z * option (list token) =>
             (0 <=? fst entry) && (fst entry <? Z.of_nat m)) entries = true.
Proof.
  intros Hnm. induction entries as [|e entries IH]; cbn [forallb]; [reflexivity|].
  intros H. apply andb_true_iff in H as [He Hes]. rewrite (IH Hes), andb_true_r.
  apply andb_true_iff in He as [H0 H1]. apply andb_true_iff.
  split; [exact H0|]. apply Z.ltb_lt. apply Z.ltb_lt in H1. lia.
Qed.

(** A successful [emit]: the written address lies inside the new
    image, which is the old one or one cell longer. *)
Lemma emit_ok (number : Z) (st st' : state) :
  emit number st = Ok st' ->
  0 <= org st < Z.of_nat (length (memory st')) /\
  (length (memory st) <= length (memory st'))%nat /\
  valuesToRecalculate st' = valuesToRecalculate st.
Proof.
  unfold emit. intros H.
  destruct (Z.ltb_spec (Z.of_nat (length (memory st))) (org st)); [discriminate H|].
  destruct (Z.ltb_spec (org st) 0); [discriminate H|].
  injection H as <-. cbn [memory valuesToRecalculate].
  destruct (Z.eqb_spec (org st) (Z.of_nat (length (memory st)))).
  - rewrite length_app. cbn [length]. repeat split; lia.
  - rewrite length_insert. repeat split; lia.
Qed.

Lemma emit_keeps (number : Z) (st st' : state) :
  emit number st = Ok st' -> pass_keeps st st'.
Proof.
  intros H. destruct (emit_ok number st st' H) as (_ & Hlen & Hv).
  split; [exact Hlen|]. unfold entries_inside. rewrite Hv.
  apply entries_inside_grow. exact Hlen.
Qed.

Lemma emit_pushed_keeps (number : Z) (value : option (list token)) (st st' : state) :
  emit number (push_recalculate (org st) value st) = Ok st' -> pass_keeps st st'.
Proof.
  intros H. destruct (emit_ok _ _ _ H) as (Horg & Hlen & Hv).
  cbn [push_recalculate org memory valuesToRecalculate] in Horg, Hlen, Hv.
  split; [exact Hlen|]. unfold entries_inside. rewrite Hv. intros Hin.
  rewrite forallb_app. cbn [forallb fst].
  rewrite (entries_inside_grow _ _ _ Hlen Hin). cbn [andb].
  rewrite andb_true_r. apply andb_true_iff. split; [apply Z.leb_le | apply Z.ltb_lt]; lia.
Qed.

Lemma repeat_times_keeps (body : state -> outcome state) (count : nat) :
  (forall st st', body st = Ok st' -> pass_keeps st st') ->
  forall st st', repeat_times count body st = Ok st' -> pass_keeps st st'.
Proof.
  intros Hbody. induction count as [|count IH]; intros st st' H; cbn [repeat_times] in H.
  - injection H as <-. apply pass_keeps_refl.
  - destruct (body st) as [st1| |] eqn:Hb; try discriminate H. cbn [bind] in H.
    eapply pass_keeps_trans; [apply Hbody; exact Hb | apply IH; exact H].
Qed.

Lemma emitExpression_keeps (expressions : list expression) :
  forall st st', emitExpression expressions st = Ok st' -> pass_keeps st st'.
Proof.
  induction expressions as [|e following IH]; intros st st' H; [discriminate H|].
  destruct e; cbn [emitExpression] in H.
  - injection H as <-. apply pass_keeps_same; reflexivity.
  - unfold assembleInstruction in H. destruct (exact _); try discriminate H.
    cbn [bind] in H. destruct (args !! 0%nat).
    + eapply emit_pushed_keeps. exact H.
    + eapply emit_keeps. exact H.
  - destruct (index =? D_ORG).
    { destruct (tokenStreamAsNumber _ _); try discriminate H. cbn [bind] in H.
      injection H as <-. apply pass_keeps_same; reflexivity. }
    destruct (index =? D_TIMES).
    { destruct (tokenStreamAsNumber _ _); try discriminate H. cbn [bind] in H.
      eapply repeat_times_keeps; [exact IH | exact H]. }
    destruct (index =? D_DV).
    { eapply emit_pushed_keeps. exact H. }
    injection H as <-. apply pass_keeps_refl.
  - injection H as <-. apply pass_keeps_same; reflexivity.
Qed.

Lemma first_pass_keeps (n : nat) :
  forall (expressions : list expression) (st st' : state),
  (length expressions <= n)%nat ->
  first_pass expressions st = Ok st' -> pass_keeps st st'.
Proof.
  induction n as [|n IH]; intros expressions st st' Hlen H.
  - destruct expressions; [|cbn [length] in Hlen; lia].
    injection H as <-. apply pass_keeps_refl.
  - destruct expressions as [|e following].
    { injection H as <-. apply pass_keeps_refl. }
    cbn [length] in Hlen. cbn [first_pass] in H.
    destruct (emitExpression (e :: following) st) as [st1| |] eqn:He;
      try discriminate H.
    cbn [bind] in H. apply emitExpression_keeps in He.
    eapply pass_keeps_trans; [exact He|].
    destruct (skips_next e).
    + destruct following as [|e' following'].
      * injection H as <-. apply pass_keeps_refl.
      * cbn [length] in Hlen. eapply IH; [|exact H]. lia.
    + eapply IH; [|exact H]. lia.
Qed.

(** X11: After a first pass that returns, the image has at least its 1000
    initial cells and every deferred entry names one of its cells. *)
Theorem first_pass_state (expressions : list expression) (st : state) :
  first_pass expressions initial_state = Ok st ->
  (1000 <= length (memory st))%nat /\ entries_inside st = true.
Proof.
  intros H. destruct (first_pass_keeps _ _ _ _ (le_n _) H) as [Hlen Hin].
  cbn [initial_state memory] in Hlen. rewrite length_replicate in Hlen.
  split; [exact Hlen | apply Hin; reflexivity].
Qed.

Lemma first_pass_state_witness :
  exists st,
    first_pass [E_INSTRUCTION 1 [[T_NUMBER 5]]] initial_state = Ok st /\
    (1000 <= length (memory st))%nat /\ entries_inside st = true.
Proof.
  eexists. split; [vm_compute; reflexivity|].
  eapply (first_pass_state [E_INSTRUCTION 1 [[T_NUMBER 5]]]).
  vm_compute. reflexivity.
Defined.

(** ** What the relocation pass changes *)

Section RelocationEffect.

Variable host_binds : string -> bool.

Lemma or_assign_ok (memory memory' : list Z) (address : Z) (v : js_value) :
  or_assign memory address v = Ok memory' ->
  length memory' = length memory /\
  forall i : nat, address <> Z.of_nat i -> memory' !! i = memory !! i.
Proof.
  unfold or_assign. intros H.
  destruct (Z.ltb_spec address 0); [discriminate H|].
  destruct (memory !! Z.to_nat address); [|discriminate H].
  destruct (toInt32 v); try discriminate H. cbn [bind] in H. injection H as <-.
  split; [apply length_insert|].
  intros i Hi. apply list_lookup_insert_ne. lia.
Qed.

Lemma relocate_ok (labels : gmap string Z) (entries : list (Z * option (list token))) :
  forall memory memory' : list Z,
  relocate host_binds labels entries memory = Ok memory' ->
  length memory' = length memory /\
  forall i : nat,
    (forall entry, In entry entries -> fst entry <> Z.of_nat i) ->
    memory' !! i = memory !! i.
Proof.
  induction entries as [|[address value] entries IH]; intros memory memory' H;
    cbn [relocate] in H.
  - injection H as <-. split; reflexivity.
  - destruct (shadows_with_block labels); [discriminate H|].
    destruct (match value with
              | Some ts => join_contents ts
              | None => Throw JsTypeError
              end); try discriminate H. cbn [bind] in H.
    destruct (js_eval host_binds labels a); try discriminate H. cbn [bind] in H.
    destruct (or_assign memory address a0) as [m1| |] eqn:Ho; try discriminate H.
    cbn [bind] in H. destruct (or_assign_ok _ _ _ _ Ho) as [Hlen1 Hcells1].
    destruct (IH m1 memory' H) as [Hlen Hcells].
    split; [congruence|].
    intros i Hi. rewrite Hcells.
    + apply Hcells1. apply (Hi (address, value)). left. reflexivity.
    + intros entry He. apply Hi. right. exact He.
Qed.

(** X26: The image [assembler] returns is never shorter than 1000 cells. *)
Theorem assembler_image_at_least_1000 (expressions : list expression) (image : list Z) :
  assembler host_binds expressions = Ok image -> (1000 <= length image)%nat.
Proof.
  unfold assembler. intros H.
  destruct (first_pass expressions initial_state) as [st| |] eqn:Hf; try discriminate H.
  cbn [bind] in H. destruct (relocate_ok _ _ _ _ H) as [Hlen _].
  destruct (first_pass_keeps _ _ _ _ (le_n _) Hf) as [H1000 _].
  cbn [initial_state memory] in H1000. rewrite length_replicate in H1000. lia.
Qed.

(** X27: The relocation pass changes neither the length of the image nor
    any cell that has no deferred entry: such a cell keeps the word
    the first pass left in it. *)
Theorem relocation_changes_deferred_cells_only (expressions : list expression)
  (st : state) (image : list Z) :
  first_pass expressions initial_state = Ok st ->
  assembler host_binds expressions = Ok image ->
  length image = length (memory st) /\
  forall i : nat,
    (forall entry, In entry (valuesToRecalculate st) -> fst entry <> Z.of_nat i) ->
    image !! i = memory st !! i.
Proof.
  unfold assembler. intros Hf H. rewrite Hf in H. cbn [bind] in H.
  exact (relocate_ok _ _ _ _ H).
Qed.

End RelocationEffect.

Lemma assembler_image_at_least_1000_witness :
  (1000 <= length (replicate 1000 0%Z ++ [10000%Z]))%nat.
Proof.
  apply (assembler_image_at_least_1000 bare_host
           [E_DIRECTIVE D_ORG [[T_NUMBER 1000]]; E_INSTRUCTION 10 []]).
  vm_compute. reflexivity.
Defined.

Lemma relocation_changes_deferred_cells_only_witness :
  exists st image,
    first_pass [E_INSTRUCTION 10 []; E_INSTRUCTION 1 [[T_NUMBER 5]]] initial_state
      = Ok st /\
    length image = length (memory st) /\
    forall i : nat,
      (forall entry, In entry (valuesToRecalculate st) -> fst entry <> Z.of_nat i) ->
      image !! i = memory st !! i.
Proof.
  eexists. exists (10000 :: 1005 :: replicate 998 0).
  split; [vm_compute; reflexivity|].
  eapply (relocation_changes_deferred_cells_only bare_host
            [E_INSTRUCTION 10 []; E_INSTRUCTION 1 [[T_NUMBER 5]]]);
    vm_compute; reflexivity.
Defined.

(** ** Number literals *)

Lemma uint_chars_digits (d : Decimal.uint) :
  forallb (includes NUMBERS) (list_ascii_of_string (NilEmpty.string_of_uint d)) = true.
Proof. induction d; cbn; try assumption; reflexivity. Qed.

Lemma parseInt_uint_acc (d : Decimal.uint) :
  forall acc : positive,
  fold_left (fun acc c => 10 * acc + digit_value c)
            (list_ascii_of_string (NilEmpty.string_of_uint d)) (Z.pos acc) =
  Z.pos (Pos.of_uint_acc d acc).
Proof.
  induction d; intros acc;
    cbn [NilEmpty.string_of_uint list_ascii_of_string fold_left Pos.of_uint_acc];
    try reflexivity;
    match goal with
    | |- fold_left _ _ ?z = Z.pos (Pos.of_uint_acc _ ?p) =>
        replace z with (Z.pos p) by (vm_compute digit_value; lia)
    end; apply IHd.
Qed.

Lemma parseInt_uint (d : Decimal.uint) :
  parseInt (list_ascii_of_string (NilEmpty.string_of_uint d)) = Z.of_N (Pos.of_uint d).
Proof.
  unfold parseInt.
  induction d;
    cbn [NilEmpty.string_of_uint list_ascii_of_string fold_left Pos.of_uint];
    try reflexivity; try exact IHd;
    match goal with
    | |- fold_left _ _ ?z = Z.of_N (N.pos (Pos.of_uint_acc _ ?p)) =>
        change z with (Z.pos p)
    end; apply parseInt_uint_acc.
Qed.

Lemma nzhead_not_D0 (d d' : Decimal.uint) : Decimal.nzhead d <> Decimal.D0 d'.
Proof. induction d; cbn [Decimal.nzhead]; try discriminate. exact IHd. Qed.

Lemma to_uint_not_D0 (p : positive) (d : Decimal.uint) : Pos.to_uint p <> Decimal.D0 d.
Proof.
  intros H.
  pose proof (DecimalPos.Unsigned.to_of (Pos.to_uint p)) as Hn.
  rewrite DecimalPos.Unsigned.of_to in Hn. cbn [N.to_uint] in Hn.
  unfold Decimal.unorm in Hn.
  destruct (Decimal.nzhead (Pos.to_uint p)) eqn:Hz;
    try (rewrite Hn in H; discriminate H).
  - apply (DecimalPos.Unsigned.to_uint_nonzero p). exact Hn.
  - exact (nzhead_not_D0 _ _ Hz).
Qed.

Lemma leading_zero_uint (d : Decimal.uint) :
  (forall d', d <> Decimal.D0 d') ->
  leading_zero (list_ascii_of_string (NilEmpty.string_of_uint d)) = false.
Proof.
  intros H. destruct d; cbn [NilEmpty.string_of_uint list_ascii_of_string];
    try reflexivity;
    try (destruct (list_ascii_of_string (NilEmpty.string_of_uint d)); reflexivity).
  exfalso. exact (H d eq_refl).
Qed.

(** The text [toString] gives for a number token, read back by the
    tokenizer of [eval], is that number. *)
Lemma js_tokenize_number (n : Z) :
  0 <= n < MAX_SAFE ->
  exists text,
    number_toString n = Ok text /\
    js_tokenize (list_ascii_of_string text) = Ok [JS_NUM n].
Proof.
  intros Hn. unfold number_toString. rewrite exact_small by lia. cbn [bind].
  eexists. split; [reflexivity|].
  destruct n as [|p|p]; [vm_compute; reflexivity | | lia].
  cbn [Z.to_int NilZero.string_of_int]. unfold NilZero.string_of_uint.
  pose proof (DecimalPos.Unsigned.to_uint_nonnil p) as Hnil.
  pose proof (to_uint_not_D0 p) as Hd0.
  pose proof (uint_chars_digits (Pos.to_uint p)) as Hdig.
  pose proof (leading_zero_uint _ Hd0) as Hlead.
  pose proof (parseInt_uint (Pos.to_uint p)) as Hval.
  rewrite DecimalPos.Unsigned.of_to in Hval. cbn [Z.of_N] in Hval.
  assert (Hs : match Pos.to_uint p with
               | Decimal.Nil => "0"
               | _ => NilEmpty.string_of_uint (Pos.to_uint p)
               end = NilEmpty.string_of_uint (Pos.to_uint p)).
  { destruct (Pos.to_uint p); [contradiction | reflexivity ..]. }
  rewrite Hs.
  destruct (list_ascii_of_string (NilEmpty.string_of_uint (Pos.to_uint p)))
    as [|c cs] eqn:Hcs.
  { destruct (Pos.to_uint p); try discriminate Hcs. contradiction. }
  cbn [forallb] in Hdig. apply andb_true_iff in Hdig as [Hc Hcs'].
  cbn [js_tokenize]. rewrite Hc, collectWhile_output_all, collectWhile_cursor_all
    by exact Hcs'.
  rewrite Hlead, Hval. cbn [at_boundary negb orb].
  rewrite exact_small by lia. reflexivity.
Qed.

Section NumberOperand.

Variable host_binds : string -> bool.

Lemma js_eval_number (labels : gmap string Z) (n : Z) :
  0 <= n < MAX_SAFE ->
  exists text,
    number_toString n = Ok text /\ js_eval host_binds labels text = Ok (JNum n).
Proof.
  intros Hn. destruct (js_tokenize_number n Hn) as (text & Ht & Htok).
  exists text. split; [exact Ht|]. unfold js_eval. rewrite Htok. reflexivity.
Qed.

(** The relocation of one operand that is a number literal. *)
Lemma relocate_number (labels : gmap string Z) (n : Z) (cell : nat) (old : Z)
  (memory : list Z) :
  0 <= n < MAX_SAFE -> shadows_with_block labels = false ->
  memory !! cell = Some old ->
  relocate host_binds labels [(Z.of_nat cell, Some [T_NUMBER n])] memory =
  Ok (<[cell := js_or old (wrap32 n)]> memory).
Proof.
  intros Hn Hs Hm. destruct (js_eval_number labels n Hn) as (text & Ht & He).
  cbn [relocate join_contents contents_toString bind]. rewrite Hs, Ht. cbn [bind].
  rewrite append_empty_r, He. cbn [bind].
  unfold or_assign. destruct (Z.ltb_spec (Z.of_nat cell) 0); [lia|].
  rewrite Nat2Z.id, Hm. reflexivity.
Qed.

End NumberOperand.

Lemma decimal_text_inv (digits : string) :
  decimal_text digits = true ->
  exists c cs, list_ascii_of_string digits = c :: cs /\
               includes NUMBERS c = true /\ forallb (includes NUMBERS) cs = true.
Proof.
  unfold decimal_text. destruct (list_ascii_of_string digits) as [|c cs]; [discriminate|].
  cbn [forallb]. intros H. apply andb_true_iff in H as [Hc Hcs]. eauto.
Qed.

Lemma number_of_nonneg (digits : string) :
  decimal_text digits = true -> 0 <= number_of digits.
Proof.
  intros H. destruct (decimal_text_inv digits H) as (c & cs & Hl & Hc & Hcs).
  unfold number_of, parseInt. rewrite Hl. apply parseInt_fold_nonneg; [|lia].
  cbn [forallb]. rewrite Hc, Hcs. reflexivity.
Qed.

(** The lexer reads a run of digits as one number token. *)
Lemma lex_loop_decimal_text (digits : string) (d : ascii) (rest : list ascii)
  (line : Z) (out : list token) :
  decimal_text digits = true -> includes NUMBERS d = false ->
  number_of digits < MAX_SAFE ->
  lex_loop (list_ascii_of_string digits ++ d :: rest) line out =
  lex_loop (d :: rest) line (out ++ [T_NUMBER (number_of digits)]).
Proof.
  intros Hdec Hd Hsafe. pose proof (number_of_nonneg digits Hdec) as Hpos.
  destruct (decimal_text_inv digits Hdec) as (c & cs & Hl & Hc & Hcs).
  unfold number_of in *. rewrite Hl in *.
  destruct (digit_facts c Hc) as (H7 & Hup & Hsp & Hnl & _).
  change ((c :: cs) ++ d :: rest) with (c :: cs ++ d :: rest).
  cbn [lex_loop]. rewrite H7, Hup, Hsp, Hnl, Hc. cbn [negb].
  rewrite collectWhile_output_app, collectWhile_cursor_app by assumption.
  rewrite exact_small by lia. reflexivity.
Qed.

(** ** Literal operands and the set-origin directive, on source text *)

Lemma lexer_instruction_number (mnemonic digits : string) (index : Z) :
  capital_word mnemonic = true -> indexOf INSTRUCTIONS mnemonic = Some index ->
  decimal_text digits = true -> number_of digits < MAX_SAFE ->
  lexer (mnemonic +:+ " " +:+ digits) =
  Ok [T_LINENUM 1; T_INSTRUCTION index; T_NUMBER (number_of digits); T_LINENUM 2].
Proof.
  intros Hw Hi Hd Hs. unfold lexer.
  rewrite !list_ascii_of_string_app, <- !app_assoc.
  change (list_ascii_of_string " " ++ ?l) with (" "%char :: l).
  rewrite lex_loop_capital_word, Hi by (assumption || reflexivity).
  change (lex_loop (" "%char :: ?l) ?line ?out) with (lex_loop l line out).
  rewrite lex_loop_decimal_text by (assumption || reflexivity).
  reflexivity.
Qed.

Section LiteralOperand.

Variable host_binds : string -> bool.

Lemma assembler_instruction_number (index v : Z) (l1 l2 : Z) :
  0 <= index <= 10 -> 0 <= v < 2 ^ 31 ->
  assembler host_binds [E_LINENUM l1; E_INSTRUCTION index [[T_NUMBER v]]; E_LINENUM l2] =
  Ok (<[0%nat := Z.lor (index * 1000) v]> (replicate 1000 0)).
Proof.
  intros Hk Hv. unfold assembler.
  cbn [first_pass emitExpression skips_next bind assembleInstruction lookup list_lookup].
  rewrite exact_small by (unfold MAX_SAFE; lia). cbn [bind].
  rewrite emit_inside
    by (cbn [push_recalculate initial_state org memory]; rewrite length_replicate; lia).
  cbn [bind labels valuesToRecalculate memory org push_recalculate initial_state app].
  rewrite (relocate_number host_binds ∅ v 0%nat (1000 * index));
    [| unfold MAX_SAFE; lia | reflexivity | reflexivity].
  rewrite list_insert_insert_eq, wrap32_small, js_or_small by lia.
  rewrite Z.mul_comm. reflexivity.
Qed.

End LiteralOperand.

(** X18: For every one-operand mnemonic and every run of digits whose value
    [v] is below 2^31, the program that applies the mnemonic to the
    number assembles to 1000 zero cells with cell 0 set to
    opcode * 1000 OR-ed with [v]; leading zeros of the digits do not
    matter. *)
Theorem literal_operand_word (host_binds : string -> bool) (mnemonic digits : string)
  (opcode : nat) :
  INSTRUCTIONS !! opcode = Some mnemonic ->
  INSTRUCTION_ARG_LENGTHS !! opcode = Some 1%nat ->
  decimal_text digits = true -> number_of digits < 2 ^ 31 ->
  assemble host_binds (mnemonic +:+ " " +:+ digits) =
  Ok (<[0%nat := Z.lor (Z.of_nat opcode * 1000) (number_of digits)]> (replicate 1000 0)).
Proof.
  intros Hm Ha Hd Hv. pose proof (number_of_nonneg digits Hd) as Hpos.
  unfold assemble.
  destruct opcode as [|[|[|[|[|[|[|[|[|[|[|opcode]]]]]]]]]]]; try discriminate Ha;
    injection Hm as <-;
    erewrite lexer_instruction_number
      by (try reflexivity; try assumption; unfold MAX_SAFE; lia);
    cbn [bind]; unfold parser;
    cbn [parse_loop collectCommaSeparated_cursor collectCommaSeparated_output app
           bind];
    change (count_differs _ _) with false; cbn iota; cbn [bind];
    apply (assembler_instruction_number host_binds _ (number_of digits) 1 2); lia.
Qed.

Lemma literal_operand_word_witness :
  assemble bare_host ("TAKE" +:+ " " +:+ "005") =
  Ok (<[0%nat := Z.lor (Z.of_nat 1 * 1000) (number_of "005")]> (replicate 1000 0)).
Proof. apply (literal_operand_word bare_host "TAKE" "005" 1); reflexivity. Defined.

(** ** The set-origin directive on source text *)

Lemma lexer_org_then_hlt (digits : string) :
  decimal_text digits = true -> number_of digits < MAX_SAFE ->
  lexer ("#ORG " +:+ digits +:+ nl +:+ "HLT") =
  Ok [T_LINENUM 1; T_DIRECTIVE D_ORG; T_NUMBER (number_of digits); T_LINENUM 2;
      T_INSTRUCTION 10; T_LINENUM 3].
Proof.
  intros Hd Hs. unfold lexer.
  rewrite !list_ascii_of_string_app, <- !app_assoc.
  change (list_ascii_of_string "#ORG " ++ ?l)
    with ("#"%char :: "O"%char :: "R"%char :: "G"%char :: " "%char :: l).
  change (list_ascii_of_string nl ++ ?l) with (newline :: l).
  change (lex_loop ("#"%char :: "O"%char :: "R"%char :: "G"%char :: " "%char :: ?l)
            ?line ?out)
    with (lex_loop l line (out ++ [T_DIRECTIVE D_ORG])).
  rewrite lex_loop_decimal_text by (assumption || reflexivity).
  reflexivity.
Qed.

Lemma parser_org_then_hlt (v : Z) :
  parser [T_LINENUM 1; T_DIRECTIVE D_ORG; T_NUMBER v; T_LINENUM 2;
          T_INSTRUCTION 10; T_LINENUM 3] =
  Ok [E_LINENUM 1; E_DIRECTIVE D_ORG [[T_NUMBER v]]; E_LINENUM 2;
      E_INSTRUCTION 10 []; E_LINENUM 3].
Proof. reflexivity. Qed.

(** X14: After [#ORG v] with [v] below 1000 the next instruction is written
    at cell [v], and nowhere else: the text made of the directive and a
    HLT line assembles to 1000 zero cells with cell [v] set to 10000. *)
Theorem set_origin_places_next_write (host_binds : string -> bool) (digits : string) :
  decimal_text digits = true -> number_of digits < 1000 ->
  assemble host_binds ("#ORG " +:+ digits +:+ nl +:+ "HLT") =
  Ok (<[Z.to_nat (number_of digits) := 10000]> (replicate 1000 0)).
Proof.
  intros Hd Hv. pose proof (number_of_nonneg digits Hd) as Hpos.
  unfold assemble.
  rewrite lexer_org_then_hlt by (try assumption; unfold MAX_SAFE; lia).
  cbn [bind]. rewrite parser_org_then_hlt. cbn [bind]. unfold assembler.
  cbn [first_pass emitExpression skips_next bind assembleInstruction lookup list_lookup
         tokenStreamAsNumber].
  change (D_ORG =? D_ORG) with true. change (D_ORG =? D_TIMES) with false. cbn iota.
  cbn [first_pass emitExpression skips_next bind assembleInstruction lookup list_lookup
         tokenStreamAsNumber].
  change (exact (1000 * 10)) with (Ok (A := Z) 10000). cbn [bind].
  rewrite emit_inside
    by (cbn [initial_state org memory]; rewrite length_replicate; lia).
  reflexivity.
Qed.

Lemma set_origin_places_next_write_witness :
  assemble bare_host ("#ORG " +:+ "0999" +:+ nl +:+ "HLT") =
  Ok (<[Z.to_nat (number_of "0999") := 10000]> (replicate 1000 0)).
Proof.
  apply (set_origin_places_next_write bare_host "0999"); [reflexivity | vm_compute; reflexivity].
Defined.

(** X15: After [#ORG v] with [v] above 1000 (and below 2^53) the next write
    is rejected: the run fails with the out-of-memory error, wrapped
    with the line number of the instruction, line 2. *)
Theorem set_origin_beyond_end_rejected (host_binds : string -> bool) (digits : string) :
  decimal_text digits = true -> 1000 < number_of digits < MAX_SAFE ->
  assemble host_binds ("#ORG " +:+ digits +:+ nl +:+ "HLT") =
  Throw (ErrorWhileAssemblingLine 2 EmittingOutsideOfMemory).
Proof.
  intros Hd Hv. unfold assemble.
  rewrite lexer_org_then_hlt by (try assumption; lia).
  cbn [bind]. rewrite parser_org_then_hlt. cbn [bind]. unfold assembler.
  cbn [first_pass emitExpression skips_next bind assembleInstruction lookup list_lookup
         tokenStreamAsNumber].
  change (D_ORG =? D_ORG) with true. change (D_ORG =? D_TIMES) with false. cbn iota.
  cbn [first_pass emitExpression skips_next bind assembleInstruction lookup list_lookup
         tokenStreamAsNumber].
  change (exact (1000 * 10)) with (Ok (A := Z) 10000). cbn [bind].
  unfold emit. cbn [initial_state org memory lineNumber]. rewrite length_replicate.
  destruct (Z.ltb_spec (Z.of_nat 1000) (number_of digits)); [reflexivity | lia].
Qed.

Lemma set_origin_beyond_end_rejected_witness :
  assemble bare_host ("#ORG " +:+ "1001" +:+ nl +:+ "HLT") =
  Throw (ErrorWhileAssemblingLine 2 EmittingOutsideOfMemory).
Proof.
  apply (set_origin_beyond_end_rejected bare_host "1001");
    [reflexivity | vm_compute; split; reflexivity].
Defined.

(** ** Where the lexer's errors point *)

Lemma upper_hash (c : ascii) :
  Ascii.eqb (toUpperCase c) "#" = true -> c = "#"%char.
Proof.
  destruct c as [b0 b1 b2 b3 b4 b5 b6 b7].
  destruct b0, b1, b2, b3, b4, b5, b6, b7; vm_compute; intros H;
    try discriminate H; reflexivity.
Qed.

(** One turn of the lexer's loop that ends in an error: either the
    error is raised behind this turn, or this turn raises it with the
    current line number. *)
Lemma lex_loop_throw_step (ch : ascii) (rest : list ascii) (line : Z)
  (out : list token) (ex : js_error) :
  lex_loop (ch :: rest) line out = Throw ex ->
  (exists (skipped cursor : list ascii) (emitted : list token),
     rest = skipped ++ cursor /\ forallb not_newline skipped = true /\
     lex_loop cursor (if Ascii.eqb ch newline then line + 1 else line)
       (out ++ emitted) = Throw ex) \/
  (ch <> newline /\ ex = UnexpectedSymbol (toUpperCase ch) line) \/
  (ch = "#"%char /\
   exists (directive : string) (cursor : list ascii),
     rest = list_ascii_of_string directive ++ cursor /\
     forallb isLetter (list_ascii_of_string directive) = true /\
     indexOf COMPILER_DIRECTIVES directive = None /\
     ex = NoSuchDirective directive line).
Proof.
  intros H. cbn [lex_loop] in H.
  destruct (is_ascii7 ch) eqn:H7; cbn [negb] in H; [|discriminate H].
  destruct (Ascii.eqb (toUpperCase ch) " ") eqn:Hsp.
  { left. exists [], rest, []. rewrite app_nil_r.
    assert (Hnl : Ascii.eqb ch newline = false).
    { destruct (Ascii.eqb_spec ch newline) as [->|]; [discriminate Hsp|reflexivity]. }
    rewrite Hnl. repeat split. exact H. }
  destruct (Ascii.eqb (toUpperCase ch) newline) eqn:Hnl.
  { left. rewrite upper_newline in Hnl. rewrite Hnl.
    exists [], rest, [T_LINENUM (line + 1)]. repeat split. exact H. }
  rewrite upper_newline in Hnl. rewrite Hnl.
  assert (Hne : ch <> newline).
  { intros ->. discriminate Hnl. }
  destruct (includes NUMBERS (toUpperCase ch)) eqn:Hnum.
  { left. destruct (collectWhile_split (includes NUMBERS) rest) as [Hsplit Hall].
    destruct (collectWhile_cursor (includes NUMBERS) rest) as [|c cursor] eqn:Hcur;
      [discriminate H|].
    destruct (exact _) as [n| |] eqn:Hex; try discriminate H.
    - exists (collectWhile_output (includes NUMBERS) rest), (c :: cursor), [T_NUMBER n].
      repeat split; try assumption.
      apply (forallb_not_newline (includes NUMBERS)); [reflexivity | exact Hall].
    - unfold exact in Hex. destruct (_ <? _); discriminate Hex. }
  destruct (includes SYMBOLS (toUpperCase ch)) eqn:Hsym.
  { left. exists [], rest, [T_ARITH_SYMBOL (toUpperCase ch)]. repeat split. exact H. }
  destruct (isLetter (toUpperCase ch)) eqn:Hlet.
  { left. destruct (collectWhile_split isLetterOrNumber rest) as [Hsplit Hall].
    destruct (collectWhile_cursor isLetterOrNumber rest) as [|c cursor] eqn:Hcur;
      [discriminate H|].
    destruct (indexOf INSTRUCTIONS _) as [index|] eqn:Hidx.
    - exists (collectWhile_output isLetterOrNumber rest), (c :: cursor),
        [T_INSTRUCTION index].
      repeat split; try assumption.
      apply (forallb_not_newline isLetterOrNumber); [reflexivity | exact Hall].
    - exists (collectWhile_output isLetterOrNumber rest), (c :: cursor),
        [T_IDENT (string_of_list_ascii
                    (toUpperCase ch :: collectWhile_output isLetterOrNumber rest))].
      repeat split; try assumption.
      apply (forallb_not_newline isLetterOrNumber); [reflexivity | exact Hall]. }
  destruct (Ascii.eqb (toUpperCase ch) ":") eqn:Hcolon.
  { left. exists [], rest, [T_LABEL_MAKER]. repeat split. exact H. }
  destruct (Ascii.eqb (toUpperCase ch) "#") eqn:Hhash.
  { destruct (collectWhile_split isLetter rest) as [Hsplit Hall].
    destruct (collectWhile_cursor isLetter rest) as [|c cursor] eqn:Hcur;
      [discriminate H|].
    destruct (indexOf COMPILER_DIRECTIVES _) as [index|] eqn:Hidx.
    - left. exists (collectWhile_output isLetter rest), (c :: cursor), [T_DIRECTIVE index].
      repeat split; try assumption.
      apply (forallb_not_newline isLetter); [reflexivity | exact Hall].
    - right. right. split; [apply upper_hash; exact Hhash|].
      exists (string_of_list_ascii (collectWhile_output isLetter rest)), (c :: cursor).
      rewrite list_ascii_of_string_of_list_ascii.
      repeat split; try assumption. injection H as <-. reflexivity. }
  destruct (Ascii.eqb (toUpperCase ch) ",") eqn:Hcomma.
  { left. exists [], rest, [T_COMMA]. repeat split. exact H. }
  destruct (Ascii.eqb (toUpperCase ch) ";") eqn:Hsemi.
  { left.
    destruct (collectWhile_split (fun e => negb (Ascii.eqb e newline)) rest)
      as [Hsplit Hall].
    destruct (collectWhile_cursor (fun e => negb (Ascii.eqb e newline)) rest)
      as [|c cursor] eqn:Hcur; [discriminate H|].
    exists (collectWhile_output (fun e => negb (Ascii.eqb e newline)) rest),
      (c :: cursor), [].
    rewrite app_nil_r. repeat split; assumption. }
  right. left. split; [exact Hne|]. injection H as <-. reflexivity.
Qed.

Lemma lex_loop_error_position (n : nat) :
  forall (input : list ascii) (line : Z) (out : list token) (ex : js_error),
  (length input <= n)%nat ->
  lex_loop input line out = Throw ex ->
  exists (before : list ascii) (ch : ascii) (after : list ascii),
    input = before ++ ch :: after /\ ch <> newline /\
    (ex = UnexpectedSymbol (toUpperCase ch) (line + Z.of_nat (count_newlines before)) \/
     (ch = "#"%char /\
      exists (directive : string) (cursor : list ascii),
        after = list_ascii_of_string directive ++ cursor /\
        forallb isLetter (list_ascii_of_string directive) = true /\
        indexOf COMPILER_DIRECTIVES directive = None /\
        ex = NoSuchDirective directive (line + Z.of_nat (count_newlines before)))).
Proof.
  induction n as [|n IH]; intros input line out ex Hlen H.
  - destruct input; [discriminate H | cbn [length] in Hlen; lia].
  - destruct input as [|ch rest]; [discriminate H|].
    cbn [length] in Hlen.
    destruct (lex_loop_throw_step ch rest line out ex H)
      as [(skipped & cursor & emitted & Hrest & Hskip & Hloop)
         | [(Hne & ->) | (-> & directive & cursor & Hrest & Hall & Hidx & ->)]].
    + assert (Hclen : (length cursor <= n)%nat).
      { subst rest. rewrite length_app in Hlen. lia. }
      destruct (IH cursor _ _ ex Hclen Hloop)
        as (before & ch' & after & Hcur & Hne & Hex).
      exists (ch :: skipped ++ before), ch', after.
      split; [subst rest cursor; cbn [app]; rewrite <- app_assoc; reflexivity|].
      split; [exact Hne|].
      assert (Hline : (if Ascii.eqb ch newline then line + 1 else line) +
                      Z.of_nat (count_newlines before) =
                      line + Z.of_nat (count_newlines (ch :: skipped ++ before))).
      { cbn [count_newlines]. rewrite (count_newlines_skipped _ _ Hskip).
        destruct (Ascii.eqb ch newline); lia. }
      rewrite <- Hline. exact Hex.
    + exists [], ch, rest. cbn [app count_newlines]. rewrite Z.add_0_r.
      repeat split; [exact Hne|]. left. reflexivity.
    + exists [], "#"%char, rest. cbn [app count_newlines]. rewrite Z.add_0_r.
      repeat split; [discriminate|]. right. split; [reflexivity|].
      exists directive, cursor. repeat split; assumption.
Qed.

Lemma snoc_cases {A : Type} (l : list A) :
  l = [] \/ exists (l' : list A) (x : A), l = l' ++ [x].
Proof.
  induction l as [|x l' _] using rev_ind; [left; reflexivity|].
  right. exists l', x. reflexivity.
Qed.

Lemma forallb_isLetter_no_newline (l : list ascii) :
  forallb isLetter l = true -> ~ In newline l.
Proof.
  intros H Hin. rewrite forallb_forall in H. specialize (H _ Hin). discriminate H.
Qed.

(** X3: Every error of the lexer points at a character of the text and
    names the line that character stands on (1 plus the number of
    newlines before it): either the character is one the lexer has no
    rule for, and the error quotes it in upper case, or it is a [#]
    followed by a run of capital letters that is none of ORG, TIMES,
    DV, and the error quotes that run. *)
Theorem lexer_error_names_line (text : string) (ex : js_error) :
  lexer text = Throw ex ->
  exists (before : list ascii) (ch : ascii) (after : list ascii),
    list_ascii_of_string text = before ++ ch :: after /\
    (ex = UnexpectedSymbol (toUpperCase ch) (1 + Z.of_nat (count_newlines before)) \/
     (ch = "#"%char /\
      exists (directive : string) (cursor : list ascii),
        after = list_ascii_of_string directive ++ cursor /\
        forallb isLetter (list_ascii_of_string directive) = true /\
        indexOf COMPILER_DIRECTIVES directive = None /\
        ex = NoSuchDirective directive (1 + Z.of_nat (count_newlines before)))).
Proof.
  unfold lexer. intros H.
  destruct (lex_loop_error_position _ _ 1 [T_LINENUM 1] ex (le_n _) H)
    as (before & ch & after & Hsplit & Hne & Hex).
  destruct (snoc_cases after) as [-> | (after' & x & ->)].
  { change (before ++ [ch]) with (before ++ [ch]) in Hsplit.
    apply app_inj_tail in Hsplit as [_ Hc]. symmetry in Hc. contradiction. }
  change (before ++ ch :: after' ++ [x]) with (before ++ (ch :: after') ++ [x]) in Hsplit.
  rewrite app_assoc in Hsplit. apply app_inj_tail in Hsplit as [Htext <-].
  exists before, ch, after'. split; [exact Htext|].
  destruct Hex as [-> | (-> & directive & cursor & Hafter & Hall & Hidx & ->)];
    [left; reflexivity|].
  right. split; [reflexivity|].
  destruct (snoc_cases cursor) as [-> | (cursor' & y & ->)].
  { rewrite app_nil_r in Hafter. exfalso.
    apply (forallb_isLetter_no_newline _ Hall). rewrite <- Hafter.
    apply in_or_app. right. left. reflexivity. }
  rewrite app_assoc in Hafter. apply app_inj_tail in Hafter as [Hafter _].
  exists directive, cursor'. repeat split; assumption.
Qed.

Lemma lexer_error_names_line_witness :
  exists (before : list ascii) (ch : ascii) (after : list ascii),
    list_ascii_of_string ("HLT" +:+ nl +:+ "#ORIGIN 5") = before ++ ch :: after /\
    (NoSuchDirective "ORIGIN" 2 =
       UnexpectedSymbol (toUpperCase ch) (1 + Z.of_nat (count_newlines before)) \/
     (ch = "#"%char /\
      exists (directive : string) (cursor : list ascii),
        after = list_ascii_of_string directive ++ cursor /\
        forallb isLetter (list_ascii_of_string directive) = true /\
        indexOf COMPILER_DIRECTIVES directive = None /\
        NoSuchDirective "ORIGIN" 2 =
          NoSuchDirective directive (1 + Z.of_nat (count_newlines before)))).
Proof.
  apply (lexer_error_names_line ("HLT" +:+ nl +:+ "#ORIGIN 5")). reflexivity.
Defined.

(** ** Directives with a literal or a symbolic argument, on source text *)

Lemma wrap32_range (z : Z) : - 2 ^ 31 <= wrap32 z < 2 ^ 31.
Proof.
  unfold wrap32. pose proof (Z.mod_pos_bound (z + 2 ^ 31) (2 ^ 32) ltac:(lia)). lia.
Qed.

Lemma js_or_zero (z : Z) : js_or 0 (wrap32 z) = wrap32 z.
Proof.
  unfold js_or. rewrite (wrap32_small (wrap32 z)) by apply wrap32_range. reflexivity.
Qed.

Lemma lexer_directive_number (digits : string) :
  decimal_text digits = true -> number_of digits < MAX_SAFE ->
  lexer ("#DV " +:+ digits) =
  Ok [T_LINENUM 1; T_DIRECTIVE D_DV; T_NUMBER (number_of digits); T_LINENUM 2].
Proof.
  intros Hd Hs. unfold lexer.
  rewrite !list_ascii_of_string_app, <- !app_assoc.
  change (list_ascii_of_string "#DV " ++ ?l)
    with ("#"%char :: "D"%char :: "V"%char :: " "%char :: l).
  change (lex_loop ("#"%char :: "D"%char :: "V"%char :: " "%char :: ?l) ?line ?out)
    with (lex_loop l line (out ++ [T_DIRECTIVE D_DV])).
  rewrite lex_loop_decimal_text by (assumption || reflexivity).
  reflexivity.
Qed.

(** X20: The declare-value directive with a literal stores the literal
    reduced to a signed 32-bit integer: a value below 2^31 is stored as
    it is, a larger one wraps around (4294967296 is stored as 0). *)
Theorem declare_value_literal (host_binds : string -> bool) (digits : string) :
  decimal_text digits = true -> number_of digits < MAX_SAFE ->
  assemble host_binds ("#DV " +:+ digits) =
  Ok (<[0%nat := wrap32 (number_of digits)]> (replicate 1000 0)).
Proof.
  intros Hd Hv. pose proof (number_of_nonneg digits Hd) as Hpos.
  unfold assemble. rewrite lexer_directive_number by assumption.
  cbn [bind]. unfold parser.
  cbn [parse_loop collectCommaSeparated_cursor collectCommaSeparated_output app bind].
  change (count_differs _ _) with false. cbn iota. cbn [bind]. unfold assembler.
  cbn [first_pass emitExpression skips_next bind lookup list_lookup].
  change (D_DV =? D_ORG) with false. change (D_DV =? D_TIMES) with false.
  change (D_DV =? D_DV) with true. cbn iota.
  rewrite emit_inside
    by (cbn [push_recalculate initial_state org memory]; rewrite length_replicate; lia).
  cbn [bind labels valuesToRecalculate memory org push_recalculate initial_state app
         first_pass emitExpression skips_next].
  rewrite (relocate_number host_binds ∅ (number_of digits) 0%nat 0);
    [| lia | reflexivity | reflexivity].
  rewrite list_insert_insert_eq, js_or_zero. reflexivity.
Qed.

Lemma declare_value_literal_witness :
  assemble bare_host ("#DV " +:+ "4294967301") =
  Ok (<[0%nat := wrap32 (number_of "4294967301")]> (replicate 1000 0)).
Proof.
  apply (declare_value_literal bare_host "4294967301"); vm_compute; reflexivity.
Defined.

Lemma lexer_times_then_hlt (digits : string) :
  decimal_text digits = true -> number_of digits < MAX_SAFE ->
  lexer ("#TIMES " +:+ digits +:+ nl +:+ "HLT") =
  Ok [T_LINENUM 1; T_DIRECTIVE D_TIMES; T_NUMBER (number_of digits); T_LINENUM 2;
      T_INSTRUCTION 10; T_LINENUM 3].
Proof.
  intros Hd Hs. unfold lexer.
  rewrite !list_ascii_of_string_app, <- !app_assoc.
  change (list_ascii_of_string "#TIMES " ++ ?l)
    with ("#"%char :: "T"%char :: "I"%char :: "M"%char :: "E"%char :: "S"%char
            :: " "%char :: l).
  change (list_ascii_of_string nl ++ ?l) with (newline :: l).
  change (lex_loop ("#"%char :: "T"%char :: "I"%char :: "M"%char :: "E"%char
                      :: "S"%char :: " "%char :: ?l) ?line ?out)
    with (lex_loop l line (out ++ [T_DIRECTIVE D_TIMES])).
  rewrite lex_loop_decimal_text by (assumption || reflexivity).
  reflexivity.
Qed.

(** Repeating a line marker any number of times changes nothing but
    the current line. *)
Lemma repeat_times_line_marker (line : Z) (following : list expression) (count : nat) :
  forall st : state,
  exists line',
    repeat_times count (emitExpression (E_LINENUM line :: following)) st =
    Ok {| memory := memory st;
          valuesToRecalculate := valuesToRecalculate st;
          labels := labels st;
          org := org st;
          lineNumber := line' |}.
Proof.
  induction count as [|count IH]; intros st.
  - exists (lineNumber st). destruct st; reflexivity.
  - cbn [repeat_times emitExpression bind].
    destruct (IH {| memory := memory st;
                    valuesToRecalculate := valuesToRecalculate st;
                    labels := labels st;
                    org := org st;
                    lineNumber := line |}) as [line' H].
    exists line'. exact H.
Qed.

(** X13: A repeat directive on a line of its own has no effect for any
    count below 2^53 (zero included): the parser puts a line marker
    behind it, that marker is what is repeated and then skipped, and
    the instruction of the next line is written once.  (Beyond 2^53
    the loop counter of the source can no longer be incremented; the
    statement stops below 2^53.) *)
Theorem times_directive_line_has_no_effect (host_binds : string -> bool)
  (digits : string) :
  decimal_text digits = true -> number_of digits < MAX_SAFE ->
  assemble host_binds ("#TIMES " +:+ digits +:+ nl +:+ "HLT") =
  Ok (<[0%nat := 10000]> (replicate 1000 0)).
Proof.
  intros Hd Hv. unfold assemble. rewrite lexer_times_then_hlt by assumption.
  cbn [bind]. unfold parser.
  cbn [parse_loop collectCommaSeparated_cursor collectCommaSeparated_output app bind].
  change (count_differs _ _) with false. cbn iota. cbn [bind]. unfold assembler.
  cbn [first_pass emitExpression skips_next bind lookup list_lookup tokenStreamAsNumber].
  change (D_TIMES =? D_ORG) with false. change (D_TIMES =? D_TIMES) with true. cbn iota.
  cbn [bind].
  match goal with
  | |- context [repeat_times ?c ?body ?st] =>
      destruct (repeat_times_line_marker 2 [] c st) as [line' Hr];
      change (repeat_times c body st)
        with (repeat_times c (emitExpression [E_LINENUM 2]) st);
      rewrite Hr
  end.
  cbn [bind first_pass emitExpression skips_next assembleInstruction lookup list_lookup
         initial_state memory valuesToRecalculate labels org].
  change (exact (1000 * 10)) with (Ok (A := Z) 10000). cbn [bind].
  rewrite emit_inside by (cbn [org memory]; rewrite length_replicate; lia).
  reflexivity.
Qed.

Lemma times_directive_line_has_no_effect_witness :
  assemble bare_host ("#TIMES " +:+ "0" +:+ nl +:+ "HLT") =
  Ok (<[0%nat := 10000]> (replicate 1000 0)).
Proof.
  apply (times_directive_line_has_no_effect bare_host "0"); vm_compute; reflexivity.
Defined.

Lemma lexer_directive_identifier (directive name : string) (index : Z) :
  (directive = "ORG" /\ index = D_ORG) \/ (directive = "TIMES" /\ index = D_TIMES) ->
  label_name name = true ->
  lexer ("#" +:+ directive +:+ " " +:+ name) =
  Ok [T_LINENUM 1; T_DIRECTIVE index; T_IDENT name; T_LINENUM 2].
Proof.
  intros Hdir Hn. destruct (label_name_inv name Hn) as [Hw Hni]. unfold lexer.
  destruct Hdir as [[-> ->] | [-> ->]].
  - change ("#" +:+ "ORG" +:+ " " +:+ name) with ("#ORG " +:+ name).
    rewrite !list_ascii_of_string_app, <- !app_assoc.
    change (list_ascii_of_string "#ORG " ++ ?l)
      with ("#"%char :: "O"%char :: "R"%char :: "G"%char :: " "%char :: l).
    change (lex_loop ("#"%char :: "O"%char :: "R"%char :: "G"%char :: " "%char :: ?l)
              ?line ?out)
      with (lex_loop l line (out ++ [T_DIRECTIVE D_ORG])).
    rewrite lex_loop_capital_word, Hni by (assumption || reflexivity). reflexivity.
  - change ("#" +:+ "TIMES" +:+ " " +:+ name) with ("#TIMES " +:+ name).
    rewrite !list_ascii_of_string_app, <- !app_assoc.
    change (list_ascii_of_string "#TIMES " ++ ?l)
      with ("#"%char :: "T"%char :: "I"%char :: "M"%char :: "E"%char :: "S"%char
              :: " "%char :: l).
    change (lex_loop ("#"%char :: "T"%char :: "I"%char :: "M"%char :: "E"%char
                        :: "S"%char :: " "%char :: ?l) ?line ?out)
      with (lex_loop l line (out ++ [T_DIRECTIVE D_TIMES])).
    rewrite lex_loop_capital_word, Hni by (assumption || reflexivity). reflexivity.
Qed.

(** X17: The set-origin and repeat directives take a number literal only:
    with an identifier as argument, a declared label or not, the first
    pass fails with the not-a-number error, wrapped with the line of
    the directive. *)
Theorem control_directive_needs_literal (host_binds : string -> bool)
  (directive name : string) :
  directive = "ORG" \/ directive = "TIMES" -> label_name name = true ->
  assemble host_binds ("#" +:+ directive +:+ " " +:+ name) =
  Throw (ErrorWhileAssemblingLine 1 NotANumber).
Proof.
  intros Hdir Hn. unfold assemble.
  destruct Hdir as [-> | ->].
  - rewrite (lexer_directive_identifier "ORG" name D_ORG) by (auto || assumption).
    reflexivity.
  - rewrite (lexer_directive_identifier "TIMES" name D_TIMES) by (auto || assumption).
    reflexivity.
Qed.

Lemma control_directive_needs_literal_witness :
  assemble bare_host ("#" +:+ "ORG" +:+ " " +:+ "START") =
  Throw (ErrorWhileAssemblingLine 1 NotANumber).
Proof.
  apply (control_directive_needs_literal bare_host "ORG" "START");
    [left; reflexivity | reflexivity].
Defined.

(** ** Errors of the parser, on source text *)

(** X9: An identifier that no label marker follows is rejected by the
    parser: after [n] instruction lines, a line that holds only a name
    gives the expected-token error (a label marker, type 3, was
    expected and a line marker, type 6, was found), wrapped with the
    number of that line. *)
Theorem identifier_without_label_marker_rejected (host_binds : string -> bool)
  (name : string) (n : nat) :
  label_name name = true ->
  assemble host_binds (hlt_lines n +:+ name) =
  Throw (ErrorWhileParsingLine (1 + Z.of_nat n) (ExpectedToken [3] 6)).
Proof.
  intros Hn. destruct (label_name_inv name Hn) as [Hw Hi].
  unfold assemble, lexer.
  rewrite !list_ascii_of_string_app, <- !app_assoc.
  rewrite lex_loop_hlt_lines.
  rewrite lex_loop_capital_word, Hi by (assumption || reflexivity).
  change (lex_loop [newline] ?ln ?o) with (Ok (o ++ [T_LINENUM (ln + 1)])).
  cbn [bind]. unfold parser. rewrite <- !app_assoc.
  change (parse_loop ([T_LINENUM 1] ++ ?l) (-1) [])
    with (parse_loop l 1 ([] ++ [E_LINENUM 1])).
  rewrite parse_loop_hlt_tokens. reflexivity.
Qed.

Lemma identifier_without_label_marker_rejected_witness :
  assemble bare_host (hlt_lines 2 +:+ "LOOP") =
  Throw (ErrorWhileParsingLine (1 + Z.of_nat 2) (ExpectedToken [3] 6)).
Proof.
  apply (identifier_without_label_marker_rejected bare_host "LOOP" 2). reflexivity.
Defined.

(** X10: A one-operand mnemonic written without operand is rejected by the
    parser: after [n] instruction lines, the line that holds only the
    mnemonic gives the argument-count error (1 expected, 0 found),
    wrapped with the number of that line. *)
Theorem missing_operand_rejected (host_binds : string -> bool) (mnemonic : string)
  (opcode n : nat) :
  INSTRUCTIONS !! opcode = Some mnemonic ->
  INSTRUCTION_ARG_LENGTHS !! opcode = Some 1%nat ->
  assemble host_binds (hlt_lines n +:+ mnemonic) =
  Throw (ErrorWhileParsingLine (1 + Z.of_nat n) (InvalidArgCount (Some 1%nat) 0)).
Proof.
  intros Hm Ha. unfold assemble, lexer.
  rewrite !list_ascii_of_string_app, <- !app_assoc.
  rewrite lex_loop_hlt_lines.
  destruct opcode as [|[|[|[|[|[|[|[|[|[|[|opcode]]]]]]]]]]]; try discriminate Ha;
    injection Hm as <-;
    rewrite lex_loop_capital_word by reflexivity;
    change (lex_loop [newline] ?ln ?o) with (Ok (o ++ [T_LINENUM (ln + 1)]));
    cbn [bind]; unfold parser; rewrite <- !app_assoc;
    change (parse_loop ([T_LINENUM 1] ++ ?l) (-1) [])
      with (parse_loop l 1 ([] ++ [E_LINENUM 1]));
    rewrite parse_loop_hlt_tokens; reflexivity.
Qed.

Lemma missing_operand_rejected_witness :
  assemble bare_host (hlt_lines 3 +:+ "ADD") =
  Throw (ErrorWhileParsingLine (1 + Z.of_nat 3) (InvalidArgCount (Some 1%nat) 0)).
Proof.
  apply (missing_operand_rejected bare_host "ADD" 2 3); reflexivity.
Defined.

(** ** A label declared twice *)

Lemma lexer_redeclared_program (name : string) (n : nat) :
  label_name name = true ->
  lexer (redeclared_program name n) =
  Ok ([T_LINENUM 1; T_IDENT name; T_LABEL_MAKER; T_LINENUM 2] ++
      hlt_tokens n 2 ++
      [T_IDENT name; T_LABEL_MAKER; T_LINENUM (2 + Z.of_nat n + 1);
       T_DIRECTIVE D_DV; T_IDENT name; T_LINENUM (2 + Z.of_nat n + 1 + 1)]).
Proof.
  intros Hn. destruct (label_name_inv name Hn) as [Hw Hi].
  unfold lexer, redeclared_program.
  rewrite !list_ascii_of_string_app, <- !app_assoc.
  change (list_ascii_of_string "#DV " ++ ?l)
    with ("#"%char :: "D"%char :: "V"%char :: " "%char :: l).
  do 2 change (list_ascii_of_string nl ++ ?l) with (newline :: l).
  do 2 change (list_ascii_of_string ":" ++ ?l) with (":"%char :: l).
  rewrite lex_loop_capital_word, Hi by (assumption || reflexivity).
  change (lex_loop (":"%char :: newline :: ?l) ?ln ?o)
    with (lex_loop l (ln + 1) ((o ++ [T_LABEL_MAKER]) ++ [T_LINENUM (ln + 1)])).
  rewrite lex_loop_hlt_lines.
  rewrite lex_loop_capital_word, Hi by (assumption || reflexivity).
  change (lex_loop (":"%char :: newline :: "#"%char :: "D"%char :: "V"%char
                      :: " "%char :: ?l) ?ln ?o)
    with (lex_loop l (ln + 1)
            (((o ++ [T_LABEL_MAKER]) ++ [T_LINENUM (ln + 1)]) ++ [T_DIRECTIVE D_DV])).
  rewrite lex_loop_capital_word, Hi by (assumption || reflexivity).
  change (lex_loop [newline] ?ln ?o) with (Ok (o ++ [T_LINENUM (ln + 1)])).
  rewrite <- !app_assoc. reflexivity.
Qed.

Lemma parser_redeclared_program (name : string) (n : nat) (l3 l4 : Z) :
  parser ([T_LINENUM 1; T_IDENT name; T_LABEL_MAKER; T_LINENUM 2] ++
          hlt_tokens n 2 ++
          [T_IDENT name; T_LABEL_MAKER; T_LINENUM l3;
           T_DIRECTIVE D_DV; T_IDENT name; T_LINENUM l4]) =
  Ok ([E_LINENUM 1; E_LABEL name; E_LINENUM 2] ++
      hlt_expressions n 2 ++
      [E_LABEL name; E_LINENUM l3; E_DIRECTIVE D_DV [[T_IDENT name]]; E_LINENUM l4]).
Proof.
  unfold parser.
  change (parse_loop ([T_LINENUM 1; T_IDENT name; T_LABEL_MAKER; T_LINENUM 2] ++ ?l)
            (-1) [])
    with (parse_loop l 2 [E_LINENUM 1; E_LABEL name; E_LINENUM 2]).
  rewrite parse_loop_hlt_tokens.
  cbn [parse_loop collectCommaSeparated_cursor collectCommaSeparated_output app].
  change (count_differs _ _) with false. cbn iota.
  rewrite <- !app_assoc. reflexivity.
Qed.

Lemma first_pass_redeclared_program (name : string) (n : nat) (l3 l4 : Z) :
  (n < 1000)%nat ->
  exists st,
    first_pass ([E_LINENUM 1; E_LABEL name; E_LINENUM 2] ++
                hlt_expressions n 2 ++
                [E_LABEL name; E_LINENUM l3; E_DIRECTIVE D_DV [[T_IDENT name]];
                 E_LINENUM l4]) initial_state = Ok st /\
    labels st = <[name := Z.of_nat n]> ∅ /\
    valuesToRecalculate st = [(Z.of_nat n, Some [T_IDENT name])] /\
    memory st !! n = Some 0.
Proof.
  intros Hlt.
  cbn [app first_pass emitExpression skips_next bind].
  match goal with
  | |- context [first_pass (hlt_expressions n 2 ++ ?rest) ?s] =>
      destruct (first_pass_hlt_expressions n rest 2 s)
        as (st' & Hf & Horg & Hin & Hlen & Hm & Hv & Hl)
  end.
  { cbn [org memory initial_state]. rewrite length_replicate. lia. }
  rewrite Hf. cbn [first_pass emitExpression skips_next bind lookup list_lookup].
  change (D_DV =? D_ORG) with false. change (D_DV =? D_TIMES) with false.
  change (D_DV =? D_DV) with true. cbn iota.
  cbn [labels valuesToRecalculate memory org initial_state app] in Horg, Hin, Hlen, Hv, Hl.
  rewrite length_replicate in Hlen. rewrite Z.add_0_l in Horg, Hlen.
  rewrite emit_inside by (cbn [push_recalculate org memory]; lia).
  cbn [bind]. eexists. split; [reflexivity|].
  cbn [labels valuesToRecalculate memory org push_recalculate app].
  rewrite Horg, Hv, Hl, insert_insert_eq, Nat2Z.id. repeat split.
  apply list_lookup_insert_eq. lia.
Qed.

(** X24: Declaring a label twice is no error, and the later declaration
    wins: with [n] instruction lines between the two declarations the
    first pass leaves the label at address [n], and a declare-value of
    the label placed behind them stores [n]. *)
Theorem redeclared_label_last_wins (host_binds : string -> bool) (name : string)
  (n : nat) :
  label_name name = true -> (n < 1000)%nat ->
  exists st image,
    first_pass_of (redeclared_program name n) = Ok st /\
    labels st !! name = Some (Z.of_nat n) /\
    assemble host_binds (redeclared_program name n) = Ok image /\
    image !! n = Some (Z.of_nat n).
Proof.
  intros Hn Hlt.
  destruct (first_pass_redeclared_program name n (2 + Z.of_nat n + 1)
              (2 + Z.of_nat n + 1 + 1) Hlt) as (st & Hf & Hlabels & Hv & Hm).
  assert (Hl : labels st !! name = Some (Z.of_nat n))
    by (rewrite Hlabels; apply lookup_insert_eq).
  assert (Hs : shadows_with_block (labels st) = false)
    by (rewrite Hlabels; apply single_label_shadows_nothing, label_name_inv, Hn).
  exists st, (<[n := Z.of_nat n]> (memory st)).
  unfold first_pass_of, assemble, assembler.
  rewrite lexer_redeclared_program by assumption. cbn [bind].
  rewrite parser_redeclared_program. cbn [bind]. rewrite Hf. cbn [bind].
  repeat split; try assumption.
  - rewrite Hv.
    rewrite (relocate_label host_binds _ name (Z.of_nat n) n 0 _ Hn Hl Hs Hm).
    rewrite js_or_zero, wrap32_small by lia. reflexivity.
  - apply list_lookup_insert_eq. apply lookup_lt_Some in Hm. exact Hm.
Qed.

Lemma redeclared_label_last_wins_witness :
  exists st image,
    first_pass_of (redeclared_program "L" 2) = Ok st /\
    labels st !! "L" = Some (Z.of_nat 2) /\
    assemble bare_host (redeclared_program "L" 2) = Ok image /\
    image !! 2%nat = Some (Z.of_nat 2).
Proof.
  apply (redeclared_label_last_wins bare_host "L" 2); [reflexivity | lia].
Defined.

(** ** A mnemonic in operand position *)

Lemma lexer_two_mnemonics (mnemonic operand : string) (index value : Z) :
  capital_word mnemonic = true -> indexOf INSTRUCTIONS mnemonic = Some index ->
  capital_word operand = true -> indexOf INSTRUCTIONS operand = Some value ->
  lexer (mnemonic +:+ " " +:+ operand) =
  Ok [T_LINENUM 1; T_INSTRUCTION index; T_INSTRUCTION value; T_LINENUM 2].
Proof.
  intros Hw Hi Hw' Hi'. unfold lexer.
  rewrite !list_ascii_of_string_app, <- !app_assoc.
  change (list_ascii_of_string " " ++ ?l) with (" "%char :: l).
  rewrite lex_loop_capital_word, Hi by (assumption || reflexivity).
  change (lex_loop (" "%char :: ?l) ?line ?out) with (lex_loop l line out).
  rewrite lex_loop_capital_word, Hi' by (assumption || reflexivity).
  reflexivity.
Qed.

Section MnemonicOperand.

Variable host_binds : string -> bool.

(** The relocation of one operand that is a mnemonic token: its
    contents are the table index, and [toString] makes a number
    literal of it. *)
Lemma relocate_mnemonic (labels : gmap string Z) (n : Z) (cell : nat) (old : Z)
  (memory : list Z) :
  0 <= n < MAX_SAFE -> shadows_with_block labels = false ->
  memory !! cell = Some old ->
  relocate host_binds labels [(Z.of_nat cell, Some [T_INSTRUCTION n])] memory =
  Ok (<[cell := js_or old (wrap32 n)]> memory).
Proof.
  intros Hn Hs Hm. destruct (js_eval_number host_binds labels n Hn) as (text & Ht & He).
  cbn [relocate join_contents contents_toString bind]. rewrite Hs, Ht. cbn [bind].
  rewrite append_empty_r, He. cbn [bind].
  unfold or_assign. destruct (Z.ltb_spec (Z.of_nat cell) 0); [lia|].
  rewrite Nat2Z.id, Hm. reflexivity.
Qed.

Lemma assembler_instruction_mnemonic (index v : Z) (l1 l2 : Z) :
  0 <= index <= 10 -> 0 <= v <= 10 ->
  assembler host_binds
    [E_LINENUM l1; E_INSTRUCTION index [[T_INSTRUCTION v]]; E_LINENUM l2] =
  Ok (<[0%nat := Z.lor (index * 1000) v]> (replicate 1000 0)).
Proof.
  intros Hk Hv. unfold assembler.
  cbn [first_pass emitExpression skips_next bind assembleInstruction lookup list_lookup].
  rewrite exact_small by (unfold MAX_SAFE; lia). cbn [bind].
  rewrite emit_inside
    by (cbn [push_recalculate initial_state org memory]; rewrite length_replicate; lia).
  cbn [bind labels valuesToRecalculate memory org push_recalculate initial_state app].
  rewrite (relocate_mnemonic ∅ v 0%nat (1000 * index));
    [| unfold MAX_SAFE; lia | reflexivity | reflexivity].
  rewrite list_insert_insert_eq, wrap32_small, js_or_small by lia.
  rewrite Z.mul_comm. reflexivity.
Qed.

End MnemonicOperand.

(** X23: A mnemonic written where an operand is expected is no error: the
    deferred operand is made of the contents of its tokens, and the
    contents of a mnemonic token is its table index, so the operand
    reads as the opcode number of the second mnemonic. *)
Theorem mnemonic_operand_reads_as_opcode (host_binds : string -> bool)
  (mnemonic operand : string) (opcode value : nat) :
  INSTRUCTIONS !! opcode = Some mnemonic ->
  INSTRUCTION_ARG_LENGTHS !! opcode = Some 1%nat ->
  INSTRUCTIONS !! value = Some operand -> (0 < value)%nat ->
  assemble host_binds (mnemonic +:+ " " +:+ operand) =
  Ok (<[0%nat := Z.lor (Z.of_nat opcode * 1000) (Z.of_nat value)]> (replicate 1000 0)).
Proof.
  intros Hm Ha Ho Hv. unfold assemble.
  assert (Hlex : lexer (mnemonic +:+ " " +:+ operand) =
                 Ok [T_LINENUM 1; T_INSTRUCTION (Z.of_nat opcode);
                     T_INSTRUCTION (Z.of_nat value); T_LINENUM 2] /\
                 (opcode <= 10)%nat /\ (value <= 10)%nat).
  { destruct opcode as [|[|[|[|[|[|[|[|[|[|[|opcode]]]]]]]]]]]; try discriminate Ha;
      injection Hm as <-;
      (destruct value as [|[|[|[|[|[|[|[|[|[|[|value]]]]]]]]]]];
       [lia | .. | destruct value; discriminate Ho]);
      injection Ho as <-;
      (split; [apply lexer_two_mnemonics; reflexivity | lia]). }
  destruct Hlex as (-> & Hk & Hj). cbn [bind]. unfold parser.
  cbn [parse_loop collectCommaSeparated_cursor collectCommaSeparated_output app bind].
  assert (Hc : count_differs (table_get INSTRUCTION_ARG_LENGTHS (Z.of_nat opcode))
                 [[T_INSTRUCTION (Z.of_nat value)]] = false).
  { destruct opcode as [|[|[|[|[|[|[|[|[|[|[|opcode]]]]]]]]]]]; try discriminate Ha;
      reflexivity. }
  rewrite Hc. cbn [bind].
  apply (assembler_instruction_mnemonic host_binds _ _ 1 2); lia.
Qed.

Lemma mnemonic_operand_reads_as_opcode_witness :
  assemble bare_host ("TAKE" +:+ " " +:+ "HLT") =
  Ok (<[0%nat := Z.lor (Z.of_nat 1 * 1000) (Z.of_nat 10)]> (replicate 1000 0)).
Proof.
  apply (mnemonic_operand_reads_as_opcode bare_host "TAKE" "HLT" 1 10);
    [reflexivity | reflexivity | reflexivity | lia].
Defined.

(** ** Arithmetic in an operand *)

(** The text [toString] gives for a number token: a run of digits
    without leading zero whose value is the number. *)
Lemma number_text (n : Z) :
  0 <= n < MAX_SAFE ->
  exists (text : string) (c : ascii) (cs : list ascii),
    number_toString n = Ok text /\ list_ascii_of_string text = c :: cs /\
    includes NUMBERS c = true /\ forallb (includes NUMBERS) cs = true /\
    leading_zero (c :: cs) = false /\ parseInt (c :: cs) = n.
Proof.
  intros Hn. unfold number_toString. rewrite exact_small by lia. cbn [bind].
  destruct n as [|p|p]; [| | lia].
  { exists "0", "0"%char, []. repeat split. }
  cbn [Z.to_int NilZero.string_of_int]. unfold NilZero.string_of_uint.
  pose proof (DecimalPos.Unsigned.to_uint_nonnil p) as Hnil.
  pose proof (to_uint_not_D0 p) as Hd0.
  pose proof (uint_chars_digits (Pos.to_uint p)) as Hdig.
  pose proof (leading_zero_uint _ Hd0) as Hlead.
  pose proof (parseInt_uint (Pos.to_uint p)) as Hval.
  rewrite DecimalPos.Unsigned.of_to in Hval. cbn [Z.of_N] in Hval.
  assert (Hs : match Pos.to_uint p with
               | Decimal.Nil => "0"
               | _ => NilEmpty.string_of_uint (Pos.to_uint p)
               end = NilEmpty.string_of_uint (Pos.to_uint p)).
  { destruct (Pos.to_uint p); [contradiction | reflexivity ..]. }
  rewrite Hs.
  destruct (list_ascii_of_string (NilEmpty.string_of_uint (Pos.to_uint p)))
    as [|c cs] eqn:Hcs.
  { destruct (Pos.to_uint p); try discriminate Hcs. contradiction. }
  cbn [forallb] in Hdig. apply andb_true_iff in Hdig as [Hc Hcs'].
  exists (NilEmpty.string_of_uint (Pos.to_uint p)), c, cs. repeat split; assumption.
Qed.

Lemma symbol_facts (d : ascii) :
  includes SYMBOLS d = true -> includes NUMBERS d = false /\ isLetter d = false.
Proof.
  destruct d as [b0 b1 b2 b3 b4 b5 b6 b7].
  destruct b0, b1, b2, b3, b4, b5, b6, b7; vm_compute; intros H;
    try discriminate H; split; reflexivity.
Qed.

(** The tokenizer of [eval] on a number text that an operator follows,
    and on one that ends the text. *)
Lemma js_tokenize_digits_then (c : ascii) (cs : list ascii) (d : ascii)
  (rest : list ascii) :
  includes NUMBERS c = true -> forallb (includes NUMBERS) cs = true ->
  leading_zero (c :: cs) = false -> Z.abs (parseInt (c :: cs)) < MAX_SAFE ->
  includes SYMBOLS d = true ->
  js_tokenize ((c :: cs) ++ d :: rest) =
  let* ts := js_tokenize (d :: rest) in Ok (JS_NUM (parseInt (c :: cs)) :: ts).
Proof.
  intros Hc Hcs Hlead Hsafe Hd. destruct (symbol_facts d Hd) as [Hdn _].
  cbn [app js_tokenize]. rewrite Hc.
  rewrite collectWhile_output_app, collectWhile_cursor_app by assumption.
  rewrite Hlead. cbn [at_boundary]. rewrite Hd. cbn [negb orb].
  rewrite exact_small by assumption. reflexivity.
Qed.

Lemma js_tokenize_digits_end (c : ascii) (cs : list ascii) :
  includes NUMBERS c = true -> forallb (includes NUMBERS) cs = true ->
  leading_zero (c :: cs) = false -> Z.abs (parseInt (c :: cs)) < MAX_SAFE ->
  js_tokenize (c :: cs) = Ok [JS_NUM (parseInt (c :: cs))].
Proof.
  intros Hc Hcs Hlead Hsafe. cbn [js_tokenize]. rewrite Hc.
  rewrite collectWhile_output_all, collectWhile_cursor_all by assumption.
  rewrite Hlead. cbn [at_boundary negb orb].
  rewrite exact_small by assumption. reflexivity.
Qed.

Lemma next_is_digit (op c : ascii) (rest : list ascii) :
  includes NUMBERS c = true -> includes SYMBOLS op = true ->
  next_is op (c :: rest) = false.
Proof.
  intros Hc Hop. cbn [next_is]. destruct (Ascii.eqb_spec op c) as [->|]; [|reflexivity].
  destruct (symbol_facts c Hop) as [Hn _]. congruence.
Qed.

Section OperandArithmetic.

Variable host_binds : string -> bool.

(** [eval] on the text of a sum whose second term is a product. *)
Lemma js_eval_sum_of_product (labels : gmap string Z) (a b c : Z) :
  0 <= a < MAX_SAFE -> 0 <= b < MAX_SAFE -> 0 <= c < MAX_SAFE ->
  a + b * c < MAX_SAFE ->
  exists text,
    join_contents [T_NUMBER a; T_ARITH_SYMBOL "+"; T_NUMBER b; T_ARITH_SYMBOL "*";
                   T_NUMBER c] = Ok text /\
    js_eval host_binds labels text = Ok (JNum (a + b * c)).
Proof.
  intros Ha Hb Hc Hsum.
  destruct (number_text a Ha) as (ta & a0 & as' & Hta & Hla & Ha0 & Has & Hza & Hva).
  destruct (number_text b Hb) as (tb & b0 & bs & Htb & Hlb & Hb0 & Hbs & Hzb & Hvb).
  destruct (number_text c Hc) as (tc & c0 & cs & Htc & Hlc & Hc0 & Hcs & Hzc & Hvc).
  cbn [join_contents contents_toString bind]. rewrite Hta, Htb, Htc. cbn [bind].
  eexists. split; [reflexivity|].
  unfold js_eval. rewrite append_empty_r, !list_ascii_of_string_app, Hla, Hlb, Hlc.
  change (list_ascii_of_string "+" ++ ?l) with ("+"%char :: l).
  change (list_ascii_of_string "*" ++ ?l) with ("*"%char :: l).
  rewrite js_tokenize_digits_then by (try assumption; try reflexivity; lia).
  change (js_tokenize ("+"%char :: ?l))
    with (if next_is "+" l then Unmodelled
          else let* ts := js_tokenize l in Ok (JS_PLUS :: ts)).
  change ((b0 :: bs) ++ ?l) with (b0 :: bs ++ l) at 1.
  rewrite next_is_digit by (assumption || reflexivity).
  change (b0 :: bs ++ ?l) with ((b0 :: bs) ++ l).
  rewrite js_tokenize_digits_then by (try assumption; try reflexivity; lia).
  change (js_tokenize ("*"%char :: ?l))
    with (if next_is "*" l then Unmodelled
          else let* ts := js_tokenize l in Ok (JS_STAR :: ts)).
  rewrite next_is_digit by (assumption || reflexivity).
  rewrite js_tokenize_digits_end by (try assumption; lia).
  rewrite Hva, Hvb, Hvc. cbn [bind].
  change (js_parse [JS_NUM a; JS_PLUS; JS_NUM b; JS_STAR; JS_NUM c])
    with (Ok (A := option js_expr)
            (Some (JS_Add (JS_Num a) (JS_Mul (JS_Num b) (JS_Num c))))).
  cbn [bind js_evaluate arith].
  assert (Hprod : 0 <= b * c) by nia.
  rewrite (exact_small (b * c)) by lia. cbn [bind arith].
  rewrite exact_small by lia. reflexivity.
Qed.

Lemma relocate_sum_of_product (labels : gmap string Z) (a b c : Z) (cell : nat)
  (old : Z) (memory : list Z) :
  0 <= a < MAX_SAFE -> 0 <= b < MAX_SAFE -> 0 <= c < MAX_SAFE ->
  a + b * c < MAX_SAFE ->
  shadows_with_block labels = false -> memory !! cell = Some old ->
  relocate host_binds labels
    [(Z.of_nat cell,
      Some [T_NUMBER a; T_ARITH_SYMBOL "+"; T_NUMBER b; T_ARITH_SYMBOL "*"; T_NUMBER c])]
    memory =
  Ok (<[cell := js_or old (wrap32 (a + b * c))]> memory).
Proof.
  intros Ha Hb Hc Hsum Hs Hm.
  destruct (js_eval_sum_of_product labels a b c Ha Hb Hc Hsum) as (text & Ht & He).
  cbn [relocate]. rewrite Hs, Ht. cbn [bind]. rewrite He. cbn [bind].
  unfold or_assign. destruct (Z.ltb_spec (Z.of_nat cell) 0); [lia|].
  rewrite Nat2Z.id, Hm. reflexivity.
Qed.

End OperandArithmetic.

Lemma lexer_sum_of_product (da db dc : string) :
  decimal_text da = true -> decimal_text db = true -> decimal_text dc = true ->
  number_of da < MAX_SAFE -> number_of db < MAX_SAFE -> number_of dc < MAX_SAFE ->
  lexer ("#DV " +:+ da +:+ "+" +:+ db +:+ "*" +:+ dc) =
  Ok [T_LINENUM 1; T_DIRECTIVE D_DV; T_NUMBER (number_of da); T_ARITH_SYMBOL "+";
      T_NUMBER (number_of db); T_ARITH_SYMBOL "*"; T_NUMBER (number_of dc);
      T_LINENUM 2].
Proof.
  intros Ha Hb Hc Hsa Hsb Hsc. unfold lexer.
  rewrite !list_ascii_of_string_app, <- !app_assoc.
  change (list_ascii_of_string "#DV " ++ ?l)
    with ("#"%char :: "D"%char :: "V"%char :: " "%char :: l).
  change (list_ascii_of_string "+" ++ ?l) with ("+"%char :: l).
  change (list_ascii_of_string "*" ++ ?l) with ("*"%char :: l).
  change (lex_loop ("#"%char :: "D"%char :: "V"%char :: " "%char :: ?l) ?line ?out)
    with (lex_loop l line (out ++ [T_DIRECTIVE D_DV])).
  rewrite lex_loop_decimal_text by (assumption || reflexivity).
  change (lex_loop ("+"%char :: ?l) ?line ?out)
    with (lex_loop l line (out ++ [T_ARITH_SYMBOL "+"])).
  rewrite lex_loop_decimal_text by (assumption || reflexivity).
  change (lex_loop ("*"%char :: ?l) ?line ?out)
    with (lex_loop l line (out ++ [T_ARITH_SYMBOL "*"])).
  rewrite lex_loop_decimal_text by (assumption || reflexivity).
  reflexivity.
Qed.

(** X21: An operand may be an arithmetic expression, and the product binds
    tighter than the sum: a declare-value of [a+b*c] stores
    [a + b * c] (reduced to 32 bits), the three numbers being read
    from any runs of digits. *)
Theorem operand_product_binds_tighter (host_binds : string -> bool)
  (da db dc : string) :
  decimal_text da = true -> decimal_text db = true -> decimal_text dc = true ->
  number_of db < MAX_SAFE -> number_of dc < MAX_SAFE ->
  number_of da + number_of db * number_of dc < MAX_SAFE ->
  assemble host_binds ("#DV " +:+ da +:+ "+" +:+ db +:+ "*" +:+ dc) =
  Ok (<[0%nat := wrap32 (number_of da + number_of db * number_of dc)]>
        (replicate 1000 0)).
Proof.
  intros Ha Hb Hc Hsb Hsc Hsum.
  pose proof (number_of_nonneg da Ha) as Hpa.
  pose proof (number_of_nonneg db Hb) as Hpb.
  pose proof (number_of_nonneg dc Hc) as Hpc.
  assert (Hsa : number_of da < MAX_SAFE) by nia.
  unfold assemble. rewrite lexer_sum_of_product by assumption.
  cbn [bind]. unfold parser.
  cbn [parse_loop collectCommaSeparated_cursor collectCommaSeparated_output app bind].
  change (count_differs _ _) with false. cbn iota. cbn [bind]. unfold assembler.
  cbn [first_pass emitExpression skips_next bind lookup list_lookup].
  change (D_DV =? D_ORG) with false. change (D_DV =? D_TIMES) with false.
  change (D_DV =? D_DV) with true. cbn iota.
  rewrite emit_inside
    by (cbn [push_recalculate initial_state org memory]; rewrite length_replicate; lia).
  cbn [bind labels valuesToRecalculate memory org push_recalculate initial_state app
         first_pass emitExpression skips_next].
  rewrite (relocate_sum_of_product host_binds ∅ _ _ _ 0%nat 0);
    [| lia | lia | lia | lia | reflexivity | reflexivity].
  rewrite list_insert_insert_eq, js_or_zero. reflexivity.
Qed.

Lemma operand_product_binds_tighter_witness :
  assemble bare_host ("#DV " +:+ "2" +:+ "+" +:+ "3" +:+ "*" +:+ "4") =
  Ok (<[0%nat := wrap32 (number_of "2" + number_of "3" * number_of "4")]>
        (replicate 1000 0)).
Proof.
  apply (operand_product_binds_tighter bare_host "2" "3" "4"); vm_compute; reflexivity.
Defined.

(** ** Two numbers side by side in an operand *)

Lemma parseInt_fold_shift (digits : list ascii) :
  forall acc : Z,
  fold_left (fun acc c => 10 * acc + digit_value c) digits acc =
  acc * 10 ^ Z.of_nat (length digits) +
  fold_left (fun acc c => 10 * acc + digit_value c) digits 0.
Proof.
  induction digits as [|c digits IH]; intros acc; cbn [fold_left length].
  - change (10 ^ Z.of_nat 0) with 1. lia.
  - rewrite (IH (10 * acc + digit_value c)), (IH (10 * 0 + digit_value c)).
    rewrite Nat2Z.inj_succ, Z.pow_succ_r by lia. ring.
Qed.

Lemma parseInt_app (x y : list ascii) :
  parseInt (x ++ y) = parseInt x * 10 ^ Z.of_nat (length y) + parseInt y.
Proof. unfold parseInt. rewrite fold_left_app. apply parseInt_fold_shift. Qed.

Lemma string_length_chars (s : string) :
  String.length s = length (list_ascii_of_string s).
Proof. induction s as [|c s IH]; [reflexivity|]. cbn. rewrite IH. reflexivity. Qed.

Lemma number_text_length (n : Z) (text : string) :
  number_toString n = Ok text -> length (list_ascii_of_string text) = decimal_length n.
Proof.
  unfold number_toString, exact. destruct (Z.abs n <? MAX_SAFE); [|discriminate].
  cbn [bind]. intros H. injection H as <-. symmetry. apply string_length_chars.
Qed.

Lemma leading_digit_nonzero (c : ascii) (cs : list ascii) :
  leading_zero (c :: cs) = false -> 0 < parseInt (c :: cs) ->
  Ascii.eqb c "0" = false.
Proof.
  intros Hlead Hpos. destruct cs as [|c' cs]; [|exact Hlead].
  destruct (Ascii.eqb_spec c "0") as [->|]; [|reflexivity].
  vm_compute in Hpos. discriminate Hpos.
Qed.

Section GluedOperand.

Variable host_binds : string -> bool.

Lemma js_eval_glued (labels : gmap string Z) (a b : Z) :
  0 < a -> 0 <= b -> glued a b < MAX_SAFE ->
  exists text,
    join_contents [T_NUMBER a; T_NUMBER b] = Ok text /\
    js_eval host_binds labels text = Ok (JNum (glued a b)).
Proof.
  intros Ha Hb Hg.
  assert (Hpow : 0 < 10 ^ Z.of_nat (decimal_length b)) by (apply Z.pow_pos_nonneg; lia).
  assert (Hsa : a < MAX_SAFE) by (unfold glued in Hg; nia).
  assert (Hsb : b < MAX_SAFE) by (unfold glued in Hg; nia).
  destruct (number_text a ltac:(lia)) as (ta & a0 & as' & Hta & Hla & Ha0 & Has & Hza & Hva).
  destruct (number_text b ltac:(lia)) as (tb & b0 & bs & Htb & Hlb & Hb0 & Hbs & Hzb & Hvb).
  pose proof (number_text_length b tb Htb) as Hlen. rewrite Hlb in Hlen.
  cbn [join_contents contents_toString bind]. rewrite Hta, Htb. cbn [bind].
  eexists. split; [reflexivity|].
  unfold js_eval. rewrite append_empty_r, list_ascii_of_string_app, Hla, Hlb.
  assert (Hval : parseInt ((a0 :: as') ++ b0 :: bs) = glued a b).
  { rewrite parseInt_app, Hva, Hvb, Hlen. reflexivity. }
  change ((a0 :: as') ++ b0 :: bs) with (a0 :: (as' ++ b0 :: bs)) in *.
  rewrite js_tokenize_digits_end, Hval; try assumption.
  - cbn. unfold arith. reflexivity.
  - rewrite forallb_app. cbn [forallb]. rewrite Has, Hb0, Hbs. reflexivity.
  - assert (Hnz : Ascii.eqb a0 "0" = false)
      by (apply (leading_digit_nonzero a0 as'); [assumption | lia]).
    destruct as'; exact Hnz.
  - rewrite Hval. unfold glued in *. nia.
Qed.

Lemma relocate_glued (labels : gmap string Z) (a b : Z) (cell : nat) (old : Z)
  (memory : list Z) :
  0 < a -> 0 <= b -> glued a b < MAX_SAFE ->
  shadows_with_block labels = false -> memory !! cell = Some old ->
  relocate host_binds labels [(Z.of_nat cell, Some [T_NUMBER a; T_NUMBER b])] memory =
  Ok (<[cell := js_or old (wrap32 (glued a b))]> memory).
Proof.
  intros Ha Hb Hg Hs Hm.
  destruct (js_eval_glued labels a b Ha Hb Hg) as (text & Ht & He).
  cbn [relocate]. rewrite Hs, Ht. cbn [bind]. rewrite He. cbn [bind].
  unfold or_assign. destruct (Z.ltb_spec (Z.of_nat cell) 0); [lia|].
  rewrite Nat2Z.id, Hm. reflexivity.
Qed.

End GluedOperand.

Lemma lexer_two_numbers (da db : string) :
  decimal_text da = true -> decimal_text db = true ->
  number_of da < MAX_SAFE -> number_of db < MAX_SAFE ->
  lexer ("#DV " +:+ da +:+ " " +:+ db) =
  Ok [T_LINENUM 1; T_DIRECTIVE D_DV; T_NUMBER (number_of da); T_NUMBER (number_of db);
      T_LINENUM 2].
Proof.
  intros Ha Hb Hsa Hsb. unfold lexer.
  rewrite !list_ascii_of_string_app, <- !app_assoc.
  change (list_ascii_of_string "#DV " ++ ?l)
    with ("#"%char :: "D"%char :: "V"%char :: " "%char :: l).
  change (list_ascii_of_string " " ++ ?l) with (" "%char :: l).
  change (lex_loop ("#"%char :: "D"%char :: "V"%char :: " "%char :: ?l) ?line ?out)
    with (lex_loop l line (out ++ [T_DIRECTIVE D_DV])).
  rewrite lex_loop_decimal_text by (assumption || reflexivity).
  change (lex_loop (" "%char :: ?l) ?line ?out) with (lex_loop l line out).
  rewrite lex_loop_decimal_text by (assumption || reflexivity).
  reflexivity.
Qed.

(** X22: Two numbers that only a space separates form one operand, and the
    space is lost: the tokens of an operand are written side by side
    before they are evaluated, so the operand reads as the digits of
    the first number (leading zeros dropped) followed by the digits of
    the second. *)
Theorem adjacent_numbers_are_glued (host_binds : string -> bool) (da db : string) :
  decimal_text da = true -> decimal_text db = true ->
  0 < number_of da -> glued (number_of da) (number_of db) < MAX_SAFE ->
  assemble host_binds ("#DV " +:+ da +:+ " " +:+ db) =
  Ok (<[0%nat := wrap32 (glued (number_of da) (number_of db))]> (replicate 1000 0)).
Proof.
  intros Ha Hb Hpa Hg.
  pose proof (number_of_nonneg db Hb) as Hpb.
  assert (Hpow : 0 < 10 ^ Z.of_nat (decimal_length (number_of db)))
    by (apply Z.pow_pos_nonneg; lia).
  assert (Hsa : number_of da < MAX_SAFE) by (unfold glued in Hg; nia).
  assert (Hsb : number_of db < MAX_SAFE) by (unfold glued in Hg; nia).
  unfold assemble. rewrite lexer_two_numbers by assumption.
  cbn [bind]. unfold parser.
  cbn [parse_loop collectCommaSeparated_cursor collectCommaSeparated_output app bind].
  change (count_differs _ _) with false. cbn iota. cbn [bind]. unfold assembler.
  cbn [first_pass emitExpression skips_next bind lookup list_lookup].
  change (D_DV =? D_ORG) with false. change (D_DV =? D_TIMES) with false.
  change (D_DV =? D_DV) with true. cbn iota.
  rewrite emit_inside
    by (cbn [push_recalculate initial_state org memory]; rewrite length_replicate; lia).
  cbn [bind labels valuesToRecalculate memory org push_recalculate initial_state app
         first_pass emitExpression skips_next].
  rewrite (relocate_glued host_binds ∅ _ _ 0%nat 0);
    [| lia | lia | assumption | reflexivity | reflexivity].
  rewrite list_insert_insert_eq, js_or_zero. reflexivity.
Qed.

Lemma adjacent_numbers_are_glued_witness :
  assemble bare_host ("#DV " +:+ "1" +:+ " " +:+ "02") =
  Ok (<[0%nat := wrap32 (glued (number_of "1") (number_of "02"))]> (replicate 1000 0)).
Proof.
  apply (adjacent_numbers_are_glued bare_host "1" "02"); vm_compute; reflexivity.
Defined.

(** ** Comments *)

(** A run collected in front of a character the condition rejects
    stops at the same place whatever stands behind that character. *)
Lemma collectWhile_before_delimiter (p : ascii -> bool) (x y : ascii)
  (xs ys : list ascii) :
  p x = false -> p y = false ->
  forall a : list ascii,
  exists a' : list ascii,
    (length a' <= length a)%nat /\
    collectWhile_output p (a ++ x :: xs) = collectWhile_output p (a ++ y :: ys) /\
    collectWhile_cursor p (a ++ x :: xs) = a' ++ x :: xs /\
    collectWhile_cursor p (a ++ y :: ys) = a' ++ y :: ys.
Proof.
  intros Hx Hy. induction a as [|c a (a' & Hlen & Ho & Hcx & Hcy)].
  - exists []. cbn [app collectWhile_output collectWhile_cursor length].
    rewrite Hx, Hy. repeat split. lia.
  - cbn [app collectWhile_output collectWhile_cursor length]. destruct (p c).
    + exists a'. rewrite Ho. repeat split; try assumption. lia.
    + exists (c :: a). repeat split. cbn [length]. lia.
Qed.

(** Inside a comment, the rest of the line is skipped whatever it holds. *)
Lemma comment_cursor (comment rest : list ascii) :
  forallb not_newline comment = true ->
  forall a : list ascii,
  (collectWhile_cursor not_newline (a ++ ";"%char :: comment ++ newline :: rest) =
   newline :: rest /\
   collectWhile_cursor not_newline (a ++ newline :: rest) = newline :: rest) \/
  exists a' : list ascii,
    (length a' <= length a)%nat /\
    collectWhile_cursor not_newline (a ++ ";"%char :: comment ++ newline :: rest) =
      a' ++ ";"%char :: comment ++ newline :: rest /\
    collectWhile_cursor not_newline (a ++ newline :: rest) = a' ++ newline :: rest.
Proof.
  intros Hc. induction a as [|c a IH].
  - left. cbn [app]. split.
    + change (";"%char :: comment ++ newline :: rest)
        with ((";"%char :: comment) ++ newline :: rest).
      apply collectWhile_cursor_app; [|reflexivity].
      cbn [forallb]. rewrite Hc. reflexivity.
    + reflexivity.
  - cbn [app collectWhile_cursor length]. destruct (not_newline c).
    + destruct IH as [[Hx Hy] | (a' & Hlen & Hx & Hy)].
      * left. split; assumption.
      * right. exists a'. repeat split; try assumption. lia.
    + right. exists (c :: a). repeat split. cbn [length]. lia.
Qed.

Lemma lex_loop_comment (comment rest : list ascii) :
  forallb not_newline comment = true ->
  forall (n : nat) (a : list ascii) (line : Z) (out : list token),
  (length a <= n)%nat ->
  lex_loop (a ++ ";"%char :: comment ++ newline :: rest) line out =
  lex_loop (a ++ newline :: rest) line out.
Proof.
  intros Hc.
  assert (Hbase : forall (line : Z) (out : list token),
            lex_loop (";"%char :: comment ++ newline :: rest) line out =
            lex_loop (newline :: rest) line out).
  { intros line out.
    change (lex_loop (";"%char :: ?l) line out)
      with (let cursor := collectWhile_cursor (fun e => negb (Ascii.eqb e newline)) l in
            match cursor with
            | [] => Unmodelled
            | _ :: _ => lex_loop cursor line out
            end).
    rewrite (collectWhile_cursor_app (fun e => negb (Ascii.eqb e newline)))
      by (assumption || reflexivity).
    reflexivity. }
  induction n as [|n IH]; intros a line out Hlen.
  { destruct a; [apply Hbase | cbn [length] in Hlen; lia]. }
  destruct a as [|ch a]; [apply Hbase|]. cbn [length] in Hlen.
  cbn [app lex_loop].
  destruct (is_ascii7 ch); cbn [negb]; [|reflexivity].
  destruct (Ascii.eqb (toUpperCase ch) " "); [apply IH; lia|].
  destruct (Ascii.eqb (toUpperCase ch) newline); [apply IH; lia|].
  destruct (includes NUMBERS (toUpperCase ch)).
  { destruct (collectWhile_before_delimiter (includes NUMBERS) ";" newline
                (comment ++ newline :: rest) rest eq_refl eq_refl a)
      as (a' & Hl & -> & -> & ->).
    destruct a' as [|c a']; cbn [app]; destruct (exact _); try reflexivity.
    - apply Hbase.
    - apply (IH (c :: a')). lia. }
  destruct (includes SYMBOLS (toUpperCase ch)); [apply IH; lia|].
  destruct (isLetter (toUpperCase ch)).
  { destruct (collectWhile_before_delimiter isLetterOrNumber ";" newline
                (comment ++ newline :: rest) rest eq_refl eq_refl a)
      as (a' & Hl & -> & -> & ->).
    destruct a' as [|c a']; cbn [app]; destruct (indexOf INSTRUCTIONS _).
    - apply Hbase.
    - apply Hbase.
    - apply (IH (c :: a')). lia.
    - apply (IH (c :: a')). lia. }
  destruct (Ascii.eqb (toUpperCase ch) ":"); [apply IH; lia|].
  destruct (Ascii.eqb (toUpperCase ch) "#").
  { destruct (collectWhile_before_delimiter isLetter ";" newline
                (comment ++ newline :: rest) rest eq_refl eq_refl a)
      as (a' & Hl & -> & -> & ->).
    destruct a' as [|c a']; cbn [app]; destruct (indexOf COMPILER_DIRECTIVES _);
      try reflexivity.
    - apply Hbase.
    - apply (IH (c :: a')). lia. }
  destruct (Ascii.eqb (toUpperCase ch) ","); [apply IH; lia|].
  destruct (Ascii.eqb (toUpperCase ch) ";"); [|reflexivity].
  change (fun e : ascii => negb (Ascii.eqb e newline)) with not_newline.
  destruct (comment_cursor comment rest Hc a) as [[-> ->] | (a' & Hl & -> & ->)];
    [reflexivity|].
  destruct a' as [|c a']; cbn [app].
  - apply Hbase.
  - apply (IH (c :: a')). lia.
Qed.

(** X4: A comment changes nothing: a semicolon and the characters behind
    it, up to the end of the line or of the text, can be taken out of
    any text, after any prefix, without changing the tokens or the
    result of the assembly. *)
Theorem comment_changes_nothing (host_binds : string -> bool)
  (before comment after : string) :
  forallb not_newline (list_ascii_of_string comment) = true ->
  ends_comment after = true ->
  lexer (before +:+ ";" +:+ comment +:+ after) = lexer (before +:+ after) /\
  assemble host_binds (before +:+ ";" +:+ comment +:+ after) =
  assemble host_binds (before +:+ after).
Proof.
  intros Hc Ha.
  assert (Hlex : lexer (before +:+ ";" +:+ comment +:+ after) = lexer (before +:+ after)).
  { unfold lexer. rewrite !list_ascii_of_string_app, <- !app_assoc.
    change (list_ascii_of_string ";" ++ ?l) with (";"%char :: l).
    destruct after as [|c after]; cbn [ends_comment] in Ha.
    - cbn [list_ascii_of_string app].
      apply (lex_loop_comment _ [] Hc _ _ _ _ (le_n _)).
    - apply Ascii.eqb_eq in Ha. subst c. cbn [list_ascii_of_string app].
      apply (lex_loop_comment _ _ Hc _ _ _ _ (le_n _)). }
  split; [exact Hlex|]. unfold assemble. rewrite Hlex. reflexivity.
Qed.

Lemma comment_changes_nothing_witness :
  lexer ("TAKE 5 " +:+ ";" +:+ " load; HLT" +:+ (nl +:+ "HLT")) =
  lexer ("TAKE 5 " +:+ (nl +:+ "HLT")) /\
  assemble bare_host ("TAKE 5 " +:+ ";" +:+ " load; HLT" +:+ (nl +:+ "HLT")) =
  assemble bare_host ("TAKE 5 " +:+ (nl +:+ "HLT")).
Proof.
  apply (comment_changes_nothing bare_host "TAKE 5 " " load; HLT" (nl +:+ "HLT"));
    reflexivity.
Defined.

(** ** A relocation error, on a concrete operand *)

Lemma relocation_errors_never_wrapped_witness :
  assembler bare_host [E_INSTRUCTION 1 [[T_NUMBER 1; T_ARITH_SYMBOL "+"]]] =
    Throw JsSyntaxError /\
  forall (line : Z) (inner : js_error),
    JsSyntaxError <> ErrorWhileAssemblingLine line inner.
Proof.
  split; [vm_compute; reflexivity|].
  eapply (relocation_errors_never_wrapped bare_host
            [E_INSTRUCTION 1 [[T_NUMBER 1; T_ARITH_SYMBOL "+"]]]);
    vm_compute; reflexivity.
Defined.

(** ** How arguments are counted *)

Lemma collectCommaSeparated_output_length (line : Z) (rest : list token) :
  forall (tokens buffer : list token) (output : list (list token)),
  forallb (fun t => negb (is_line_token t)) tokens = true ->
  length (collectCommaSeparated_output (tokens ++ T_LINENUM line :: rest) buffer output) =
  (length output + count_commas tokens +
   match last tokens with
   | None => match buffer with [] => 0 | _ :: _ => 1 end
   | Some T_COMMA => 0
   | Some _ => 1
   end)%nat.
Proof.
  induction tokens as [|t tokens IH]; intros buffer output Hall.
  - cbn [app collectCommaSeparated_output count_commas last].
    destruct buffer; [|rewrite length_app]; cbn [length]; lia.
  - cbn [forallb] in Hall. apply andb_true_iff in Hall as [Ht Hall].
    assert (Hlast : last (t :: tokens) =
                    match last tokens with None => Some t | Some x => Some x end).
    { destruct tokens as [|t' tokens]; [reflexivity|].
      rewrite last_cons. destruct (last (t' :: tokens)); reflexivity. }
    rewrite Hlast.
    destruct t; try discriminate Ht;
      cbn [app collectCommaSeparated_output count_commas];
      rewrite IH by exact Hall;
      rewrite ?length_app; cbn [length];
      destruct (last tokens) as [x|]; try lia;
      destruct buffer; cbn [app]; lia.
Qed.

(** X7: The number of arguments [collectCommaSeparated] hands to the arity
    test is the number of commas of the line, plus one when tokens
    stand behind the last comma (or, without comma, when there are
    tokens at all): a trailing comma adds no argument, and a comma
    with nothing before it counts as an empty argument. *)
Theorem argument_count_is_commas_plus_open_group (tokens rest : list token) (line : Z) :
  forallb (fun t => negb (is_line_token t)) tokens = true ->
  length (collectCommaSeparated_output (tokens ++ T_LINENUM line :: rest) [] []) =
  (count_commas tokens + if open_group tokens then 1 else 0)%nat.
Proof.
  intros Hall. rewrite collectCommaSeparated_output_length by exact Hall.
  unfold open_group. cbn [length].
  destruct (last tokens) as [[]|]; lia.
Qed.

Lemma argument_count_is_commas_plus_open_group_witness :
  length (collectCommaSeparated_output
            ([T_NUMBER 5; T_COMMA] ++ T_LINENUM 2 :: []) [] []) =
  (count_commas [T_NUMBER 5; T_COMMA] +
   if open_group [T_NUMBER 5; T_COMMA] then 1 else 0)%nat.
Proof.
  apply (argument_count_is_commas_plus_open_group [T_NUMBER 5; T_COMMA] [] 2).
  reflexivity.
Defined.
